(** * TermiStat: a shallow embedding of [src/termistat.cpp]

    The program samples memory, CPU, battery, disk and network figures from
    Linux pseudo-files and draws them as coloured progress bars.  This file
    embeds the renderer ([drawProgressBar]), the CPU, memory, battery, disk,
    fan and network samplers, the terminal controller ([setNonBlocking])
    and the main loop, and proves the properties the specification states
    about them and further properties of the code.

    Conventions of the embedding:
    - [float] is IEEE 754 binary32, every operation rounded to nearest-even
      (SSE arithmetic, no excess precision).  The operations are those of
      the standard library's [SpecFloat] at precision 24 and [emax] 128.
    - [int] is 32 bits, [long] and [unsigned long long] are 64 bits (LP64).
      Integers are [Z]; the wrap-around of the machine is written out.
    - [cout] is the string the function appends to standard output.
    - Files are an environment mapping a path to its contents when it opens. *)

From Stdlib Require Import ZArith Lia Bool List String Ascii QArith Qabs Qround.
From Stdlib Require Import SpecFloat DecimalString Lqa.
From Stdlib Require Import DecimalFacts DecimalPos DecimalN DecimalZ.
Import ListNotations.

Local Open Scope string_scope.
Local Open Scope Z_scope.

(** ** Machine integers *)

Definition INT_MIN : Z := - 2 ^ 31.
Definition INT_MAX : Z := 2 ^ 31 - 1.
Definition LONG_MIN : Z := - 2 ^ 63.
Definition LONG_MAX : Z := 2 ^ 63 - 1.

(** Two's complement wrap-around of a 64-bit [long]. *)
Definition wrap64 (z : Z) : Z := (z + 2 ^ 63) mod 2 ^ 64 - 2 ^ 63.

(** Wrap-around of a 64-bit [unsigned long long]. *)
Definition wrapU64 (z : Z) : Z := z mod 2 ^ 64.

Definition add64 (a b : Z) : Z := wrap64 (a + b).
Definition sub64 (a b : Z) : Z := wrap64 (a - b).

Definition in_long (z : Z) : Prop := LONG_MIN <= z <= LONG_MAX.

(** ** Single-precision floats *)

Definition float : Type := spec_float.

Module F32.

Definition prec : Z := 24.
Definition emax : Z := 128.

Definition mul : float -> float -> float := SFmul prec emax.
Definition div : float -> float -> float := SFdiv prec emax.
Definition ltb : float -> float -> bool := SFltb.
Definition leb : float -> float -> bool := SFleb.

(** Conversion of an integer ([int], [long], [unsigned long long]) to
    [float]: the nearest float, ties to even. *)
Definition of_Z (z : Z) : float := binary_normalize prec emax z 0 false.

(** A float that is a genuine binary32 datum (canonical mantissa and
    exponent). *)
Definition valid (x : float) : bool := valid_binary prec emax x.

(** The integer part of a float, rounded toward zero; [None] for an
    infinity or a NaN. *)
Definition trunc (x : float) : option Z :=
  match x with
  | S754_zero _ => Some 0
  | S754_finite s m e =>
      Some (cond_Zopp s
              (match e with
               | Z0 => Zpos m
               | Zpos _ => Zpos m * 2 ^ e
               | Zneg k => Z.shiftr (Zpos m) (Zpos k)
               end))
  | _ => None
  end.

(** Conversion [float] -> [int].  C++ truncates toward zero; a value that
    does not fit an [int] (or a NaN) is undefined behaviour there, and the
    x86-64 instruction the conversion compiles to ([cvttss2si]) then gives
    the "integer indefinite" value [INT_MIN].  The embedding follows the
    instruction. *)
Definition to_int (x : float) : Z :=
  match trunc x with
  | Some z => if (INT_MIN <=? z) && (z <=? INT_MAX) then z else INT_MIN
  | None => INT_MIN
  end.

(** The largest integer below or equal to the value of a float (zero for
    an infinity or a NaN). *)
Definition floor (x : float) : Z :=
  match x with
  | S754_finite s m e =>
      match e with
      | Z0 => cond_Zopp s (Zpos m)
      | Zpos _ => cond_Zopp s (Zpos m * 2 ^ e)
      | Zneg k => (cond_Zopp s (Zpos m)) / 2 ^ (Zpos k)
      end
  | _ => 0
  end.

(** The value [m * 2^e] of a finite float, as a rational. *)
Definition to_Q (x : float) : Q :=
  match x with
  | S754_finite s m e =>
      match e with
      | Zneg k => Qmake (cond_Zopp s (Zpos m)) (2 ^ k)%positive
      | _ => inject_Z (cond_Zopp s (Zpos m) * 2 ^ e)
      end
  | _ => 0%Q
  end.

Definition is_nan (x : float) : bool :=
  match x with S754_nan => true | _ => false end.

Definition is_inf (x : float) : bool :=
  match x with S754_infinity _ => true | _ => false end.

Definition zero : float := S754_zero false.

(** The float literals of the source. *)
Definition f100 : float := Eval cbv in of_Z 100.
Definition f60 : float := Eval cbv in of_Z 60.
Definition f85 : float := Eval cbv in of_Z 85.
Definition f30 : float := Eval cbv in of_Z 30.
Definition f75 : float := Eval cbv in of_Z 75.

(** A decimal literal [n/10], such as [59.9f]: the nearest float. *)
Definition of_tenths (n : Z) : float := div (of_Z n) (of_Z 10).

End F32.

(** ** Output formatting *)

(** The escape character, [\033]. *)
Definition ESC : string := String (ascii_of_nat 27) "".

Definition NL : string := String (ascii_of_nat 10) "".

(** [ostream << n] for an integer: its decimal digits, with a minus sign
    when negative. *)
Definition show_Z (z : Z) : string := NilZero.string_of_int (Z.to_int z).

(** Round [n / 2^k] to the nearest integer, ties to even ([n >= 0]). *)
Definition round_half_even_shift (n : Z) (k : positive) : Z :=
  let q := Z.shiftr n (Zpos k) in
  let r := Z.land n (Z.ones (Zpos k)) in
  match Z.compare (2 * r) (2 ^ Zpos k) with
  | Lt => q
  | Gt => q + 1
  | Eq => if Z.even q then q else q + 1
  end.

(** The number of tenths [fixed << setprecision(1)] prints for a finite
    float of mantissa [m] and exponent [e]: the exact value times ten,
    rounded to the nearest integer, ties to even (the C library converts
    the exact binary value, in the default rounding mode). *)
Definition tenths (m : positive) (e : Z) : Z :=
  match e with
  | Z0 => 10 * Zpos m
  | Zpos _ => 10 * Zpos m * 2 ^ e
  | Zneg k => round_half_even_shift (10 * Zpos m) k
  end.

Definition show_tenths (n : Z) : string :=
  show_Z (n / 10) ++ "." ++ show_Z (n mod 10).

Definition sign_text (s : bool) : string := if s then "-" else "".

(** [cout << fixed << setprecision(1) << x] for a float [x].  The only
    NaN the program can print is one its own arithmetic produced: the
    default NaN of SSE arithmetic, whose sign bit is set and which the C
    library prints as [-nan]. *)
Definition show_fixed1 (x : float) : string :=
  match x with
  | S754_zero s => sign_text s ++ "0.0"
  | S754_infinity s => sign_text s ++ "inf"
  | S754_nan => "-nan"
  | S754_finite s m e => sign_text s ++ show_tenths (tenths m e)
  end.

(** ** The renderer *)

Definition GREEN : string := ESC ++ "[42m".
Definition YELLOW : string := ESC ++ "[43m".
Definition RED : string := ESC ++ "[41m".
Definition RESET : string := ESC ++ "[0m".

(** One cell of the used portion, in the chosen colour. *)
Definition filled_cell (color : string) : string := color ++ " " ++ RESET.

(** One grey cell of the remaining portion. *)
Definition empty_cell : string := ESC ++ "[100m " ++ RESET.

(** The colour ramp of [drawProgressBar] (lines 76-92). *)
Definition barColor (percent : float) (invertColors : bool) : string :=
  if negb invertColors then
    if F32.ltb percent F32.f60 then GREEN
    else if F32.ltb percent F32.f85 then YELLOW
    else RED
  else
    if F32.ltb percent F32.f30 then RED
    else if F32.ltb percent F32.f75 then YELLOW
    else GREEN.

(** [int pos = percent * width / 100;] : a float product, a float quotient
    and the conversion back to [int]. *)
Definition barPos (percent : float) (width : Z) : Z :=
  F32.to_int (F32.div (F32.mul percent (F32.of_Z width)) (F32.of_Z 100)).

(** The loop [for (int i = 0; i < width; ++i)]: [n] iterations are left and
    the counter stands at [i]. *)
Fixpoint barLoop (color : string) (pos : Z) (n : nat) (i : Z) : string :=
  match n with
  | O => ""
  | S n' =>
      (if i <? pos then filled_cell color else empty_cell)
        ++ barLoop color pos n' (i + 1)
  end.

Definition drawProgressBar (percent : float) (width : Z) (invertColors : bool)
  : string :=
  let pos := barPos percent width in
  let color := barColor percent invertColors in
  "[" ++ barLoop color pos (Z.to_nat width) 0
      ++ "] " ++ show_fixed1 percent ++ "%".

Definition drawTitle (title : string) : string :=
  ESC ++ "[1;34m==== " ++ title ++ " ====" ++ ESC ++ "[0m" ++ NL.

(** [n] copies of a cell, side by side. *)
Fixpoint cells (c : string) (n : nat) : string :=
  match n with
  | O => ""
  | S n' => c ++ cells c n'
  end.

(** ** Streams and strings *)

(** [isspace] in the C locale. *)
Definition isspace (c : ascii) : bool :=
  let n := nat_of_ascii c in
  ((n =? 32) || ((9 <=? n) && (n <=? 13)))%nat.

Definition isdigit (c : ascii) : bool :=
  let n := nat_of_ascii c in
  ((48 <=? n) && (n <=? 57))%nat.

Definition digit_value (c : ascii) : Z := Z.of_nat (nat_of_ascii c) - 48.

Fixpoint skip_ws (s : string) : string :=
  match s with
  | String c t => if isspace c then skip_ws t else s
  | EmptyString => s
  end.

(** The characters up to the next white space, and what follows them. *)
Fixpoint read_word (s : string) : string * string :=
  match s with
  | String c t =>
      if isspace c then ("", s)
      else let (w, r) := read_word t in (String c w, r)
  | EmptyString => ("", "")
  end.

(** [stream >> word] for a [std::string]: leading white space is skipped. *)
Definition extract_word (s : string) : string * string :=
  read_word (skip_ws s).

(** The decimal digits at the head of a string, accumulated onto [acc];
    [None] when there is none. *)
Fixpoint read_digits (s : string) (acc : option Z) : option Z :=
  match s with
  | String c t =>
      if isdigit c
      then read_digits t
             (Some (10 * match acc with Some a => a | None => 0 end
                    + digit_value c))
      else acc
  | EmptyString => acc
  end.

(** An optionally signed decimal number at the head of a string. *)
Definition read_number (s : string) : option Z :=
  match s with
  | String "-" t => option_map Z.opp (read_digits t None)
  | String "+" t => read_digits t None
  | _ => read_digits s None
  end.

Definition clamp (lo hi z : Z) : Z := Z.max lo (Z.min hi z).

(** [stream >> x] for an [int] that held [old]: white space is skipped; at the
    end of the stream nothing is stored; a failed conversion stores [0]; a
    value out of range stores the nearest bound (C++11). *)
Definition extract_int (s : string) (old : Z) : Z :=
  match skip_ws s with
  | EmptyString => old
  | s' =>
      match read_number s' with
      | Some v => clamp INT_MIN INT_MAX v
      | None => 0
      end
  end.

(** [std::stol]: [None] stands for the exception it throws when there is no
    number or when the number does not fit a [long]. *)
Definition stol (s : string) : option Z :=
  match read_number (skip_ws s) with
  | Some v => if (LONG_MIN <=? v) && (v <=? LONG_MAX) then Some v else None
  | None => None
  end.

(** [std::string::find] from position 0: the index of the first occurrence
    of [needle], [None] for [npos]. *)
Fixpoint find (needle hay : string) : option nat :=
  if prefix needle hay then Some O
  else
    match hay with
    | EmptyString => None
    | String _ t => option_map S (find needle t)
    end.

(** [s.substr(n)], for [n] within the string. *)
Fixpoint substr_from (n : nat) (s : string) : string :=
  match n, s with
  | S n', String _ t => substr_from n' t
  | _, _ => s
  end.

Definition is_newline (c : ascii) : bool := (nat_of_ascii c =? 10)%nat.

(** The lines successive [getline] calls return; [acc] is the line being
    read.  A last line without a newline is returned, an empty one is not. *)
Fixpoint lines_from (acc s : string) : list string :=
  match s with
  | EmptyString =>
      match acc with
      | EmptyString => []
      | _ => [acc]
      end
  | String c t =>
      if is_newline c then acc :: lines_from "" t
      else lines_from (acc ++ String c "") t
  end.

Definition lines (s : string) : list string := lines_from "" s.

(** The first [getline] on a fresh stream (the empty string when it fails). *)
Definition first_line (s : string) : string :=
  match lines s with
  | l :: _ => l
  | [] => ""
  end.

(** [s] occurs in [t] at some position. *)
Definition contains (t s : string) : Prop :=
  exists pre post : string, t = pre ++ s ++ post.

(** ** The files the samplers read

    [open_file path] is the contents of the file when an [ifstream] on it
    opens.  [list_dir path] is the entries a [directory_iterator] yields, in
    its order, as full paths; [None] when it throws.  [statvfs path] is the
    block counts [statvfs] reports, when it succeeds. *)

Record statvfs_t : Type := {
  f_blocks : Z;
  f_frsize : Z;
  f_bfree : Z
}.

Record Env : Type := {
  open_file : string -> option string;
  list_dir : string -> option (list string);
  statvfs : string -> option statvfs_t
}.

(** ** Memory sampler (lines 119-138) *)

(** [percent = 100.0f * used / memTotal]. *)
Definition memPercent (memTotal memAvailable : Z) : float :=
  let used := sub64 memTotal memAvailable in
  F32.div (F32.mul F32.f100 (F32.of_Z used)) (F32.of_Z memTotal).

(** One turn of the [getline] loop over [/proc/meminfo]; [None] when [stol]
    throws. *)
Definition meminfoLine (st : option (Z * Z)) (line : string)
  : option (Z * Z) :=
  match st with
  | None => None
  | Some (memTotal, memAvailable) =>
      let total' :=
        match find "MemTotal:" line with
        | Some O => stol (substr_from 9 line)
        | _ => Some memTotal
        end in
      let avail' :=
        match find "MemAvailable:" line with
        | Some O => stol (substr_from 13 line)
        | _ => Some memAvailable
        end in
      match total', avail' with
      | Some t, Some a => Some (t, a)
      | _, _ => None
      end
  end.

(** The totals the loop leaves in [memTotal] and [memAvailable]; both stay
    zero when the file does not open. *)
Definition readMeminfo (meminfo : option string) : option (Z * Z) :=
  match meminfo with
  | None => Some (0, 0)
  | Some text => fold_left meminfoLine (lines text) (Some (0, 0))
  end.

Definition showMemory (env : Env) : option string :=
  match readMeminfo (open_file env "/proc/meminfo") with
  | None => None
  | Some (memTotal, memAvailable) =>
      let used := sub64 memTotal memAvailable in
      let percent := memPercent memTotal memAvailable in
      Some (drawTitle "Memory"
              ++ "Used: " ++ show_Z (Z.quot used 1024) ++ " MB / "
              ++ show_Z (Z.quot memTotal 1024) ++ " MB" ++ NL
              ++ drawProgressBar percent 40 false
              ++ NL ++ NL)
  end.

(** ** CPU sampler (lines 145-229) *)

(** The seven counters of the aggregate [cpu] line of [/proc/stat], as the
    stream extraction leaves them in the [long] variables. *)
Record cpu_sample : Type := {
  user : Z;
  nice : Z;
  system : Z;
  idle : Z;
  iowait : Z;
  irq : Z;
  softirq : Z
}.

(** The two function-local statics of [showCPU]. *)
Record cpu_state : Type := {
  prevIdle : Z;
  prevTotal : Z
}.

(** Static storage is zero-initialised. *)
Definition cpu_init : cpu_state := {| prevIdle := 0; prevTotal := 0 |}.

Definition idleTimeOf (s : cpu_sample) : Z := add64 (idle s) (iowait s).

Definition totalTimeOf (s : cpu_sample) : Z :=
  add64 (add64 (add64 (add64 (add64 (user s) (nice s)) (system s))
                  (idleTimeOf s)) (irq s)) (softirq s).

(** The usage [showCPU] computes for sample [s] when its statics hold [st]. *)
Definition cpuUsage (st : cpu_state) (s : cpu_sample) : float :=
  let idleTime := idleTimeOf s in
  let totalTime := totalTimeOf s in
  let deltaIdle := sub64 idleTime (prevIdle st) in
  let deltaTotal := sub64 totalTime (prevTotal st) in
  if deltaTotal =? 0 then F32.zero
  else F32.div (F32.mul F32.f100 (F32.of_Z (sub64 deltaTotal deltaIdle)))
               (F32.of_Z deltaTotal).

(** The statics after the call. *)
Definition cpuNext (s : cpu_sample) : cpu_state :=
  {| prevIdle := idleTimeOf s; prevTotal := totalTimeOf s |}.

Section Indeterminate.

(** What an uninitialised [int] local holds when an extraction leaves it
    untouched (an empty file).  Reading it is undefined in C++; the
    embedding keeps it as an unknown. *)
Variable indet : Z.

Definition readCPUTemperature (env : Env) : float :=
  match open_file env "/sys/class/thermal/thermal_zone0/temp" with
  | None => F32.of_Z (-1)
  | Some text => F32.div (F32.of_Z (extract_int text indet)) (F32.of_Z 1000)
  end.

(** The value [fanFile >> rpm] leaves in [rpm]. *)
Definition fanReading (text : string) : Z := extract_int text indet.

Definition fanPath (dir : string) (i : Z) : string :=
  dir ++ "/fan" ++ show_Z i ++ "_input".

(** The loop [for (int i = 1; i <= 5; ++i)] over the indices still to try:
    [Some rpm] when it returns from the function. *)
Fixpoint fanLoop (env : Env) (dir : string) (indices : list Z) : option Z :=
  match indices with
  | [] => None
  | i :: rest =>
      match open_file env (fanPath dir i) with
      | Some text =>
          let rpm := fanReading text in
          if 0 <? rpm then Some rpm else fanLoop env dir rest
      | None => fanLoop env dir rest
      end
  end.

Definition fanIndices : list Z := [1; 2; 3; 4; 5].

(** The loop over the entries of [/sys/class/hwmon/]. *)
Fixpoint hwmonLoop (env : Env) (entries : list string) : Z :=
  match entries with
  | [] => -1
  | entry :: rest =>
      match open_file env (entry ++ "/name") with
      | None => hwmonLoop env rest
      | Some _ =>
          match fanLoop env entry fanIndices with
          | Some rpm => rpm
          | None => hwmonLoop env rest
          end
      end
  end.

(** [None] when the directory iterator throws. *)
Definition readFanRPM (env : Env) : option Z :=
  option_map (hwmonLoop env) (list_dir env "/sys/class/hwmon/").

Definition DEGREE : string :=
  String (ascii_of_nat 194) (String (ascii_of_nat 176) "").

(** [showCPU]: the new statics and the text printed; [None] when
    [readFanRPM] throws. *)
Definition showCPU (env : Env) (st : cpu_state) (s : cpu_sample)
  : option (cpu_state * string) :=
  let usage := cpuUsage st s in
  let temp := readCPUTemperature env in
  match readFanRPM env with
  | None => None
  | Some fanRPM =>
      Some (cpuNext s,
            drawTitle "CPU"
              ++ "Usage: " ++ drawProgressBar usage 40 false ++ NL
              ++ (if F32.ltb (F32.of_Z 0) temp
                  then "Temp: " ++ show_fixed1 temp ++ " " ++ DEGREE ++ "C" ++ NL
                  else "")
              ++ (if 0 <? fanRPM
                  then "Fan:  " ++ show_Z fanRPM ++ " RPM" ++ NL
                  else "")
              ++ NL)
  end.

End Indeterminate.

(** The usages a run of [showCPU] calls reports, one per sample. *)
Fixpoint cpuRun (st : cpu_state) (samples : list cpu_sample) : list float :=
  match samples with
  | [] => []
  | s :: rest => cpuUsage st s :: cpuRun (cpuNext s) rest
  end.

(** ** Battery sampler (lines 236-267) *)

Record BatteryInfo : Type := {
  capacity : Z;
  status : string;
  available : bool
}.

Definition batteryPath : string := "/sys/class/power_supply/" ++ "BAT0/".

Definition readBattery (env : Env) : BatteryInfo :=
  let info := {| capacity := -1; status := "Unknown"; available := false |} in
  match open_file env (batteryPath ++ "capacity"),
        open_file env (batteryPath ++ "status") with
  | Some capText, Some statusText =>
      {| capacity := extract_int capText (capacity info);
         status := first_line statusText;
         available := true |}
  | _, _ => info
  end.

Definition BATTERY_PLACEHOLDER : string :=
  "Battery info not available" ++ NL ++ NL.

Definition showBattery (env : Env) : string :=
  let bat := readBattery env in
  drawTitle "Battery"
    ++ (if available bat
        then status bat ++ NL
               ++ drawProgressBar (F32.of_Z (capacity bat)) 40 true
               ++ NL ++ NL
        else BATTERY_PLACEHOLDER).

(** ** Disk sampler (lines 274-302) *)

Definition found (r : option nat) : bool :=
  match r with
  | Some _ => true
  | None => false
  end.

(** The test of line 285. *)
Definition skipMount (mountpoint : string) : bool :=
  found (find "/dev" mountpoint) || found (find "/sys" mountpoint).

(** [iss >> device >> mountpoint]: the second word of the line. *)
Definition mountpointOf (line : string) : string :=
  let (_, rest) := extract_word line in
  fst (extract_word rest).

Definition diskTotal (st : statvfs_t) : Z := wrapU64 (f_blocks st * f_frsize st).
Definition diskFree (st : statvfs_t) : Z := wrapU64 (f_bfree st * f_frsize st).
Definition diskUsed (st : statvfs_t) : Z := wrapU64 (diskTotal st - diskFree st).

(** [percent = 100.0f * used / total]. *)
Definition diskPercent (st : statvfs_t) : float :=
  F32.div (F32.mul F32.f100 (F32.of_Z (diskUsed st))) (F32.of_Z (diskTotal st)).

(** What one turn of the loop over [/proc/mounts] does with a line. *)
Inductive mount_outcome : Type :=
| Skipped
| StatFailed
| Reported (text : string).

Definition diskEntry (env : Env) (line : string) : mount_outcome :=
  let mountpoint := mountpointOf line in
  if skipMount mountpoint then Skipped
  else
    match statvfs env mountpoint with
    | Some st =>
        Reported (mountpoint ++ ": "
                    ++ show_Z (diskUsed st / (1024 * 1024)) ++ " MB / "
                    ++ show_Z (diskTotal st / (1024 * 1024)) ++ " MB ("
                    ++ show_fixed1 (diskPercent st) ++ "%)" ++ NL)
    | None => StatFailed
    end.

Definition outcome_text (o : mount_outcome) : string :=
  match o with
  | Reported text => text
  | _ => ""
  end.

Definition showDisk (env : Env) : string :=
  drawTitle "Disks"
    ++ String.concat ""
         (map (fun line => outcome_text (diskEntry env line))
              (match open_file env "/proc/mounts" with
               | Some text => lines text
               | None => []
               end))
    ++ NL.

(** ** Input controller (lines 19-41) *)

(** [struct termios] (Linux). *)
Record termios : Type := {
  c_iflag : Z;
  c_oflag : Z;
  c_cflag : Z;
  c_lflag : Z;
  c_line : Z;
  c_cc : list Z;
  c_ispeed : Z;
  c_ospeed : Z
}.

Definition set_lflag (t : termios) (l : Z) : termios :=
  {| c_iflag := c_iflag t; c_oflag := c_oflag t; c_cflag := c_cflag t;
     c_lflag := l; c_line := c_line t; c_cc := c_cc t;
     c_ispeed := c_ispeed t; c_ospeed := c_ospeed t |}.

(** The bits the source names, with their Linux values. *)
Definition ICANON : Z := 2.
Definition ECHO : Z := 8.
Definition O_NONBLOCK : Z := 2048.

(** Standard input as the kernel holds it: the terminal attributes and the
    file status flags. *)
Record Terminal : Type := {
  term_attr : termios;
  term_flags : Z
}.

(** The two function-local statics of [setNonBlocking]. *)
Record nb_static : Type := {
  oldt : termios;
  saved : bool
}.

Definition termios_zero : termios :=
  {| c_iflag := 0; c_oflag := 0; c_cflag := 0; c_lflag := 0; c_line := 0;
     c_cc := []; c_ispeed := 0; c_ospeed := 0 |}.

Definition nb_init : nb_static := {| oldt := termios_zero; saved := false |}.

(** The system calls a call performs, in order. *)
Inductive syscall : Type :=
| Tcgetattr
| Tcsetattr (t : termios)
| FcntlGetfl
| FcntlSetfl (flags : Z).

(** The attributes [enable(true)] installs: the saved ones without
    canonical mode and echo. *)
Definition rawAttr (t : termios) : termios :=
  set_lflag t (Z.land (c_lflag t) (Z.lnot (Z.lor ICANON ECHO))).

(** [setNonBlocking(enable)] on statics [st] and terminal [t]: the statics
    and the terminal after the call and the system calls made (every call
    is taken to succeed). *)
Definition setNonBlocking (enable : bool) (st : nb_static) (t : Terminal)
  : nb_static * Terminal * list syscall :=
  if enable then
    let '(st1, tr1) :=
      if negb (saved st)
      then ({| oldt := term_attr t; saved := true |}, [Tcgetattr])
      else (st, []) in
    let newt := rawAttr (oldt st1) in
    let flags := term_flags t in
    (st1,
     {| term_attr := newt; term_flags := Z.lor flags O_NONBLOCK |},
     (tr1 ++ [Tcsetattr newt; FcntlGetfl; FcntlSetfl (Z.lor flags O_NONBLOCK)])%list)
  else
    if saved st then
      let flags := term_flags t in
      (st,
       {| term_attr := oldt st;
          term_flags := Z.land flags (Z.lnot O_NONBLOCK) |},
       [Tcsetattr (oldt st); FcntlGetfl;
        FcntlSetfl (Z.land flags (Z.lnot O_NONBLOCK))])
    else (st, t, []).

(** A sequence of calls, the first at the head. *)
Fixpoint runCalls (calls : list bool) (st : nb_static) (t : Terminal)
  : nb_static * Terminal * list syscall :=
  match calls with
  | [] => (st, t, [])
  | enable :: rest =>
      let '(st1, t1, tr1) := setNonBlocking enable st t in
      let '(st2, t2, tr2) := runCalls rest st1 t1 in
      (st2, t2, (tr1 ++ tr2)%list)
  end.

Definition is_tcgetattr (c : syscall) : bool :=
  match c with
  | Tcgetattr => true
  | _ => false
  end.

(** How many times a trace saves the terminal attributes. *)
Definition saves (tr : list syscall) : nat :=
  List.length (filter is_tcgetattr tr).

(** The number of cells of the used portion when [n] iterations are left
    and the counter stands at [i]. *)
Definition filledCount (pos i : Z) (n : nat) : nat :=
  Z.to_nat (Z.min (Z.max (pos - i) 0) (Z.of_nat n)).

(** ** Input streams with their state bits

    The samplers below chain several extractions on one stream, so the
    stream carries its state: the characters not yet extracted, [eofbit]
    and [failbit].  Once [failbit] is set every later extraction leaves
    its variable untouched. *)

Record istream : Type := {
  is_buf : string;
  is_eof : bool;
  is_fail : bool
}.

Definition good (st : istream) : bool := negb (is_eof st) && negb (is_fail st).

(** An [ifstream] on a file: [failbit] is set when the file does not
    open. *)
Definition ifstream (contents : option string) : istream :=
  match contents with
  | Some text => {| is_buf := text; is_eof := false; is_fail := false |}
  | None => {| is_buf := ""; is_eof := false; is_fail := true |}
  end.

(** An [istringstream] on a string. *)
Definition istringstream (s : string) : istream :=
  {| is_buf := s; is_eof := false; is_fail := false |}.

Definition at_end (s : string) : bool :=
  match s with
  | EmptyString => true
  | String _ _ => false
  end.

(** The sentry of a formatted extraction: a stream that is not good gets
    [failbit]; otherwise white space is skipped, and reaching the end
    while skipping sets [eofbit] and [failbit]. *)
Definition sentry (st : istream) : istream * bool :=
  if good st then
    match skip_ws (is_buf st) with
    | EmptyString => ({| is_buf := ""; is_eof := true; is_fail := true |}, false)
    | s => ({| is_buf := s; is_eof := false; is_fail := false |}, true)
    end
  else ({| is_buf := is_buf st; is_eof := is_eof st; is_fail := true |}, false).

(** [stream >> word] for a [std::string] that held [old]. *)
Definition get_word (st : istream) (old : string) : istream * string :=
  let (st1, ok) := sentry st in
  if ok then
    let (w, r) := read_word (is_buf st1) in
    ({| is_buf := r; is_eof := at_end r; is_fail := false |}, w)
  else (st1, old).

Fixpoint skip_digits (s : string) : string :=
  match s with
  | String c t => if isdigit c then skip_digits t else s
  | EmptyString => s
  end.

(** What follows the optionally signed number at the head of a string. *)
Definition after_number (s : string) : string :=
  match s with
  | String "-" t => skip_digits t
  | String "+" t => skip_digits t
  | _ => skip_digits s
  end.

(** [stream >> x] for a [long] that held [old]: a failed conversion stores
    [0], a value out of range stores the nearest bound, and both set
    [failbit] (C++11). *)
Definition get_long (st : istream) (old : Z) : istream * Z :=
  let (st1, ok) := sentry st in
  if ok then
    let r := after_number (is_buf st1) in
    match read_number (is_buf st1) with
    | Some v =>
        ({| is_buf := r; is_eof := at_end r;
            is_fail := negb ((LONG_MIN <=? v) && (v <=? LONG_MAX)) |},
         clamp LONG_MIN LONG_MAX v)
    | None => ({| is_buf := r; is_eof := at_end r; is_fail := true |}, 0)
    end
  else (st1, old).

(** The characters up to the delimiter, what follows it, and whether it
    was found. *)
Fixpoint read_until (delim : ascii) (s : string) : string * string * bool :=
  match s with
  | EmptyString => ("", "", false)
  | String c t =>
      if Ascii.eqb c delim then ("", t, true)
      else let '(w, r, f) := read_until delim t in (String c w, r, f)
  end.

(** [getline(stream, str, delim)] for a string that held [old]: the
    delimiter is extracted and dropped; running into the end sets
    [eofbit], and extracting nothing at all sets [failbit]. *)
Definition getline (st : istream) (delim : ascii) (old : string)
  : istream * string :=
  if good st then
    match is_buf st with
    | EmptyString => ({| is_buf := ""; is_eof := true; is_fail := true |}, "")
    | s =>
        let '(w, r, f) := read_until delim s in
        ({| is_buf := r; is_eof := negb f; is_fail := false |}, w)
    end
  else ({| is_buf := is_buf st; is_eof := is_eof st; is_fail := true |}, old).

(** ** The [/proc/stat] line (lines 197-200)

    [stat >> cpu >> user >> nice >> system >> idle >> iowait >> irq >>
    softirq]; [u] is what the seven uninitialised [long] locals hold. *)
Definition readProcStat (stat : option string) (u : cpu_sample) : cpu_sample :=
  let s0 := ifstream stat in
  let (s1, cpu) := get_word s0 "" in
  let (s2, v_user) := get_long s1 (user u) in
  let (s3, v_nice) := get_long s2 (nice u) in
  let (s4, v_system) := get_long s3 (system u) in
  let (s5, v_idle) := get_long s4 (idle u) in
  let (s6, v_iowait) := get_long s5 (iowait u) in
  let (s7, v_irq) := get_long s6 (irq u) in
  let (s8, v_softirq) := get_long s7 (softirq u) in
  {| user := v_user; nice := v_nice; system := v_system; idle := v_idle;
     iowait := v_iowait; irq := v_irq; softirq := v_softirq |}.

(** [showCPU] on the files of [env]. *)
Definition showCPU_env (indet : Z) (u : cpu_sample) (env : Env) (st : cpu_state)
  : option (cpu_state * string) :=
  showCPU indet env st (readProcStat (open_file env "/proc/stat") u).

(** ** Network sampler (lines 310-346) *)

(** The arrow of the report line, in UTF-8. *)
Definition ARROW : string :=
  String (ascii_of_nat 226)
    (String (ascii_of_nat 134) (String (ascii_of_nat 146) "")).

(** [s.erase(remove(s.begin(), s.end(), ' '), s.end())]. *)
Fixpoint remove_spaces (s : string) : string :=
  match s with
  | EmptyString => ""
  | String c t =>
      if Ascii.eqb c " "%char then remove_spaces t else String c (remove_spaces t)
  end.

(** The loop [for (int i = 0; i < 7; ++i) iss >> tx;]. *)
Fixpoint skipFields (n : nat) (st : istream) (tx : Z) : istream * Z :=
  match n with
  | O => (st, tx)
  | S n' => let (st1, tx1) := get_long st tx in skipFields n' st1 tx1
  end.

(** One turn of the loop over the lines of [/proc/net/dev]; [rx0] and [tx0]
    are what the uninitialised [long] locals [rx] and [tx] hold. *)
Definition netLine (line : string) (rx0 tx0 : Z) : string :=
  let iss := istringstream line in
  let (s1, iface) := getline iss ":"%char "" in
  let trimmed_iface := remove_spaces iface in
  let (s2, rx) := get_long s1 rx0 in
  let (s3, tx) := skipFields 7 s2 tx0 in
  trimmed_iface ++ " " ++ ARROW ++ " RX: " ++ show_Z (Z.quot rx 1024)
    ++ " KB, TX: " ++ show_Z (Z.quot tx 1024) ++ " KB" ++ NL.

(** The turns of the loop, the first line having number [i]; [indet i] is
    what [rx] and [tx] hold, uninitialised, in turn [i]. *)
Fixpoint netLines (indet : nat -> Z * Z) (i : nat) (ls : list string) : string :=
  match ls with
  | [] => ""
  | line :: rest =>
      netLine line (fst (indet i)) (snd (indet i))
        ++ netLines indet (S i) rest
  end.

(** The strings successive [fgets(buffer, 256, fp)] calls store: at most
    255 characters each, a newline ending the string it is stored in.
    [room] is the space left in the buffer and [acc] what it holds. *)
Fixpoint fgets_from (room : nat) (acc s : string) : list string :=
  match s with
  | EmptyString =>
      match acc with
      | EmptyString => []
      | _ => [acc]
      end
  | String c t =>
      if is_newline c || (room =? 1)%nat
      then (acc ++ String c "") :: fgets_from 255 "" t
      else fgets_from (room - 1) (acc ++ String c "") t
  end.

(** [string s(buffer)]: the characters before the first NUL. *)
Fixpoint c_string (s : string) : string :=
  match s with
  | EmptyString => ""
  | String c t => if Ascii.eqb c zero then "" else String c (c_string t)
  end.

Definition SIGNAL_LEVEL : string := "Signal level=".

(** What one turn of the [fgets] loop prints. *)
Definition wifiLine (buffer : string) : string :=
  let s := c_string buffer in
  match find SIGNAL_LEVEL s with
  | Some pos => NL ++ "WiFi Signal: " ++ substr_from pos s
  | None => ""
  end.

(** [iwconfig] is the output of the [iwconfig] command, [None] when
    [popen] fails. *)
Definition showWifi (iwconfig : option string) : string :=
  match iwconfig with
  | Some out => String.concat "" (map wifiLine (fgets_from 255 "" out))
  | None => ""
  end.

Definition showNetwork (indet : nat -> Z * Z) (env : Env)
           (iwconfig : option string) : string :=
  drawTitle "Network"
    ++ netLines indet 0
         (skipn 2 (match open_file env "/proc/net/dev" with
                   | Some text => lines text
                   | None => []
                   end))
    ++ showWifi iwconfig
    ++ NL.

(** ** Main loop (lines 57-59 and 353-380) *)

Definition clearScreen : string := ESC ++ "[2J" ++ ESC ++ "[1;1H".

Definition BANNER : string :=
  ESC ++ "[1;32m*** TermiStat ***" ++ ESC ++ "[0m" ++ NL ++ NL.

Definition PROMPT : string := "Press ENTER to quit" ++ NL.

(** What the machine presents during one refresh: the files, the output of
    [iwconfig], and what the uninitialised locals of the samplers hold. *)
Record World : Type := {
  w_env : Env;
  w_iwconfig : option string;
  w_int : Z;
  w_stat : cpu_sample;
  w_net : nat -> Z * Z
}.

(** The body of the [while] loop up to the wait: the statics of [showCPU]
    after it and the text printed; [None] when a sampler throws. *)
Definition refresh (w : World) (cpu : cpu_state) : option (cpu_state * string) :=
  match showMemory (w_env w) with
  | None => None
  | Some memory =>
      match showCPU_env (w_int w) (w_stat w) (w_env w) cpu with
      | None => None
      | Some (cpu1, cpuText) =>
          Some (cpu1,
                clearScreen ++ BANNER ++ memory ++ cpuText
                  ++ showBattery (w_env w) ++ showDisk (w_env w)
                  ++ showNetwork (w_net w) (w_env w) (w_iwconfig w))
      end
  end.

(** The test [c == '\n' || c == '\r']. *)
Definition is_enter (c : ascii) : bool :=
  Ascii.eqb c (ascii_of_nat 10) || Ascii.eqb c (ascii_of_nat 13).

(** How the wait of one second ends.  A [read] that delivers a byte is
    [Some c], one that delivers nothing ([n <= 0]) is [None]; [reads] is
    the results of the calls still to come. *)
Inductive wait_result : Type :=
| Enter (unread : list (option ascii))
| Elapsed (unread : list (option ascii))
| Pending.

(** The loop [for (int i = 0; i < 10; ++i)], [n] turns being left. *)
Fixpoint waitLoop (n : nat) (reads : list (option ascii)) : wait_result :=
  match n with
  | O => Elapsed reads
  | S n' =>
      match reads with
      | [] => Pending
      | Some c :: rest => if is_enter c then Enter rest else waitLoop n' rest
      | None :: rest => waitLoop n' rest
      end
  end.

(** How far a run of [main] gets on the refreshes and reads it is given:
    it returns, it is terminated by an exception no one catches, or it is
    still running when they are used up.  [r_output] is the prompt and
    the text of the refreshes that were completed. *)
Inductive outcome : Type :=
| Returned (code : Z)
| Terminated
| Running.

Record run : Type := {
  r_outcome : outcome;
  r_output : string;
  r_static : nb_static;
  r_terminal : Terminal;
  r_trace : list syscall;
  r_unread : list (option ascii)
}.

(** The [while (true)] loop.  [out] is the text of the refreshes completed
    so far and [tr] the system calls made on the terminal. *)
Fixpoint mainLoop (worlds : list World) (reads : list (option ascii))
         (cpu : cpu_state) (nb : nb_static) (t : Terminal)
         (out : string) (tr : list syscall) : run :=
  match worlds with
  | [] =>
      {| r_outcome := Running; r_output := out; r_static := nb;
         r_terminal := t; r_trace := tr; r_unread := reads |}
  | w :: later =>
      match refresh w cpu with
      | None =>
          {| r_outcome := Terminated; r_output := out; r_static := nb;
             r_terminal := t; r_trace := tr; r_unread := reads |}
      | Some (cpu1, text) =>
          match waitLoop 10 reads with
          | Enter unread =>
              let '(nb1, t1, tr1) := setNonBlocking false nb t in
              {| r_outcome := Returned 0; r_output := out ++ text;
                 r_static := nb1; r_terminal := t1;
                 r_trace := (tr ++ tr1)%list; r_unread := unread |}
          | Elapsed unread =>
              mainLoop later unread cpu1 nb t (out ++ text) tr
          | Pending =>
              {| r_outcome := Running; r_output := out ++ text;
                 r_static := nb; r_terminal := t; r_trace := tr;
                 r_unread := [] |}
          end
      end
  end.

(** [main] on a terminal [t0], from start-up. *)
Definition main (worlds : list World) (reads : list (option ascii))
           (t0 : Terminal) : run :=
  let '(nb, t, tr) := setNonBlocking true nb_init t0 in
  mainLoop worlds reads cpu_init nb t PROMPT tr.

(** ** What the specification says of the CPU sampler *)

(** [idleTime] and [totalTime] as sums of integers, without wrap-around. *)
Definition idleTime (s : cpu_sample) : Z := idle s + iowait s.

Definition totalTime (s : cpu_sample) : Z :=
  user s + nice s + system s + idle s + iowait s + irq s + softirq s.

Definition counters (s : cpu_sample) : list Z :=
  [user s; nice s; system s; idle s; iowait s; irq s; softirq s].

(** Counters as the kernel reports them: non-negative, and small enough
    for the sum of seven to fit a [long]. *)
Definition jiffies_ok (s : cpu_sample) : Prop :=
  Forall (fun c => 0 <= c < 2 ^ 60) (counters s).

(** The usage for a step of [deltaIdle] idle time out of [deltaTotal]:
    [100 * (deltaTotal - deltaIdle) / deltaTotal] in single precision, the
    product first, guarded against a zero denominator. *)
Definition usageOf (deltaIdle deltaTotal : Z) : float :=
  if deltaTotal =? 0 then F32.zero
  else F32.div (F32.mul F32.f100 (F32.of_Z (deltaTotal - deltaIdle)))
               (F32.of_Z deltaTotal).

(** The two synthetic samples of the specification: idle 100 of 200, then
    idle 150 of 400. *)
Definition sampleA : cpu_sample :=
  {| user := 100; nice := 0; system := 0; idle := 100; iowait := 0;
     irq := 0; softirq := 0 |}.

Definition sampleB : cpu_sample :=
  {| user := 250; nice := 0; system := 0; idle := 150; iowait := 0;
     irq := 0; softirq := 0 |}.

(** ** What the specification says of the other samplers *)

(** The result of a float division by zero: a NaN or an infinity. *)
Definition nan_or_inf (x : float) : bool := F32.is_nan x || F32.is_inf x.

(** A pseudo file system with no blocks, as [statvfs] reports [/proc]. *)
Definition statvfs_proc : statvfs_t :=
  {| f_blocks := 0; f_frsize := 4096; f_bfree := 0 |}.

(** The first strictly positive reading of a list, [-1] when none is. *)
Definition firstPositive (readings : list Z) : Z :=
  match List.find (fun rpm => 0 <? rpm) readings with
  | Some rpm => rpm
  | None => -1
  end.

Definition nameReadable (env : Env) (dir : string) : bool :=
  match open_file env (dir ++ "/name") with
  | Some _ => true
  | None => false
  end.

(** The readings of the fan files of a directory that open, [fan1_input]
    first. *)
Definition fanReadings (indet : Z) (env : Env) (dir : string) : list Z :=
  flat_map (fun i =>
              match open_file env (fanPath dir i) with
              | Some text => [fanReading indet text]
              | None => []
              end)
           fanIndices.

(** The candidate readings of a scan: those of the directories whose
    [name] file opens, in scan order. *)
Definition candidateReadings (indet : Z) (env : Env) (entries : list string)
  : list Z :=
  flat_map (fanReadings indet env) (filter (nameReadable env) entries).

(** The outcome of a sequence of [setNonBlocking] calls. *)
Definition finalStatic (r : nb_static * Terminal * list syscall) : nb_static :=
  fst (fst r).

Definition finalTerminal (r : nb_static * Terminal * list syscall) : Terminal :=
  snd (fst r).

Definition callTrace (r : nb_static * Terminal * list syscall) : list syscall :=
  snd r.

(** The terminal a call leaves once the attributes are saved. *)
Definition terminalAfter (st : nb_static) (enable : bool) (t : Terminal)
  : Terminal :=
  if enable
  then {| term_attr := rawAttr (oldt st);
          term_flags := Z.lor (term_flags t) O_NONBLOCK |}
  else {| term_attr := oldt st;
          term_flags := Z.land (term_flags t) (Z.lnot O_NONBLOCK) |}.

(** A terminal that was opened non-blocking (O_RDWR | O_NONBLOCK), in
    cooked mode. *)
Definition cooked : termios :=
  {| c_iflag := 17664; c_oflag := 5; c_cflag := 191; c_lflag := 35387;
     c_line := 0; c_cc := []; c_ispeed := 15; c_ospeed := 15 |}.

Definition nonblocking_tty : Terminal :=
  {| term_attr := cooked; term_flags := 2050 |}.

(** A hardware-monitor tree of two directories: [hwmon0] has a spinning
    fan but no [name] file, [hwmon1] has a [name] file, a stopped first fan
    and a second fan at 900 RPM. *)
Definition hwmon_env : Env :=
  {| open_file := fun path =>
       if (path =? "/sys/class/hwmon/hwmon0/fan1_input")%string
       then Some ("1200" ++ NL)
       else if (path =? "/sys/class/hwmon/hwmon1/name")%string
       then Some ("nct6775" ++ NL)
       else if (path =? "/sys/class/hwmon/hwmon1/fan1_input")%string
       then Some ("0" ++ NL)
       else if (path =? "/sys/class/hwmon/hwmon1/fan2_input")%string
       then Some ("900" ++ NL)
       else None;
     list_dir := fun path =>
       if (path =? "/sys/class/hwmon/")%string
       then Some ["/sys/class/hwmon/hwmon0"; "/sys/class/hwmon/hwmon1"]
       else None;
     statvfs := fun _ => None |}.

(** What the loop of [showDisk] prints for a list of lines of
    [/proc/mounts]. *)
Definition mountReports (env : Env) (ls : list string) : string :=
  String.concat "" (map (fun l => outcome_text (diskEntry env l)) ls).

(** A machine with a home directory named [dev-user]: its mount is listed
    between a [tmpfs] on [/dev/shm] and the root file system. *)
Definition dev_user_mounts : string :=
  "tmpfs /dev/shm tmpfs rw 0 0" ++ NL
    ++ "/dev/sda3 /home/dev-user ext4 rw,relatime 0 0" ++ NL
    ++ "/dev/sda1 / ext4 rw,relatime 0 0" ++ NL.

Definition dev_user_env : Env :=
  {| open_file := fun path =>
       if (path =? "/proc/mounts")%string then Some dev_user_mounts else None;
     list_dir := fun _ => None;
     statvfs := fun _ =>
       Some {| f_blocks := 1000000; f_frsize := 4096; f_bfree := 250000 |} |}.
(** ** Reading floats *)

(** A shift record stands for a number between [shr_m] and [shr_m + 1];
    [shr_ceil] is the least integer above or equal to it. *)
Definition shr_ceil (mrs : shr_record) : Z :=
  shr_m mrs + (if shr_r mrs || shr_s mrs then 1 else 0).

Definition loc_ceil (l : location) : Z :=
  match l with
  | loc_Exact => 0
  | loc_Inexact _ => 1
  end.

(** A float of sign [s] whose magnitude lies between [Lo * 2^g] and
    [Hi * 2^g]: a zero when [Lo <= 0], or a finite float [m * 2^e] with
    [e <= g] and [Lo * 2^(g-e) <= m <= Hi * 2^(g-e)]. *)
Definition between (s : bool) (g Lo Hi : Z) (x : float) : Prop :=
  match x with
  | S754_zero sx => sx = s /\ Lo <= 0
  | S754_finite sx m e =>
      sx = s /\ e <= g /\ Lo * 2 ^ (g - e) <= Zpos m <= Hi * 2 ^ (g - e)
  | _ => False
  end.

Definition signbit (x : float) : bool :=
  match x with
  | S754_zero s | S754_infinity s | S754_finite s _ _ => s
  | S754_nan => false
  end.

(** The number of tenths [show_fixed1] prints for a float. *)
Definition shownTenths (x : float) : Z :=
  match x with
  | S754_finite _ m e => tenths m e
  | _ => 0
  end.

(** [floor (percent * width / 100)] in exact arithmetic, on the value of
    the float [percent]. *)
Definition exactCells (percent : float) (width : Z) : Z :=
  Qfloor (F32.to_Q percent * inject_Z width / inject_Z 100).

(** The float [96.66666412353516], the largest below [96 + 2/3]. *)
Definition percent_below_29_30 : float := S754_finite false 12670293 (-17).

(** The integer part of the value of a finite float, rounded toward
    zero. *)
Definition towardZero (x : float) : Z :=
  let q := F32.to_Q x in
  if Qle_bool 0 q then Qfloor q else Qceiling q.

(** The float [6e9], a percentage far out of range. *)
Definition percent_6e9 : float := F32.of_Z 6000000000.
(** ** Notions used to state the properties of the parsers *)

(** The number a string of decimal digits stands for, read after the
    digits of [acc]. *)
Fixpoint uint_val (d : Decimal.uint) (acc : Z) : Z :=
  match d with
  | Decimal.Nil => acc
  | Decimal.D0 l => uint_val l (10 * acc)
  | Decimal.D1 l => uint_val l (10 * acc + 1)
  | Decimal.D2 l => uint_val l (10 * acc + 2)
  | Decimal.D3 l => uint_val l (10 * acc + 3)
  | Decimal.D4 l => uint_val l (10 * acc + 4)
  | Decimal.D5 l => uint_val l (10 * acc + 5)
  | Decimal.D6 l => uint_val l (10 * acc + 6)
  | Decimal.D7 l => uint_val l (10 * acc + 7)
  | Decimal.D8 l => uint_val l (10 * acc + 8)
  | Decimal.D9 l => uint_val l (10 * acc + 9)
  end.

(** A string that does not go on with a digit: what may follow a number
    for the number to end there. *)
Definition no_digit_ahead (s : string) : bool :=
  match s with
  | String c _ => negb (isdigit c)
  | EmptyString => true
  end.

(** A string of white space only. *)
Fixpoint blank (s : string) : bool :=
  match s with
  | String c t => isspace c && blank t
  | EmptyString => true
  end.

(** A non-empty run of white space, as separates two fields. *)
Definition separator (s : string) : bool := blank s && negb (at_end s).

(** A non-empty string without white space: one field of a line. *)
Fixpoint solid (s : string) : bool :=
  match s with
  | String c t => negb (isspace c) && solid t
  | EmptyString => true
  end.

Definition field (s : string) : bool := solid s && negb (at_end s).

(** A string without the character [c]. *)
Fixpoint lacks (c : ascii) (s : string) : bool :=
  match s with
  | String c' t => negb (Ascii.eqb c' c) && lacks c t
  | EmptyString => true
  end.

Definition one_line (s : string) : bool := lacks (ascii_of_nat 10) s.

(** A text file made of the given lines, each ended by a newline. *)
Definition unlines (ls : list string) : string :=
  String.concat "" (map (fun l => l ++ NL) ls).

Definition fits_long (z : Z) : Prop := LONG_MIN <= z <= LONG_MAX.

(** A stream after a number was extracted: it stands behind the digits,
    with [eofbit] when they ran to the end. *)
Definition behind (rest : string) : istream :=
  {| is_buf := rest; is_eof := at_end rest; is_fail := false |}.

(** The colour of the inverted ramp for a whole percentage. *)
Definition batteryColor (c : Z) : string :=
  if c <? 30 then RED else if c <? 75 then YELLOW else GREEN.

(** A bar of 40 cells with exactly [floor (40 * c / 100)] of them filled,
    followed by the percentage [c] with one decimal. *)
Definition batteryBar (c : Z) : string :=
  "[" ++ cells (filled_cell (batteryColor c)) (Z.to_nat (40 * c / 100))
      ++ cells empty_cell (Z.to_nat (40 - 40 * c / 100))
      ++ "] " ++ show_Z c ++ ".0%".

(** The whole percentages, 0 to 100. *)
Definition percentages : list Z := map Z.of_nat (seq 0 101).

(** A line of [/proc/meminfo] that begins with neither of the two keys
    the sampler looks for. *)
Definition otherLine (l : string) : bool :=
  one_line l && negb (prefix "MemTotal:" l) && negb (prefix "MemAvailable:" l).

(** A line [key  value unit], as the kernel prints it. *)
Definition meminfoEntry (key ws : string) (value : Z) (unit : string) : string :=
  key ++ ws ++ show_Z value ++ unit.

(** A line of the output of [iwconfig] that [fgets] stores whole: no NUL
    and, with its newline, fewer than 256 characters. *)
Definition shortLine (l : string) : bool :=
  one_line l && lacks zero l && (String.length l <? 255)%nat.

(** What a line with the marker is reported as: the line from the marker
    on, with its newline. *)
Definition wifiReport (l : string) : string :=
  match find SIGNAL_LEVEL l with
  | Some pos => NL ++ "WiFi Signal: " ++ substr_from pos l ++ NL
  | None => ""
  end.

(** The text of consecutive refreshes, [None] when one of them throws. *)
Fixpoint screens (worlds : list World) (cpu : cpu_state) : option string :=
  match worlds with
  | [] => Some ""
  | w :: later =>
      match refresh w cpu with
      | None => None
      | Some (cpu1, text) => option_map (append text) (screens later cpu1)
      end
  end.

(** A [read] that does not deliver Enter. *)
Definition no_enter (r : option ascii) : bool :=
  match r with
  | Some c => negb (is_enter c)
  | None => true
  end.

(** The terminal as [setNonBlocking(true)] leaves it at start-up. *)
Definition rawTerminal (t0 : Terminal) : Terminal :=
  {| term_attr := rawAttr (term_attr t0);
     term_flags := Z.lor (term_flags t0) O_NONBLOCK |}.

Definition is_tcsetattr (c : syscall) : bool :=
  match c with
  | Tcsetattr _ => true
  | _ => false
  end.

(** The run after Enter: [setNonBlocking(false)] and [return 0]. *)
Definition returned (nb : nb_static) (t : Terminal) (out : string)
           (tr : list syscall) (unread : list (option ascii)) : run :=
  let '(nb1, t1, tr1) := setNonBlocking false nb t in
  {| r_outcome := Returned 0; r_output := out;
     r_static := nb1; r_terminal := t1;
     r_trace := (tr ++ tr1)%list; r_unread := unread |}.

(** The system calls of [setNonBlocking(true)] at start-up. *)
Definition rawTrace (t0 : Terminal) : list syscall :=
  [Tcgetattr; Tcsetattr (rawAttr (term_attr t0)); FcntlGetfl;
   FcntlSetfl (Z.lor (term_flags t0) O_NONBLOCK)].




(** ** A machine to run the samplers on *)

Definition laptop_meminfo : string :=
  unlines ["MemTotal:       16384000 kB";
           "MemFree:         1000000 kB";
           "MemAvailable:    8192000 kB";
           "Buffers:          300000 kB"].

Definition laptop_stat : string :=
  unlines ["cpu  250 0 0 150 0 0 0 0 0 0";
           "cpu0 250 0 0 150 0 0 0 0 0 0"].

Definition laptop_mounts : string :=
  unlines ["/dev/sda1 / ext4 rw,relatime 0 0";
           "proc /proc proc rw 0 0";
           "tmpfs /dev/shm tmpfs rw 0 0"].

Definition laptop_netdev : string :=
  unlines ["Inter-|   Receive                |  Transmit";
           " face |bytes    packets errs drop|bytes    packets errs drop";
           "  eth0: 1048576 100 0 0 0 0 0 7 2097152 50 0 0 0 0 0 0"].

Definition laptop_root : statvfs_t :=
  {| f_blocks := 1000000; f_frsize := 4096; f_bfree := 250000 |}.

Definition laptop_env : Env :=
  {| open_file := fun path =>
       if (path =? "/proc/meminfo")%string then Some laptop_meminfo
       else if (path =? "/proc/stat")%string then Some laptop_stat
       else if (path =? "/proc/mounts")%string then Some laptop_mounts
       else if (path =? "/proc/net/dev")%string then Some laptop_netdev
       else if (path =? "/sys/class/thermal/thermal_zone0/temp")%string
       then Some ("45000" ++ NL)
       else if (path =? "/sys/class/power_supply/BAT0/capacity")%string
       then Some ("87" ++ NL)
       else if (path =? "/sys/class/power_supply/BAT0/status")%string
       then Some ("Discharging" ++ NL)
       else if (path =? "/sys/class/hwmon/hwmon0/name")%string
       then Some ("coretemp" ++ NL)
       else if (path =? "/sys/class/hwmon/hwmon0/fan1_input")%string
       then Some ("2400" ++ NL)
       else None;
     list_dir := fun path =>
       if (path =? "/sys/class/hwmon/")%string
       then Some ["/sys/class/hwmon/hwmon0"]
       else None;
     statvfs := fun path =>
       if (path =? "/")%string then Some laptop_root else None |}.

Definition laptop_iwconfig : string :=
  unlines ["wlan0     IEEE 802.11  ESSID:off/any";
           "          Link Quality=70/70  Signal level=-40 dBm"].

Definition laptop : World :=
  {| w_env := laptop_env;
     w_iwconfig := Some laptop_iwconfig;
     w_int := 0;
     w_stat := sampleA;
     w_net := fun _ => (0, 0) |}.

(** A machine on which no file opens and no directory can be listed. *)
Definition bare_env : Env :=
  {| open_file := fun _ => None;
     list_dir := fun _ => None;
     statvfs := fun _ => None |}.

Definition bare : World :=
  {| w_env := bare_env;
     w_iwconfig := None;
     w_int := 0;
     w_stat := sampleA;
     w_net := fun _ => (0, 0) |}.

(** A terminal in cooked mode, blocking. *)
Definition cooked_tty : Terminal := {| term_attr := cooked; term_flags := 2 |}.

(** A machine whose [/proc/meminfo] has a [MemTotal:] line without a
    number. *)
Definition garbled_meminfo : string :=
  unlines ["MemAvailable: 100 kB"; "MemTotal: unknown"].

Definition garbled_env : Env :=
  {| open_file := fun path =>
       if (path =? "/proc/meminfo")%string then Some garbled_meminfo
       else None;
     list_dir := fun _ => None;
     statvfs := fun _ => None |}.

(** * Properties *)

(** ** Strings and cells *)

Lemma append_assoc (a b c : string) : (a ++ b) ++ c = a ++ (b ++ c).
Proof.
  induction a as [|x a IH]; simpl; [reflexivity | now rewrite IH].
Qed.

Lemma barLoop_cells (color : string) (pos : Z) (n : nat) :
  forall i,
    barLoop color pos n i
    = cells (filled_cell color) (filledCount pos i n)
        ++ cells empty_cell (n - filledCount pos i n).
Proof.
  induction n as [|n IH]; intros i.
  - replace (filledCount pos i 0) with O by (unfold filledCount; lia).
    reflexivity.
  - cbn [barLoop]. rewrite IH.
    destruct (Z.ltb_spec i pos) as [Hlt | Hge].
    + replace (filledCount pos i (S n)) with (S (filledCount pos (i + 1) n))
        by (unfold filledCount; lia).
      cbn [cells]. rewrite append_assoc.
      replace (S n - S (filledCount pos (i + 1) n))%nat
        with (n - filledCount pos (i + 1) n)%nat by lia.
      reflexivity.
    + replace (filledCount pos i (S n)) with O by (unfold filledCount; lia).
      replace (filledCount pos (i + 1) n) with O by (unfold filledCount; lia).
      cbn [cells]. simpl.
      replace (n - 0)%nat with n by lia.
      reflexivity.
Qed.

(** The conversion to [int] truncates the value toward zero. *)
Lemma trunc_towardZero (x : float) :
  nan_or_inf x = false -> F32.trunc x = Some (towardZero x).
Proof.
  destruct x as [s | s | | s m e]; try discriminate; intros _.
  - reflexivity.
  - unfold F32.trunc, towardZero, F32.to_Q. f_equal.
    destruct e as [|p|k].
    + rewrite Z.pow_0_r, Z.mul_1_r.
      destruct (Qle_bool 0 (inject_Z (cond_Zopp s (Zpos m))));
        [now rewrite Qfloor_Z | now rewrite Qceiling_Z].
    + replace (cond_Zopp s (Zpos m * 2 ^ Zpos p))
        with (cond_Zopp s (Zpos m) * 2 ^ Zpos p)
        by (destruct s; cbn [cond_Zopp]; lia).
      destruct (Qle_bool 0 (inject_Z (cond_Zopp s (Zpos m) * 2 ^ Zpos p)));
        [now rewrite Qfloor_Z | now rewrite Qceiling_Z].
    + rewrite Z.shiftr_div_pow2 by lia.
      destruct s; cbn [cond_Zopp].
      * unfold Qle_bool, Qceiling, Qopp, Qfloor. cbn [Qnum Qden Z.opp].
        rewrite Pos2Z.inj_pow. reflexivity.
      * unfold Qle_bool, Qfloor. cbn [Qnum Qden].
        rewrite Pos2Z.inj_pow. reflexivity.
Qed.

(** C10, counterexample.  At [percent = 6e9] and width 40 the quotient
    is 2400000000, which no [int] holds: the conversion yields [INT_MIN]
    and no cell is filled, where the truncated quotient clamped to the
    width gives 40. *)
Lemma drawProgressBar_overflow_fills_nothing :
  let v := F32.div (F32.mul percent_6e9 (F32.of_Z 40)) (F32.of_Z 100) in
  nan_or_inf v = false
  /\ towardZero v = 2400000000
  /\ Z.min (Z.max 2400000000 0) 40 = 40
  /\ barPos percent_6e9 40 = INT_MIN
  /\ drawProgressBar percent_6e9 40 false
     = "[" ++ cells empty_cell 40 ++ "] " ++ "6000000000.0" ++ "%".
Proof. cbv zeta. repeat split; vm_compute; reflexivity. Qed.

(** C10, amended.  For every float [percent], in or out of [0,100], NaN
    and infinities included, and every positive [width], the bar is
    exactly [width] cells: the first [min (max pos 0) width] in the colour
    of the used portion, the others grey, where [pos] is the source's
    [percent * width / 100] converted to [int].  When the quotient is a
    number whose integer part fits an [int], [pos] is that integer part,
    the quotient truncated toward zero.  When it is not, a magnitude of
    [2^31] or more, an infinity or a NaN, the conversion gives [INT_MIN]
    and no cell is filled.  The loop gives this count whatever [pos] the
    conversion yields.  The percentage only shows again in the number
    printed after the bar. *)
Theorem drawProgressBar_prints_width_cells :
  forall (percent : float) (width : Z) (invertColors : bool),
    0 < width ->
    let v := F32.div (F32.mul percent (F32.of_Z width)) (F32.of_Z 100) in
    let pos := barPos percent width in
    let k := Z.min (Z.max pos 0) width in
    let z := towardZero v in
    drawProgressBar percent width invertColors
    = "[" ++ cells (filled_cell (barColor percent invertColors)) (Z.to_nat k)
          ++ cells empty_cell (Z.to_nat (width - k))
          ++ "] " ++ show_fixed1 percent ++ "%"
    /\ (Z.to_nat k + Z.to_nat (width - k) = Z.to_nat width)%nat
    /\ 0 <= k <= width
    /\ (nan_or_inf v = false -> INT_MIN <= z <= INT_MAX ->
        pos = z /\ k = Z.min (Z.max z 0) width)
    /\ (nan_or_inf v = true \/ z < INT_MIN \/ INT_MAX < z ->
        pos = INT_MIN /\ k = 0)
    /\ (forall (color : string) (p : Z),
           barLoop color p (Z.to_nat width) 0
           = cells (filled_cell color) (Z.to_nat (Z.min (Z.max p 0) width))
               ++ cells empty_cell
                    (Z.to_nat (width - Z.min (Z.max p 0) width))).
Proof.
  intros percent width invertColors Hw v pos k z.
  assert (Hloop : forall (color : string) (p : Z),
             barLoop color p (Z.to_nat width) 0
             = cells (filled_cell color) (Z.to_nat (Z.min (Z.max p 0) width))
                 ++ cells empty_cell
                      (Z.to_nat (width - Z.min (Z.max p 0) width))).
  { intros color p. rewrite barLoop_cells.
    replace (filledCount p 0 (Z.to_nat width))
      with (Z.to_nat (Z.min (Z.max p 0) width))
      by (unfold filledCount; rewrite Z2Nat.id by lia; f_equal; lia).
    f_equal. f_equal. lia. }
  assert (Hin : nan_or_inf v = false -> INT_MIN <= z <= INT_MAX -> pos = z).
  { intros Hv Hrange. unfold pos, barPos, F32.to_int. fold v.
    rewrite (trunc_towardZero v Hv). fold z.
    destruct (Z.leb_spec INT_MIN z); [| lia].
    destruct (Z.leb_spec z INT_MAX); [reflexivity | lia]. }
  assert (Hout : nan_or_inf v = true \/ z < INT_MIN \/ INT_MAX < z ->
                 pos = INT_MIN).
  { intros Hcase. unfold pos, barPos, F32.to_int. fold v.
    destruct (nan_or_inf v) eqn:Hv.
    - destruct v as [s | s | | s m e]; try discriminate Hv; reflexivity.
    - rewrite (trunc_towardZero v Hv). fold z.
      destruct Hcase as [Hc | Hc]; [discriminate Hc |].
      destruct (Z.leb_spec INT_MIN z); [| reflexivity].
      destruct (Z.leb_spec z INT_MAX); [lia | reflexivity]. }
  split; [| split; [unfold k; lia | split; [unfold k; lia |
            split; [| split]]]].
  - unfold drawProgressBar. fold pos. rewrite Hloop. fold k.
    cbn [append]. now rewrite append_assoc.
  - intros Hv Hrange. split; [now apply Hin |].
    unfold k. now rewrite (Hin Hv Hrange).
  - intros Hcase. split; [now apply Hout |].
    unfold k. rewrite (Hout Hcase). unfold INT_MIN. lia.
  - exact Hloop.
Qed.

(** A bar of width 40 for a percentage out of range: forty cells. *)
Lemma drawProgressBar_prints_width_cells_witness :
  0 < 40 /\
  drawProgressBar (F32.of_Z 250) 40 false
  = "[" ++ cells (filled_cell RED) 40 ++ cells empty_cell 0
        ++ "] " ++ "250.0" ++ "%".
Proof.
  split; [lia |].
  destruct (drawProgressBar_prints_width_cells (F32.of_Z 250) 40 false)
    as [H _]; [lia |].
  exact H.
Defined.

(** ** Colour thresholds *)

Ltac float_cases x :=
  destruct x as [[|] | [|] | | [|] mx ex]; try discriminate; try reflexivity.

(** Against a positive finite constant, [c <= x] excludes [x < c]. *)
Lemma leb_not_ltb (mc : positive) (ec : Z) (x : float) :
  F32.leb (S754_finite false mc ec) x = true ->
  F32.ltb x (S754_finite false mc ec) = false.
Proof.
  unfold F32.leb, F32.ltb, SFleb, SFltb.
  float_cases x.
  cbn [SFcompare].
  rewrite (Z.compare_antisym ec ex).
  destruct (ec ?= ex) eqn:He; cbn [CompOpp]; try discriminate; try reflexivity.
  rewrite !Pos.compare_cont_spec. cbn [Pos.switch_Eq].
  rewrite (Pos.compare_antisym mc mx).
  destruct (mc ?= mx)%positive; cbn [CompOpp]; try discriminate; reflexivity.
Qed.

(** [x < b] is false as soon as a constant [c] above [b] is at most [x]. *)
Lemma leb_not_ltb_below (mb mc : positive) (eb ec : Z) (x : float) :
  F32.ltb (S754_finite false mb eb) (S754_finite false mc ec) = true ->
  F32.leb (S754_finite false mc ec) x = true ->
  F32.ltb x (S754_finite false mb eb) = false.
Proof.
  unfold F32.leb, F32.ltb, SFleb, SFltb.
  float_cases x.
  cbn [SFcompare]. rewrite !Pos.compare_cont_spec. cbn [Pos.switch_Eq].
  destruct (eb ?= ec) eqn:Hbc; try discriminate;
    destruct (ec ?= ex) eqn:Hce; try discriminate;
    destruct (ex ?= eb) eqn:Heb; try reflexivity;
    rewrite ?Z.compare_eq_iff, ?Z.compare_lt_iff, ?Z.compare_gt_iff in *;
    try lia.
  subst.
  destruct (mb ?= mc)%positive eqn:H1; try discriminate.
  destruct (mc ?= mx)%positive eqn:H2; try discriminate;
    destruct (mx ?= mb)%positive eqn:H3; try reflexivity;
    rewrite ?Pos.compare_eq_iff, ?Pos.compare_lt_iff, ?Pos.compare_gt_iff in *;
    subst; lia.
Qed.

(** C4.  The colour is chosen by fixed thresholds on [percent], compared
    as floats: without inversion green below 60, yellow from 60 and below
    85, red from 85; with inversion red below 30, yellow from 30 and below
    75, green from 75.  The thresholds are exact: 59.9 is green, 60.0 and
    84.9 are yellow, 85.0 is red.  The colour chosen is the one the bar is
    drawn in. *)
Theorem drawProgressBar_color_thresholds :
  forall percent : float,
    (F32.ltb percent F32.f60 = true -> barColor percent false = GREEN)
    /\ (F32.leb F32.f60 percent = true -> F32.ltb percent F32.f85 = true ->
        barColor percent false = YELLOW)
    /\ (F32.leb F32.f85 percent = true -> barColor percent false = RED)
    /\ (F32.ltb percent F32.f30 = true -> barColor percent true = RED)
    /\ (F32.leb F32.f30 percent = true -> F32.ltb percent F32.f75 = true ->
        barColor percent true = YELLOW)
    /\ (F32.leb F32.f75 percent = true -> barColor percent true = GREEN)
    /\ (forall width invertColors,
           drawProgressBar percent width invertColors
           = "[" ++ barLoop (barColor percent invertColors)
                      (barPos percent width) (Z.to_nat width) 0
                 ++ "] " ++ show_fixed1 percent ++ "%")
    /\ (barColor (F32.of_tenths 599) false = GREEN
        /\ barColor F32.f60 false = YELLOW
        /\ barColor (F32.of_tenths 849) false = YELLOW
        /\ barColor F32.f85 false = RED)
    /\ (barColor (F32.of_tenths 299) true = RED
        /\ barColor F32.f30 true = YELLOW
        /\ barColor (F32.of_tenths 749) true = YELLOW
        /\ barColor F32.f75 true = GREEN).
Proof.
  intros percent. unfold barColor. cbn [negb].
  repeat split.
  - intros H. now rewrite H.
  - intros H60 H85. unfold F32.f60 in *.
    now rewrite (leb_not_ltb _ _ _ H60), H85.
  - intros H85. unfold F32.f85, F32.f60 in *.
    rewrite (leb_not_ltb_below 15728640 11141120 (-18) (-17) percent eq_refl H85).
    now rewrite (leb_not_ltb _ _ _ H85).
  - intros H. now rewrite H.
  - intros H30 H75. unfold F32.f30 in *.
    now rewrite (leb_not_ltb _ _ _ H30), H75.
  - intros H75. unfold F32.f75, F32.f30 in *.
    assert (Hlt : F32.ltb F32.f30 F32.f75 = true) by reflexivity.
    rewrite (leb_not_ltb_below _ _ _ _ percent Hlt H75).
    now rewrite (leb_not_ltb _ _ _ H75).
Qed.
(** ** Concatenation *)

Lemma append_nil_r (s : string) : s ++ "" = s.
Proof. induction s as [|c s IH]; cbn [append]; congruence. Qed.

Lemma concat_cons (x : string) (xs : list string) :
  String.concat "" (x :: xs) = x ++ String.concat "" xs.
Proof.
  destruct xs as [|y ys]; cbn [String.concat append].
  - now rewrite append_nil_r.
  - reflexivity.
Qed.

Lemma concat_app (xs ys : list string) :
  String.concat "" (xs ++ ys)
  = String.concat "" xs ++ String.concat "" ys.
Proof.
  induction xs as [|x xs IH]; [reflexivity |].
  change ((x :: xs) ++ ys)%list with (x :: (xs ++ ys))%list.
  now rewrite !concat_cons, IH, append_assoc.
Qed.

(** ** Rounding of binary32 operations

    Rounding to nearest never crosses a number of the format.  The lemmas
    below enclose the result of a conversion, a product and a quotient
    between two numbers [Lo * 2^g] and [Hi * 2^g] of the format
    ([Hi < 2^24]) that enclose the exact result. *)

Lemma digits2_pos_spec (p : positive) :
  2 ^ (Zpos (digits2_pos p) - 1) <= Zpos p < 2 ^ Zpos (digits2_pos p).
Proof.
  induction p as [p IH | p IH |]; cbn [digits2_pos].
  - rewrite Pos2Z.inj_succ.
    replace (Z.succ (Zpos (digits2_pos p)) - 1) with (Zpos (digits2_pos p))
      by lia.
    rewrite Z.pow_succ_r by lia.
    replace (Zpos (digits2_pos p))
      with (Z.succ (Zpos (digits2_pos p) - 1)) at 1 by lia.
    rewrite Z.pow_succ_r by lia. lia.
  - rewrite Pos2Z.inj_succ.
    replace (Z.succ (Zpos (digits2_pos p)) - 1) with (Zpos (digits2_pos p))
      by lia.
    rewrite Z.pow_succ_r by lia.
    replace (Zpos (digits2_pos p))
      with (Z.succ (Zpos (digits2_pos p) - 1)) at 1 by lia.
    rewrite Z.pow_succ_r by lia. lia.
  - cbn. lia.
Qed.

(** A non-negative integer below [2^k] has at most [k] digits. *)
Lemma Zdigits2_le (m k : Z) : 0 <= m -> 0 <= k -> m < 2 ^ k -> Zdigits2 m <= k.
Proof.
  intros Hm Hk Hlt. destruct m as [|p|p]; cbn [Zdigits2]; try lia.
  pose proof (digits2_pos_spec p) as [Hlo _].
  destruct (Z_le_gt_dec (Zpos (digits2_pos p)) k) as [|Hgt]; [assumption |].
  exfalso.
  assert (2 ^ k <= 2 ^ (Zpos (digits2_pos p) - 1))
    by (apply Z.pow_le_mono_r; lia).
  lia.
Qed.

(** One step of a right shift halves the number: a lower bound [2 * L] on
    the mantissa becomes [L], an upper bound [2 * H] on the ceiling
    becomes [H]. *)
Lemma shr_1_between (mrs : shr_record) (L H : Z) :
  0 <= shr_m mrs -> 2 * L <= shr_m mrs -> shr_ceil mrs <= 2 * H ->
  0 <= shr_m (shr_1 mrs)
  /\ L <= shr_m (shr_1 mrs)
  /\ shr_ceil (shr_1 mrs) <= H.
Proof.
  destruct mrs as [m r s]. unfold shr_ceil. cbn [shr_m shr_r shr_s].
  intros Hm HL HH.
  destruct m as [|[p|p|]|p]; try lia;
    destruct r, s; cbn [shr_1 shr_m shr_r shr_s orb] in *; lia.
Qed.

Lemma iter_shr_1_between (p : positive) :
  forall (mrs : shr_record) (L H : Z),
    0 <= shr_m mrs ->
    2 ^ Zpos p * L <= shr_m mrs -> shr_ceil mrs <= 2 ^ Zpos p * H ->
    0 <= shr_m (iter_pos shr_1 p mrs)
    /\ L <= shr_m (iter_pos shr_1 p mrs)
    /\ shr_ceil (iter_pos shr_1 p mrs) <= H.
Proof.
  induction p as [p IH | p IH |]; intros mrs L H Hm HL HH; cbn [iter_pos].
  - replace (Zpos p~1) with (1 + Zpos p + Zpos p) in HL, HH by lia.
    rewrite !Z.pow_add_r, Z.pow_1_r in HL, HH by lia.
    destruct (shr_1_between mrs (2 ^ Zpos p * (2 ^ Zpos p * L))
                (2 ^ Zpos p * (2 ^ Zpos p * H)) Hm)
      as (H1 & H2 & H3); [lia | lia |].
    destruct (IH _ _ _ H1 H2 H3) as (H4 & H5 & H6).
    exact (IH _ _ _ H4 H5 H6).
  - replace (Zpos p~0) with (Zpos p + Zpos p) in HL, HH by lia.
    rewrite Z.pow_add_r in HL, HH by lia.
    destruct (IH mrs (2 ^ Zpos p * L) (2 ^ Zpos p * H) Hm)
      as (H1 & H2 & H3); [lia | lia |].
    exact (IH _ _ _ H1 H2 H3).
  - rewrite Z.pow_1_r in HL, HH. now apply shr_1_between.
Qed.

(** A right shift keeps a number between two bounds that lie on the
    coarser grid. *)
Lemma shr_between (mrs : shr_record) (e n L H : Z) :
  0 <= shr_m mrs ->
  2 ^ Z.max n 0 * L <= shr_m mrs -> shr_ceil mrs <= 2 ^ Z.max n 0 * H ->
  0 <= shr_m (fst (shr mrs e n))
  /\ L <= shr_m (fst (shr mrs e n))
  /\ shr_ceil (fst (shr mrs e n)) <= H
  /\ snd (shr mrs e n) = e + Z.max n 0.
Proof.
  intros Hm HL HH. destruct n as [|p|p]; cbn [shr fst snd].
  - rewrite Z.max_r in * by lia. rewrite Z.pow_0_r in HL, HH. lia.
  - rewrite Z.max_l in * by lia.
    destruct (iter_shr_1_between p mrs L H Hm HL HH) as (H1 & H2 & H3). lia.
  - rewrite Z.max_r in * by lia. rewrite Z.pow_0_r in HL, HH. lia.
Qed.

Lemma shr_record_of_loc_ceil (m : Z) (l : location) :
  shr_ceil (shr_record_of_loc m l) = m + loc_ceil l
  /\ shr_m (shr_record_of_loc m l) = m.
Proof. destruct l as [|[| |]]; split; reflexivity. Qed.

Lemma round_nearest_even_between (mrs : shr_record) :
  shr_m mrs
  <= round_nearest_even (shr_m mrs) (loc_of_shr_record mrs)
  <= shr_ceil mrs.
Proof.
  destruct mrs as [m r s]. unfold shr_ceil. cbn [shr_m shr_r shr_s].
  destruct r, s; cbn [loc_of_shr_record round_nearest_even orb];
    try destruct (Z.even m); lia.
Qed.

Lemma shr_m_le_ceil (mrs : shr_record) : shr_m mrs <= shr_ceil mrs.
Proof. unfold shr_ceil. destruct (shr_r mrs || shr_s mrs); lia. Qed.

Lemma below_pow2 (m N g e : Z) :
  e <= g -> 0 <= N < 2 ^ 24 -> m <= N * 2 ^ (g - e) -> m < 2 ^ (24 + g - e).
Proof.
  intros He HN Hm.
  replace (24 + g - e) with (24 + (g - e)) by lia.
  rewrite Z.pow_add_r by lia.
  assert (0 < 2 ^ (g - e)) by (apply Z.pow_pos_nonneg; lia).
  nia.
Qed.

(** The exponent a shift to the format's grid ends at stays at most [g]
    for a mantissa below [2^(24 + g - e)]. *)
Lemma fexp_shift_bound (m e g : Z) :
  0 <= m -> e <= g -> -149 <= g -> m < 2 ^ (24 + g - e) ->
  e + Z.max (fexp F32.prec F32.emax (Zdigits2 m + e) - e) 0 <= g.
Proof.
  intros Hm He Hg Hlt.
  pose proof (Zdigits2_le m (24 + g - e) Hm ltac:(lia) Hlt) as Hd.
  unfold fexp, emin, F32.prec, F32.emax. lia.
Qed.

Lemma scale_split (N g e n : Z) :
  e + Z.max n 0 <= g ->
  2 ^ Z.max n 0 * (N * 2 ^ (g - (e + Z.max n 0))) = N * 2 ^ (g - e).
Proof.
  intros H.
  assert (Hp : 2 ^ (g - e) = 2 ^ Z.max n 0 * 2 ^ (g - (e + Z.max n 0)))
    by (rewrite <- Z.pow_add_r by lia; f_equal; lia).
  rewrite Hp. ring.
Qed.

(** Rounding encloses: a number between [Lo * 2^g] and [Hi * 2^g], with
    [Hi < 2^24], is rounded to a float between the same bounds. *)
Lemma binary_round_aux_between
      (s : bool) (mx ex : Z) (lx : location) (g Lo Hi : Z) :
  0 <= mx -> ex <= g -> -149 <= g <= 104 -> 0 <= Hi < 2 ^ 24 ->
  Lo * 2 ^ (g - ex) <= mx ->
  mx + loc_ceil lx <= Hi * 2 ^ (g - ex) ->
  between s g Lo Hi (binary_round_aux F32.prec F32.emax s mx ex lx).
Proof.
  intros Hmx Hex Hg HHi HLo Hle.
  unfold binary_round_aux, shr_fexp.
  set (n1 := fexp F32.prec F32.emax (Zdigits2 mx + ex) - ex).
  destruct (shr_record_of_loc_ceil mx lx) as [Hc0 Hm0].
  assert (Hlt0 : mx < 2 ^ (24 + g - ex)).
  { apply (below_pow2 mx Hi g ex Hex HHi).
    destruct lx; cbn [loc_ceil] in Hle; lia. }
  pose proof (fexp_shift_bound mx ex g Hmx Hex ltac:(lia) Hlt0) as He1.
  fold n1 in He1.
  destruct (shr_between (shr_record_of_loc mx lx) ex n1
              (Lo * 2 ^ (g - (ex + Z.max n1 0)))
              (Hi * 2 ^ (g - (ex + Z.max n1 0))))
    as (Hm1 & HL1 & Hc1 & Hs1).
  { now rewrite Hm0. }
  { rewrite Hm0, scale_split by assumption. exact HLo. }
  { rewrite Hc0, scale_split by assumption. exact Hle. }
  destruct (shr (shr_record_of_loc mx lx) ex n1) as [mrs1 e1].
  cbn [fst snd] in Hm1, HL1, Hc1, Hs1. subst e1.
  set (e1 := ex + Z.max n1 0) in *.
  pose proof (round_nearest_even_between mrs1) as [Hlo2 Hle2].
  set (m2 := round_nearest_even (shr_m mrs1) (loc_of_shr_record mrs1)) in *.
  set (n2 := fexp F32.prec F32.emax (Zdigits2 m2 + e1) - e1).
  assert (Hm2 : 0 <= m2) by lia.
  assert (Hlt2 : m2 < 2 ^ (24 + g - e1))
    by (apply (below_pow2 m2 Hi g e1 He1 HHi); lia).
  pose proof (fexp_shift_bound m2 e1 g Hm2 He1 ltac:(lia) Hlt2) as He2.
  fold n2 in He2.
  destruct (shr_between (shr_record_of_loc m2 loc_Exact) e1 n2
              (Lo * 2 ^ (g - (e1 + Z.max n2 0)))
              (Hi * 2 ^ (g - (e1 + Z.max n2 0))))
    as (Hm3 & HL3 & Hc3 & Hs3).
  { cbn [shr_record_of_loc shr_m]. exact Hm2. }
  { rewrite scale_split by assumption.
    cbn [shr_record_of_loc shr_m]. lia. }
  { rewrite scale_split by assumption.
    unfold shr_ceil. cbn [shr_record_of_loc shr_m shr_r shr_s orb]. lia. }
  destruct (shr (shr_record_of_loc m2 loc_Exact) e1 n2) as [mrs2 e2].
  cbn [fst snd] in Hm3, HL3, Hc3, Hs3. subst e2.
  pose proof (shr_m_le_ceil mrs2) as Hmc.
  assert (Hpos : 0 < 2 ^ (g - (e1 + Z.max n2 0)))
    by (apply Z.pow_pos_nonneg; lia).
  destruct (shr_m mrs2) as [|m|m] eqn:Hm; cbn [between].
  - split; [reflexivity | nia].
  - replace (e1 + Z.max n2 0 <=? F32.emax - F32.prec) with true
      by (symmetry; apply Z.leb_le; unfold F32.emax, F32.prec; lia).
    cbn [between]. repeat split; lia.
  - lia.
Qed.

Lemma iter_xO (k p : positive) : Zpos (Pos.iter xO p k) = Zpos p * 2 ^ Zpos k.
Proof.
  induction k as [|k IH] using Pos.peano_ind.
  - cbn. lia.
  - rewrite Pos.iter_succ, Pos2Z.inj_succ, Z.pow_succ_r by lia.
    rewrite Pos2Z.inj_xO, IH. ring.
Qed.

(** An integer below [2^24] converts exactly. *)
Lemma of_Z_between (w : Z) :
  0 <= w < 2 ^ 24 -> between false 0 w w (F32.of_Z w).
Proof.
  intros Hw. destruct w as [|p|p]; try lia.
  { cbn. split; [reflexivity | lia]. }
  unfold F32.of_Z, binary_normalize, binary_round, shl_align.
  pose proof (Zdigits2_le (Zpos p) 24 ltac:(lia) ltac:(lia) ltac:(lia)) as Hd.
  cbn [Zdigits2] in Hd.
  assert (Hd1 : 1 <= Zpos (digits2_pos p)) by lia.
  replace (fexp F32.prec F32.emax (Zpos (digits2_pos p) + 0))
    with (Zpos (digits2_pos p) - 24)
    by (unfold fexp, emin, F32.prec, F32.emax; lia).
  rewrite Z.sub_0_r.
  destruct (Zpos (digits2_pos p) - 24) as [|k|k] eqn:Hk; try lia.
  - apply binary_round_aux_between; cbn [loc_ceil]; try lia.
  - apply binary_round_aux_between; cbn [loc_ceil]; try lia.
    + rewrite iter_xO. cbn [Z.sub Z.opp Z.add]. lia.
    + rewrite iter_xO. cbn [Z.sub Z.opp Z.add]. lia.
Qed.

(** The product of two finite non-negative floats is enclosed as the
    exact product of their mantissas is. *)
Lemma mul_between (mx my : positive) (ex ey g Lo Hi : Z) :
  ex + ey <= g -> -149 <= g <= 104 -> 0 <= Hi < 2 ^ 24 ->
  Lo * 2 ^ (g - (ex + ey)) <= Zpos mx * Zpos my <= Hi * 2 ^ (g - (ex + ey)) ->
  between false g Lo Hi
    (F32.mul (S754_finite false mx ex) (S754_finite false my ey)).
Proof.
  intros He Hg HHi [HLo Hle].
  unfold F32.mul, SFmul. cbn [xorb].
  apply binary_round_aux_between; cbn [loc_ceil];
    rewrite ?Pos2Z.inj_mul; try lia.
Qed.

Lemma new_location_ceil (nb r : Z) :
  loc_ceil (new_location nb r) = if r =? 0 then 0 else 1.
Proof.
  unfold new_location, new_location_even, new_location_odd.
  destruct (Z.even nb), (r =? 0); reflexivity.
Qed.

(** The quotient of a finite non-negative float [mx * 2^ex] by the float
    of a positive integer [T] is enclosed as the exact quotient is. *)
Lemma div_between (mx mt : positive) (ex et T g Lo Hi : Z) :
  0 < T -> et <= 0 -> Zpos mt = T * 2 ^ (- et) ->
  ex <= 0 -> -149 <= g <= 0 -> 0 <= Lo -> 0 <= Hi < 2 ^ 24 ->
  Lo * T * 2 ^ (- ex) <= Zpos mx * 2 ^ (- g) ->
  Zpos mx * 2 ^ (- g) <= Hi * T * 2 ^ (- ex) ->
  between false g Lo Hi
    (F32.div (S754_finite false mx ex) (S754_finite false mt et)).
Proof.
  intros HT Het Hmt Hex Hg HLo0 HHi HLo Hle.
  unfold F32.div, SFdiv, SFdiv_core_binary. cbn [xorb].
  set (d1 := Zdigits2 (Zpos mx)). set (d2 := Zdigits2 (Zpos mt)).
  set (e' := Z.min (fexp F32.prec F32.emax (d1 + ex - (d2 + et))) (ex - et)).
  set (sh := ex - et - e').
  assert (Hpt : 0 < 2 ^ (- et)) by (apply Z.pow_pos_nonneg; lia).
  assert (Hpx : 0 < 2 ^ (- ex)) by (apply Z.pow_pos_nonneg; lia).
  assert (Hpg : 0 < 2 ^ (- g)) by (apply Z.pow_pos_nonneg; lia).
  (* the mantissa is below 2^(24 + g - ex) * T *)
  assert (Hd : d1 + ex - (d2 + et) <= 24 + g).
  { subst d1 d2. cbn [Zdigits2].
    pose proof (digits2_pos_spec mx) as [Hlox _].
    pose proof (digits2_pos_spec mt) as [_ Hhit].
    destruct (Z_le_gt_dec (Zpos (digits2_pos mx) + ex
                           - (Zpos (digits2_pos mt) + et)) (24 + g))
      as [|Hgt]; [assumption | exfalso].
    (* 2^(d1-1) <= mx  and  mt < 2^d2 *)
    assert (H1 : 2 ^ (Zpos (digits2_pos mx) - 1) * 2 ^ (- g)
                 <= Hi * T * 2 ^ (- ex)) by nia.
    assert (H2 : T * 2 ^ (- et) < 2 ^ Zpos (digits2_pos mt)) by lia.
    assert (H3 : 2 ^ (Zpos (digits2_pos mx) - 1) * 2 ^ (- g) * 2 ^ (- et)
                 < 2 ^ 24 * 2 ^ (- ex) * 2 ^ Zpos (digits2_pos mt)).
    { apply Z.le_lt_trans with (Hi * 2 ^ (- ex) * (T * 2 ^ (- et))).
      - nia.
      - assert (0 < T * 2 ^ (- et)) by nia.
        assert (Hi * 2 ^ (- ex) < 2 ^ 24 * 2 ^ (- ex)) by nia.
        assert (0 <= Hi * 2 ^ (- ex)) by nia.
        nia. }
    rewrite <- !Z.pow_add_r in H3 by lia.
    apply Z.pow_lt_mono_r_iff in H3; lia. }
  assert (He' : e' <= g)
    by (subst e'; unfold fexp, emin, F32.prec, F32.emax; lia).
  assert (Hsh : 0 <= sh) by (subst sh e'; lia).
  set (m' := match sh with
             | 0 => Zpos mx
             | Zpos _ => Z.shiftl (Zpos mx) sh
             | Zneg _ => 0
             end).
  assert (Hm' : m' = Zpos mx * 2 ^ sh).
  { subst m'. destruct sh as [|k|k] eqn:Hk; try lia.
    now rewrite Z.shiftl_mul_pow2 by lia. }
  pose proof (Z_div_mod m' (Zpos mt) ltac:(lia)) as Hdiv.
  destruct (Z.div_eucl m' (Zpos mt)) as [q r]. destruct Hdiv as [Hqr Hr].
  assert (Hpe : 0 < 2 ^ (g - e')) by (apply Z.pow_pos_nonneg; lia).
  assert (Hpsh : 0 < 2 ^ sh) by (apply Z.pow_pos_nonneg; lia).
  (* m' * 2^-g * 2^-ex... : scale the two hypotheses to the divisor *)
  assert (Hscale : 2 ^ (- ex) * 2 ^ sh = 2 ^ (- et) * 2 ^ (- g) * 2 ^ (g - e')).
  { rewrite <- !Z.pow_add_r by lia. f_equal. subst sh. lia. }
  assert (HloS : Lo * 2 ^ (g - e') * Zpos mt <= m').
  { rewrite Hm', Hmt.
    apply Z.mul_le_mono_pos_r with (p := 2 ^ (- ex) * 2 ^ (- g)); [nia |].
    replace (Lo * 2 ^ (g - e') * (T * 2 ^ (- et)) * (2 ^ (- ex) * 2 ^ (- g)))
      with (Lo * T * 2 ^ (- ex) * (2 ^ (- et) * 2 ^ (- g) * 2 ^ (g - e')))
      by ring.
    replace (Zpos mx * 2 ^ sh * (2 ^ (- ex) * 2 ^ (- g)))
      with (Zpos mx * 2 ^ (- g) * (2 ^ (- ex) * 2 ^ sh)) by ring.
    rewrite Hscale. apply Z.mul_le_mono_nonneg_r; [nia | exact HLo]. }
  assert (HhiS : m' <= Hi * 2 ^ (g - e') * Zpos mt).
  { rewrite Hm', Hmt.
    apply Z.mul_le_mono_pos_r with (p := 2 ^ (- ex) * 2 ^ (- g)); [nia |].
    replace (Hi * 2 ^ (g - e') * (T * 2 ^ (- et)) * (2 ^ (- ex) * 2 ^ (- g)))
      with (Hi * T * 2 ^ (- ex) * (2 ^ (- et) * 2 ^ (- g) * 2 ^ (g - e')))
      by ring.
    replace (Zpos mx * 2 ^ sh * (2 ^ (- ex) * 2 ^ (- g)))
      with (Zpos mx * 2 ^ (- g) * (2 ^ (- ex) * 2 ^ sh)) by ring.
    rewrite Hscale. apply Z.mul_le_mono_nonneg_r; [nia | exact Hle]. }
  assert (Hq0 : 0 <= q) by nia.
  apply binary_round_aux_between; try lia.
  - nia.
  - rewrite new_location_ceil.
    destruct (Z.eqb_spec r 0) as [-> | Hne]; nia.
Qed.
(** ** The bar of a percentage in range *)

Lemma round_half_even_shift_near (n : Z) (k : positive) :
  0 <= n ->
  0 <= round_half_even_shift n k
  /\ 2 * Z.abs (round_half_even_shift n k * 2 ^ Zpos k - n) <= 2 ^ Zpos k.
Proof.
  intros Hn. unfold round_half_even_shift.
  rewrite Z.shiftr_div_pow2, Z.land_ones by lia.
  assert (Hp : 0 < 2 ^ Zpos k) by (apply Z.pow_pos_nonneg; lia).
  pose proof (Z.div_mod n (2 ^ Zpos k) ltac:(lia)) as Hdm.
  pose proof (Z.mod_pos_bound n (2 ^ Zpos k) Hp) as Hr.
  assert (Hq : 0 <= n / 2 ^ Zpos k) by (apply Z.div_pos; lia).
  set (q := n / 2 ^ Zpos k) in *. set (r := n mod 2 ^ Zpos k) in *.
  destruct (2 * r ?= 2 ^ Zpos k) eqn:Hc;
    rewrite ?Z.compare_eq_iff, ?Z.compare_lt_iff, ?Z.compare_gt_iff in Hc;
    try destruct (Z.even q); split; lia.
Qed.

(** The number printed is the percentage rounded to one decimal: it is
    within a twentieth of the float's value. *)
Lemma shownTenths_near (m : positive) (e : Z) :
  (Qabs ((tenths m e # 10) - F32.to_Q (S754_finite false m e)) <= 1 # 20)%Q.
Proof.
  unfold F32.to_Q, tenths. cbn [cond_Zopp].
  destruct e as [|p|k].
  - unfold Qle, Qabs, Qminus, Qplus, Qopp, inject_Z. cbn [Qnum Qden].
    rewrite Z.pow_0_r.
    replace (10 * Zpos m * 1 + - (Zpos m * 1) * 10) with 0 by lia.
    cbn. lia.
  - unfold Qle, Qabs, Qminus, Qplus, Qopp, inject_Z. cbn [Qnum Qden].
    replace (10 * Zpos m * 2 ^ Zpos p * 1 + - (Zpos m * 2 ^ Zpos p) * 10)
      with 0 by lia.
    cbn. lia.
  - destruct (round_half_even_shift_near (10 * Zpos m) k ltac:(lia))
      as [H0 Hnear].
    unfold Qle, Qabs, Qminus, Qplus, Qopp. cbn [Qnum Qden].
    rewrite Pos2Z.inj_mul, Pos2Z.inj_pow.
    replace (round_half_even_shift (10 * Zpos m) k * 2 ^ Zpos k
             + - Zpos m * 10)
      with (round_half_even_shift (10 * Zpos m) k * 2 ^ Zpos k
            - 10 * Zpos m) by lia.
    lia.
Qed.

Lemma show_fixed1_tenths (x : float) :
  x <> S754_nan -> F32.is_inf x = false ->
  show_fixed1 x = sign_text (signbit x) ++ show_tenths (shownTenths x).
Proof.
  destruct x as [s | s | | s m e]; intros Hn Hi;
    try discriminate; try reflexivity.
  contradiction.
Qed.

(** A float in [0,100] is a zero or a positive float of exponent at most
    [-17] and mantissa at most [100 * 2^-e]. *)
Lemma percent_range (percent : float) :
  F32.valid percent = true ->
  F32.leb F32.zero percent = true ->
  F32.leb percent F32.f100 = true ->
  (exists s, percent = S754_zero s)
  \/ (exists (m : positive) (k : positive),
         percent = S754_finite false m (Zneg k)
         /\ 17 <= Zpos k /\ Zpos m <= 100 * 2 ^ Zpos k).
Proof.
  intros Hv H0 H100.
  destruct percent as [s | s | | s m e]; try discriminate.
  - left. now exists s.
  - destruct s; discriminate.
  - right. destruct s; [discriminate |].
    unfold F32.valid, valid_binary, bounded, canonical_mantissa in Hv.
    apply andb_prop in Hv. destruct Hv as [Hc _].
    apply Z.eqb_eq in Hc.
    pose proof (digits2_pos_spec m) as [_ Hhi].
    unfold F32.leb, SFleb, F32.f100 in H100. cbn [SFcompare] in H100.
    rewrite Pos.compare_cont_spec in H100. cbn [Pos.switch_Eq] in H100.
    destruct (e ?= -17) eqn:He;
      rewrite ?Z.compare_eq_iff, ?Z.compare_lt_iff, ?Z.compare_gt_iff in He;
      try discriminate.
    + subst e. exists m, 17%positive. split; [reflexivity | split; [lia |]].
      assert (Hm : (m <= 13107200)%positive).
      { unfold Pos.le. intros Hgt. rewrite Hgt in H100. discriminate H100. }
      change (100 * 2 ^ 17) with (Zpos 13107200).
      now apply Pos2Z.pos_le_pos.
    + destruct e as [|p|k]; try lia.
      exists m, k. split; [reflexivity | split; [lia |]].
      assert (Hd : Zpos (digits2_pos m) <= 24)
        by (unfold fexp, emin, F32.prec, F32.emax in Hc; lia).
      assert (2 ^ Zpos (digits2_pos m) <= 2 ^ 24)
        by (apply Z.pow_le_mono_r; lia).
      assert (2 ^ 18 <= 2 ^ Zpos k) by (apply Z.pow_le_mono_r; lia).
      change (2 ^ 18) with 262144 in *. change (2 ^ 24) with 16777216 in *.
      lia.
Qed.

(** For a non-negative float between two integers, the conversion to
    [int] is the floor and lies between them. *)
Lemma between_to_int (L H : Z) (x : float) :
  0 <= L <= H -> H < 2 ^ 31 -> between false 0 L H x ->
  F32.to_int x = F32.floor x /\ L <= F32.floor x <= H.
Proof.
  intros HL HH Hx.
  destruct x as [sx | sx | | sx m e]; cbn [between] in Hx;
    try contradiction.
  - destruct Hx as [_ HL0]. cbn. lia.
  - destruct Hx as (-> & He & Hlo & Hhi).
    unfold F32.to_int, F32.trunc, F32.floor. cbn [cond_Zopp].
    destruct e as [|k|k]; try lia.
    + cbn in Hlo, Hhi. rewrite Z.mul_1_r in Hlo, Hhi.
      replace ((INT_MIN <=? Zpos m) && (Zpos m <=? INT_MAX)) with true.
      * split; lia.
      * symmetry. apply andb_true_intro.
        split; apply Z.leb_le; unfold INT_MIN, INT_MAX; lia.
    + cbn [Z.sub Z.opp Z.add] in Hlo, Hhi. rewrite Z.shiftr_div_pow2 by lia.
      assert (Hp : 0 < 2 ^ Zpos k) by (apply Z.pow_pos_nonneg; lia).
      assert (Hq : L <= Zpos m / 2 ^ Zpos k <= H).
      { split; [apply Z.div_le_lower_bound; lia |].
        apply Z.div_le_upper_bound; [lia | nia]. }
      replace ((INT_MIN <=? Zpos m / 2 ^ Zpos k)
               && (Zpos m / 2 ^ Zpos k <=? INT_MAX)) with true.
      * split; lia.
      * symmetry. apply andb_true_intro.
        split; apply Z.leb_le; unfold INT_MIN, INT_MAX; lia.
Qed.

(** The quotient [percent * width / 100] of the source, in single
    precision, lies between the floor [L] of the exact quotient and
    [min (L + 1) width]. *)
Lemma barQuotient_between (m k : positive) (width : Z) :
  17 <= Zpos k -> Zpos m <= 100 * 2 ^ Zpos k ->
  0 < width -> 100 * width < 2 ^ 24 ->
  let L := Zpos m * width / (100 * 2 ^ Zpos k) in
  0 <= L
  /\ between false 0 L (Z.min (L + 1) width)
       (F32.div (F32.mul (S754_finite false m (Zneg k)) (F32.of_Z width))
                (F32.of_Z 100)).
Proof.
  intros Hk Hm Hw Hww L.
  assert (Hp : 0 < 2 ^ Zpos k) by (apply Z.pow_pos_nonneg; lia).
  assert (HD : 0 < 100 * 2 ^ Zpos k) by lia.
  pose proof (Z.mul_div_le (Zpos m * width) _ HD) as HLlo. fold L in HLlo.
  pose proof (Z.mul_succ_div_gt (Zpos m * width) _ HD) as HLhi.
  fold L in HLhi.
  assert (HL0 : 0 <= L) by (apply Z.div_pos; nia).
  assert (HLw : L <= width)
    by (apply Z.div_le_upper_bound; [lia | nia]).
  set (H := Z.min (L + 1) width).
  assert (HH : Zpos m * width <= 100 * 2 ^ Zpos k * H)
    by (unfold H; destruct (Z.min_spec (L + 1) width) as [[_ ->] | [_ ->]]; nia).
  split; [exact HL0 |].
  pose proof (of_Z_between width ltac:(lia)) as Hwf.
  destruct (F32.of_Z width) as [sw | sw | | sw mw ew]; cbn [between] in Hwf;
    try contradiction; [lia |].
  destruct Hwf as (-> & Hew & Hmw1 & Hmw2).
  rewrite Z.sub_0_l in Hmw1, Hmw2.
  assert (Hpw : 0 < 2 ^ (- ew)) by (apply Z.pow_pos_nonneg; lia).
  assert (Ha : between false 0 (100 * L) (100 * H)
                 (F32.mul (S754_finite false m (Zneg k))
                          (S754_finite false mw ew))).
  { apply mul_between; try lia.
    replace (0 - (Zneg k + ew)) with (Zpos k + - ew) by lia.
    rewrite Z.pow_add_r by lia.
    replace (Zpos mw) with (width * 2 ^ (- ew)) by lia.
    fold H. split.
    - replace (100 * L * (2 ^ Zpos k * 2 ^ (- ew)))
        with ((100 * 2 ^ Zpos k * L) * 2 ^ (- ew)) by ring.
      replace (Zpos m * (width * 2 ^ (- ew)))
        with ((Zpos m * width) * 2 ^ (- ew)) by ring.
      apply Z.mul_le_mono_nonneg_r; lia.
    - replace (100 * H * (2 ^ Zpos k * 2 ^ (- ew)))
        with ((100 * 2 ^ Zpos k * H) * 2 ^ (- ew)) by ring.
      replace (Zpos m * (width * 2 ^ (- ew)))
        with ((Zpos m * width) * 2 ^ (- ew)) by ring.
      apply Z.mul_le_mono_nonneg_r; lia. }
  change (F32.of_Z 100) with (S754_finite false 13107200 (-17)).
  destruct (F32.mul (S754_finite false m (Zneg k)) (S754_finite false mw ew))
    as [sa | sa | | sa ma ea]; cbn [between] in Ha; try contradiction.
  - destruct Ha as [-> Ha]. cbn. split; [reflexivity | lia].
  - destruct Ha as (-> & Hea & Hma1 & Hma2).
    rewrite Z.sub_0_l in Hma1, Hma2.
    apply (div_between ma 13107200 ea (-17) 100 0 L H);
      try lia; reflexivity.
Qed.

Lemma exactCells_finite (m k : positive) (width : Z) :
  exactCells (S754_finite false m (Zneg k)) width
  = Zpos m * width / (100 * 2 ^ Zpos k).
Proof.
  unfold exactCells, F32.to_Q, Qdiv, Qmult, Qinv, inject_Z, Qfloor.
  cbn [cond_Zopp Qnum Qden].
  rewrite !Pos2Z.inj_mul, Pos2Z.inj_pow.
  f_equal; lia.
Qed.

(** C3, counterexample.  The count of cells is not the floor of
    [percent * width / 100] in exact arithmetic: at the float
    96.66666412353516 and the default width 30, the single-precision
    product rounds up to 2900 and the bar has 29 cells of the used portion,
    where the exact quotient 28.9999992... has floor 28.  Nor does the
    single-precision reading hold for every positive width: at 100 percent
    and width 16777219 the quotient is 16777220, more than the bar has
    cells. *)
Lemma drawProgressBar_filled_cells_not_exact :
  (F32.valid percent_below_29_30 = true
   /\ F32.leb F32.zero percent_below_29_30 = true
   /\ F32.leb percent_below_29_30 F32.f100 = true
   /\ drawProgressBar percent_below_29_30 30 false
      = "[" ++ cells (filled_cell RED) 29 ++ cells empty_cell 1
            ++ "] " ++ "96.7" ++ "%"
   /\ exactCells percent_below_29_30 30 = 28)
  /\ (barPos F32.f100 16777219 = 16777220
      /\ F32.floor (F32.div (F32.mul F32.f100 (F32.of_Z 16777219))
                            (F32.of_Z 100)) = 16777220
      /\ Z.min (Z.max (barPos F32.f100 16777219) 0) 16777219 = 16777219).
Proof.
  split.
  - repeat split; vm_compute; reflexivity.
  - repeat split; vm_compute; reflexivity.
Qed.

(** C3, amended.  For a float [percent] in [0,100] and a positive [width]
    with [100 * width] below [2^24] (so that the product for 100 percent
    is exact in single precision), the bar has exactly [floor v] cells of
    the used portion and the other cells are grey, where [v] is the
    quotient [percent * width / 100] as the source computes it, the
    product and the quotient each rounded to single precision.  This is
    the floor of the exact quotient or, when the rounding reaches the next
    integer, one more, and never more than [width].  The number printed
    after the bar is [percent] rounded to one decimal: so many tenths,
    within a twentieth of the value of [percent]. *)
Theorem drawProgressBar_filled_cells :
  forall (percent : float) (width : Z) (invertColors : bool),
    F32.valid percent = true ->
    F32.leb F32.zero percent = true ->
    F32.leb percent F32.f100 = true ->
    0 < width -> 100 * width < 2 ^ 24 ->
    let v := F32.div (F32.mul percent (F32.of_Z width)) (F32.of_Z 100) in
    let k := F32.floor v in
    0 <= k <= width
    /\ exactCells percent width <= k <= exactCells percent width + 1
    /\ drawProgressBar percent width invertColors
       = "[" ++ cells (filled_cell (barColor percent invertColors)) (Z.to_nat k)
             ++ cells empty_cell (Z.to_nat (width - k))
             ++ "] " ++ sign_text (signbit percent)
             ++ show_tenths (shownTenths percent) ++ "%"
    /\ (Qabs ((shownTenths percent # 10) - F32.to_Q percent) <= 1 # 20)%Q.
Proof.
  intros percent width invertColors Hv H0 H100 Hw Hww v k.
  assert (Hq : F32.to_int v = k
               /\ exactCells percent width <= k
               /\ k <= Z.min (exactCells percent width + 1) width
               /\ 0 <= exactCells percent width).
  { destruct (percent_range percent Hv H0 H100)
      as [[s ->] | (m & e & -> & He & Hm)].
    - assert (Hz : v = S754_zero s).
      { subst v. pose proof (of_Z_between width ltac:(lia)) as Hwf.
        destruct (F32.of_Z width) as [sw | sw | | sw mw ew];
          cbn [between] in Hwf; try contradiction; [lia |].
        destruct Hwf as (-> & _). destruct s; reflexivity. }
      subst k. rewrite Hz. cbn. lia.
    - destruct (barQuotient_between m e width He Hm Hw Hww) as [HL0 Hb].
      cbv zeta in Hb. rewrite <- exactCells_finite in Hb, HL0.
      fold v in Hb.
      assert (HLw : exactCells (S754_finite false m (Zneg e)) width <= width).
      { rewrite exactCells_finite.
        assert (0 < 2 ^ Zpos e) by (apply Z.pow_pos_nonneg; lia).
        apply Z.div_le_upper_bound; [lia | nia]. }
      set (L := exactCells (S754_finite false m (Zneg e)) width) in *.
      destruct (between_to_int L (Z.min (L + 1) width) v
                  ltac:(lia) ltac:(lia) Hb) as [Hint Hk].
      fold k in Hint, Hk. lia. }
  destruct Hq as (Hint & Hk1 & Hk2 & Hk0).
  assert (Hfin : percent <> S754_nan /\ F32.is_inf percent = false).
  { destruct percent as [s | s | | s m e]; try discriminate;
      split; try reflexivity; try discriminate.
    destruct s; discriminate. }
  split; [lia | split; [lia | split]].
  - unfold drawProgressBar. unfold barPos. fold v. rewrite Hint.
    rewrite barLoop_cells.
    replace (filledCount k 0 (Z.to_nat width)) with (Z.to_nat k)
      by (unfold filledCount; rewrite Z2Nat.id by lia; f_equal; lia).
    replace (Z.to_nat width - Z.to_nat k)%nat with (Z.to_nat (width - k))
      by lia.
    rewrite (show_fixed1_tenths percent) by tauto.
    cbn [append]. now rewrite !append_assoc.
  - destruct percent as [s | s | | s m e]; try discriminate.
    destruct s; [discriminate |]. apply shownTenths_near.
Qed.

(** A battery at 59.9 percent on the bar of width 40: 23 cells. *)
Lemma drawProgressBar_filled_cells_witness :
  F32.valid (F32.of_tenths 599) = true
  /\ F32.leb F32.zero (F32.of_tenths 599) = true
  /\ F32.leb (F32.of_tenths 599) F32.f100 = true
  /\ 0 < 40 /\ 100 * 40 < 2 ^ 24
  /\ drawProgressBar (F32.of_tenths 599) 40 false
     = "[" ++ cells (filled_cell GREEN) 23 ++ cells empty_cell 17
           ++ "] " ++ "59.9" ++ "%".
Proof.
  repeat (split; [reflexivity || lia |]).
  destruct (drawProgressBar_filled_cells (F32.of_tenths 599) 40 false
              eq_refl eq_refl eq_refl ltac:(lia) ltac:(lia))
    as (_ & _ & H & _).
  exact H.
Defined.
(** ** Accuracy of the usage *)

(** The usage of a step with [busy] busy jiffies out of [total]
    ([100 * total < 2^24]) lies between the two multiples of [2^-17] that
    enclose the exact percentage. *)
Lemma usage_between (busy total : Z) :
  0 <= busy <= total -> 0 < total -> 100 * total < 2 ^ 24 ->
  let L := 100 * busy * 2 ^ 17 / total in
  0 <= L
  /\ between false (-17) L (L + 1)
       (F32.div (F32.mul F32.f100 (F32.of_Z busy)) (F32.of_Z total)).
Proof.
  intros Hb Ht Htt L.
  pose proof (Z.mul_div_le (100 * busy * 2 ^ 17) total Ht) as HLlo.
  pose proof (Z.mul_succ_div_gt (100 * busy * 2 ^ 17) total Ht) as HLhi.
  fold L in HLlo, HLhi.
  assert (HL0 : 0 <= L) by (apply Z.div_pos; lia).
  assert (HL1 : L <= 100 * 2 ^ 17).
  { apply Z.div_le_upper_bound; [lia |].
    change (2 ^ 17) with 131072. nia. }
  split; [exact HL0 |].
  pose proof (of_Z_between total ltac:(lia)) as Htf.
  destruct (F32.of_Z total) as [st | st | | st mt et]; cbn [between] in Htf;
    try contradiction; [lia |].
  destruct Htf as (-> & Het & Hmt1 & Hmt2).
  rewrite Z.sub_0_l in Hmt1, Hmt2.
  assert (Hmt : Zpos mt = total * 2 ^ (- et)) by lia.
  pose proof (of_Z_between busy ltac:(lia)) as Hbf.
  destruct (F32.of_Z busy) as [sb | sb | | sb mb eb]; cbn [between] in Hbf;
    try contradiction.
  - destruct Hbf as [-> Hb0].
    assert (busy = 0) by lia. subst busy.
    cbn. split; [reflexivity |]. unfold L. cbn. lia.
  - destruct Hbf as (-> & Heb & Hmb1 & Hmb2).
    rewrite Z.sub_0_l in Hmb1, Hmb2.
    assert (Hpb : 0 < 2 ^ (- eb)) by (apply Z.pow_pos_nonneg; lia).
    assert (Ha : between false 0 (100 * busy) (100 * busy)
                   (F32.mul F32.f100 (S754_finite false mb eb))).
    { unfold F32.f100. apply mul_between; try lia.
      replace (0 - (-17 + eb)) with (17 + - eb) by lia.
      rewrite Z.pow_add_r by lia.
      change (Zpos 13107200) with (100 * 2 ^ 17).
      replace (Zpos mb) with (busy * 2 ^ (- eb)) by lia.
      split; apply Z.eq_le_incl; ring. }
    destruct (F32.mul F32.f100 (S754_finite false mb eb))
      as [sa | sa | | sa ma ea]; cbn [between] in Ha; try contradiction.
    + destruct Ha as [-> Ha]. assert (busy = 0) by lia. subst busy.
      cbn. split; [reflexivity |]. unfold L. cbn. lia.
    + destruct Ha as (-> & Hea & Hma1 & Hma2).
      rewrite Z.sub_0_l in Hma1, Hma2.
      assert (Hpa : 0 < 2 ^ (- ea)) by (apply Z.pow_pos_nonneg; lia).
      apply (div_between ma mt ea et total (-17) L (L + 1));
        try lia; try assumption.
      * replace (Zpos ma) with (100 * busy * 2 ^ (- ea)) by lia.
        change (- -17) with 17.
        replace (100 * busy * 2 ^ (- ea) * 2 ^ 17)
          with (100 * busy * 2 ^ 17 * 2 ^ (- ea)) by ring.
        apply Z.mul_le_mono_nonneg_r; lia.
      * replace (Zpos ma) with (100 * busy * 2 ^ (- ea)) by lia.
        change (- -17) with 17.
        replace (100 * busy * 2 ^ (- ea) * 2 ^ 17)
          with (100 * busy * 2 ^ 17 * 2 ^ (- ea)) by ring.
        apply Z.mul_le_mono_nonneg_r; lia.
Qed.

(** The value of a float between [Lo * 2^-17] and [Hi * 2^-17]. *)
Lemma between_to_Q (Lo Hi : Z) (x : float) :
  0 <= Hi -> between false (-17) Lo Hi x ->
  (Lo # 131072 <= F32.to_Q x <= Hi # 131072)%Q.
Proof.
  intros HHi Hx.
  destruct x as [sx | sx | | sx m e]; cbn [between] in Hx;
    try contradiction.
  - destruct Hx as [_ HLo]. unfold Qle. cbn. lia.
  - destruct Hx as (-> & He & Hlo & Hhi).
    destruct e as [|p|k]; try lia.
    unfold F32.to_Q, Qle. cbn [cond_Zopp Qnum Qden].
    rewrite Pos2Z.inj_pow.
    replace (-17 - Zneg k) with (Zpos k - 17) in Hlo, Hhi by lia.
    assert (Hsplit : 2 ^ Zpos k = 2 ^ (Zpos k - 17) * 131072).
    { change 131072 with (2 ^ 17). rewrite <- Z.pow_add_r by lia.
      f_equal. lia. }
    rewrite Hsplit. nia.
Qed.

(** Two numbers in the same interval of length [2^-17] are within
    [2^-17] of each other. *)
Lemma Qabs_same_cell (a c : Q) (L : Z) :
  (L # 131072 <= a <= L + 1 # 131072)%Q ->
  (L # 131072 <= c <= L + 1 # 131072)%Q ->
  (Qabs (a - c) <= 1 # 131072)%Q.
Proof.
  intros [Ha1 Ha2] [Hc1 Hc2].
  assert (He : (L + 1 # 131072 == (L # 131072) + (1 # 131072))%Q)
    by (symmetry; apply Qinv_plus_distr).
  rewrite He in Ha2, Hc2.
  apply Qabs_Qle_condition. split; lra.
Qed.

(** With [deltaIdle] within [deltaTotal] and [100 * deltaTotal] below
    [2^24], the usage is within [2^-17] of the exact percentage. *)
Lemma usageOf_accurate (deltaIdle deltaTotal : Z) :
  0 <= deltaIdle <= deltaTotal -> 0 < deltaTotal ->
  100 * deltaTotal < 2 ^ 24 ->
  (Qabs (F32.to_Q (usageOf deltaIdle deltaTotal)
         - inject_Z (100 * (deltaTotal - deltaIdle)) / inject_Z deltaTotal)
   <= 1 # 131072)%Q.
Proof.
  intros Hi Ht Htt. unfold usageOf.
  destruct (Z.eqb_spec deltaTotal 0) as [H0 | _]; [lia |].
  destruct (usage_between (deltaTotal - deltaIdle) deltaTotal
              ltac:(lia) Ht Htt) as [HL0 Hb].
  cbv zeta in Hb, HL0.
  set (L := 100 * (deltaTotal - deltaIdle) * 2 ^ 17 / deltaTotal) in *.
  apply between_to_Q in Hb; [| lia].
  apply (Qabs_same_cell _ _ L Hb).
  pose proof (Z.mul_div_le (100 * (deltaTotal - deltaIdle) * 2 ^ 17)
                deltaTotal Ht) as HLlo.
  pose proof (Z.mul_succ_div_gt (100 * (deltaTotal - deltaIdle) * 2 ^ 17)
                deltaTotal Ht) as HLhi.
  fold L in HLlo, HLhi. change (2 ^ 17) with 131072 in HLlo, HLhi.
  destruct deltaTotal as [|t|t]; try lia.
  unfold Qle, Qdiv, Qmult, Qinv, inject_Z. cbn [Qnum Qden].
  rewrite !Pos2Z.inj_mul. split; lia.
Qed.
(** ** CPU sampler *)

Lemma wrap64_id (z : Z) : in_long z -> wrap64 z = z.
Proof.
  unfold in_long, LONG_MIN, LONG_MAX, wrap64. intros H.
  rewrite Z.mod_small; lia.
Qed.

Lemma jiffies_ok_bounds (s : cpu_sample) :
  jiffies_ok s ->
  (0 <= user s < 2 ^ 60) /\ (0 <= nice s < 2 ^ 60)
  /\ (0 <= system s < 2 ^ 60) /\ (0 <= idle s < 2 ^ 60)
  /\ (0 <= iowait s < 2 ^ 60) /\ (0 <= irq s < 2 ^ 60)
  /\ (0 <= softirq s < 2 ^ 60).
Proof.
  unfold jiffies_ok, counters. intros H.
  repeat match goal with
         | H : Forall _ (_ :: _) |- _ => inversion H; subst; clear H
         end.
  repeat split; lia.
Qed.

Lemma idleTimeOf_exact (s : cpu_sample) :
  jiffies_ok s -> idleTimeOf s = idleTime s.
Proof.
  intros H. apply jiffies_ok_bounds in H.
  unfold idleTimeOf, idleTime, add64.
  apply wrap64_id. unfold in_long, LONG_MIN, LONG_MAX. lia.
Qed.

Lemma totalTimeOf_exact (s : cpu_sample) :
  jiffies_ok s -> totalTimeOf s = totalTime s.
Proof.
  intros H. pose proof (idleTimeOf_exact s H) as Hi.
  apply jiffies_ok_bounds in H.
  unfold totalTimeOf, totalTime, add64. rewrite Hi. unfold idleTime.
  assert (Hw : forall z, 0 <= z < 7 * 2 ^ 60 -> wrap64 z = z).
  { intros z Hz. apply wrap64_id. unfold in_long, LONG_MIN, LONG_MAX. lia. }
  rewrite (Hw (user s + nice s)) by lia.
  rewrite (Hw (user s + nice s + system s)) by lia.
  rewrite (Hw (user s + nice s + system s + (idle s + iowait s))) by lia.
  rewrite (Hw (user s + nice s + system s + (idle s + iowait s) + irq s))
    by lia.
  rewrite Hw by lia. lia.
Qed.

Lemma totals_bounds (s : cpu_sample) :
  jiffies_ok s ->
  0 <= idleTime s <= totalTime s /\ totalTime s < 7 * 2 ^ 60.
Proof.
  intros H. apply jiffies_ok_bounds in H. unfold idleTime, totalTime. lia.
Qed.

Lemma cpuUsage_exact (s1 s2 : cpu_sample) :
  jiffies_ok s1 -> jiffies_ok s2 ->
  cpuUsage (cpuNext s1) s2
  = usageOf (idleTime s2 - idleTime s1) (totalTime s2 - totalTime s1).
Proof.
  intros H1 H2. unfold cpuUsage, cpuNext, usageOf. cbn [prevIdle prevTotal].
  rewrite !idleTimeOf_exact, !totalTimeOf_exact by assumption.
  pose proof (totals_bounds s1 H1). pose proof (totals_bounds s2 H2).
  unfold sub64.
  rewrite (wrap64_id (idleTime s2 - idleTime s1))
    by (unfold in_long, LONG_MIN, LONG_MAX; lia).
  rewrite (wrap64_id (totalTime s2 - totalTime s1))
    by (unfold in_long, LONG_MIN, LONG_MAX; lia).
  rewrite wrap64_id by (unfold in_long, LONG_MIN, LONG_MAX; lia).
  reflexivity.
Qed.

Lemma cpuRun_consecutive (pre post : list cpu_sample) (s1 s2 : cpu_sample) :
  forall st,
    nth_error (cpuRun st (pre ++ s1 :: s2 :: post)) (S (List.length pre))
    = Some (cpuUsage (cpuNext s1) s2).
Proof.
  induction pre as [|s pre IH]; intros st.
  - reflexivity.
  - cbn [app cpuRun List.length nth_error]. apply IH.
Qed.

(** What [showCPU] prints starts with the bar of the usage it computed, and
    it leaves the sample's totals in its statics. *)
Lemma showCPU_reports_usage (indet : Z) (env : Env) (st : cpu_state)
      (s : cpu_sample) :
  showCPU indet env st s = None
  \/ exists tail : string,
      showCPU indet env st s
      = Some (cpuNext s,
              drawTitle "CPU" ++ "Usage: "
                ++ drawProgressBar (cpuUsage st s) 40 false ++ NL ++ tail).
Proof.
  unfold showCPU.
  destruct (readFanRPM indet env) as [fanRPM |]; [right | left; reflexivity].
  eexists. reflexivity.
Qed.

(** C1.  For two consecutive samples anywhere in a run of [showCPU],
    [idleTime = idle + iowait], [totalTime] is the sum of the seven
    counters, and the usage reported for the second sample is
    [100 * (deltaTotal - deltaIdle) / deltaTotal], evaluated in single
    precision as the source writes it, with the deltas taken against the
    first sample's [idleTime] and [totalTime]; it is zero when
    [deltaTotal = 0].  When the idle part is within the total and
    [100 * deltaTotal] is below [2^24], the float is within [2^-17] of the
    exact percentage.  For samples of idle 100 of 200 and then idle 150 of
    400 the usage is exactly 75 and prints as 75.0. *)
Theorem showCPU_usage_formula :
  forall (st0 : cpu_state) (pre post : list cpu_sample) (s1 s2 : cpu_sample),
    jiffies_ok s1 -> jiffies_ok s2 ->
    let deltaIdle := idleTime s2 - idleTime s1 in
    let deltaTotal := totalTime s2 - totalTime s1 in
    idleTimeOf s2 = idle s2 + iowait s2
    /\ totalTimeOf s2
       = user s2 + nice s2 + system s2 + idle s2 + iowait s2 + irq s2
         + softirq s2
    /\ nth_error (cpuRun st0 (pre ++ s1 :: s2 :: post)) (S (List.length pre))
       = Some (usageOf deltaIdle deltaTotal)
    /\ (deltaTotal = 0 -> usageOf deltaIdle deltaTotal = F32.zero)
    /\ (deltaTotal <> 0 ->
        usageOf deltaIdle deltaTotal
        = F32.div (F32.mul F32.f100 (F32.of_Z (deltaTotal - deltaIdle)))
                  (F32.of_Z deltaTotal))
    /\ (idleTime s1 = 100 -> totalTime s1 = 200 ->
        idleTime s2 = 150 -> totalTime s2 = 400 ->
        usageOf deltaIdle deltaTotal = F32.f75
        /\ show_fixed1 (usageOf deltaIdle deltaTotal) = "75.0")
    /\ (0 <= deltaIdle <= deltaTotal -> 0 < deltaTotal ->
        100 * deltaTotal < 2 ^ 24 ->
        (Qabs (F32.to_Q (usageOf deltaIdle deltaTotal)
               - inject_Z (100 * (deltaTotal - deltaIdle))
                 / inject_Z deltaTotal)
         <= 1 # 131072)%Q)
    /\ (forall indet env,
           showCPU indet env (cpuNext s1) s2 = None
           \/ exists tail : string,
               showCPU indet env (cpuNext s1) s2
               = Some (cpuNext s2,
                       drawTitle "CPU" ++ "Usage: "
                         ++ drawProgressBar (usageOf deltaIdle deltaTotal)
                              40 false
                         ++ NL ++ tail)).
Proof.
  intros st0 pre post s1 s2 H1 H2 deltaIdle deltaTotal.
  split; [exact (idleTimeOf_exact s2 H2) |].
  split; [exact (totalTimeOf_exact s2 H2) |].
  split.
  - rewrite cpuRun_consecutive. f_equal. now apply cpuUsage_exact.
  - split; [| split; [| split; [| split]]].
    + intros H0. unfold usageOf. now rewrite H0.
    + intros Hne. unfold usageOf.
      destruct (Z.eqb_spec deltaTotal 0); [contradiction | reflexivity].
    + intros Ha Hb Hc Hd. unfold deltaIdle, deltaTotal.
      rewrite Ha, Hb, Hc, Hd. split; reflexivity.
    + apply usageOf_accurate.
    + intros indet env. unfold deltaIdle, deltaTotal.
      rewrite <- (cpuUsage_exact s1 s2 H1 H2).
      apply showCPU_reports_usage.
Qed.

(** The two synthetic samples of the specification, run from start-up. *)
Lemma showCPU_usage_formula_witness :
  jiffies_ok sampleA /\ jiffies_ok sampleB
  /\ nth_error (cpuRun cpu_init ([] ++ sampleA :: sampleB :: [])) 1
     = Some F32.f75.
Proof.
  assert (HA : jiffies_ok sampleA)
    by (unfold jiffies_ok, counters, sampleA; cbn; repeat constructor; lia).
  assert (HB : jiffies_ok sampleB)
    by (unfold jiffies_ok, counters, sampleB; cbn; repeat constructor; lia).
  split; [exact HA | split; [exact HB |]].
  destruct (showCPU_usage_formula cpu_init [] [] sampleA sampleB HA HB)
    as (_ & _ & H & _).
  exact H.
Defined.
(** C2, counterexample.  From start-up, a first sample of idle 100 of 200
    is reported as 50.0%, not 0%. *)
Lemma first_sample_usage_not_zero :
  nth_error (cpuRun cpu_init [sampleA]) 0 = Some (F32.of_Z 50)
  /\ show_fixed1 (cpuUsage cpu_init sampleA) = "50.0"
  /\ cpuUsage cpu_init sampleA <> F32.zero.
Proof.
  split; [reflexivity | split; [reflexivity |]].
  intros H. vm_compute in H. discriminate H.
Qed.

(** C2, amended.  On the first sample after start-up the previous counters
    are zero, so the deltas are the sample's own [idleTime] and [totalTime]:
    the usage reported is [100 * (totalTime - idleTime) / totalTime], the
    average since boot, and it is the guard's zero when [totalTime = 0]. *)
Theorem showCPU_first_sample :
  forall s : cpu_sample,
    jiffies_ok s ->
    cpuUsage cpu_init s = usageOf (idleTime s) (totalTime s)
    /\ (totalTime s = 0 -> cpuUsage cpu_init s = F32.zero)
    /\ (totalTime s <> 0 ->
        cpuUsage cpu_init s
        = F32.div (F32.mul F32.f100 (F32.of_Z (totalTime s - idleTime s)))
                  (F32.of_Z (totalTime s))).
Proof.
  intros s Hs.
  assert (H : cpuUsage cpu_init s = usageOf (idleTime s) (totalTime s)).
  { unfold cpuUsage, cpu_init, usageOf. cbn [prevIdle prevTotal].
    rewrite idleTimeOf_exact, totalTimeOf_exact by assumption.
    pose proof (totals_bounds s Hs).
    unfold sub64. rewrite !Z.sub_0_r.
    rewrite (wrap64_id (idleTime s))
      by (unfold in_long, LONG_MIN, LONG_MAX; lia).
    rewrite (wrap64_id (totalTime s))
      by (unfold in_long, LONG_MIN, LONG_MAX; lia).
    rewrite wrap64_id by (unfold in_long, LONG_MIN, LONG_MAX; lia).
    reflexivity. }
  rewrite H. unfold usageOf. split; [reflexivity | split].
  - intros H0. now rewrite H0.
  - intros Hne. destruct (Z.eqb_spec (totalTime s) 0);
      [contradiction | reflexivity].
Qed.

Lemma showCPU_first_sample_witness :
  jiffies_ok sampleA
  /\ cpuUsage cpu_init sampleA = usageOf 100 200.
Proof.
  assert (HA : jiffies_ok sampleA)
    by (unfold jiffies_ok, counters, sampleA; cbn; repeat constructor; lia).
  split; [exact HA |].
  destruct (showCPU_first_sample sampleA HA) as [H _].
  exact H.
Defined.
(** ** Memory and disk percentages *)

Lemma div_by_zero (x : float) (s : bool) :
  nan_or_inf (F32.div x (S754_zero s)) = true.
Proof. destruct x as [sx | sx | | sx mx ex]; reflexivity. Qed.

(** C5.  Neither percentage guards its division.  When [memTotal] reads
    as zero the memory percentage is a float division by zero, whose
    result is a NaN or an infinity, and so is the disk percentage when the
    total capacity is zero.  Both are reached: a missing [/proc/meminfo]
    leaves [memTotal = 0] and draws the bar of a NaN, and a mount of no
    blocks, such as [/proc], is reported with a NaN percentage. *)
Theorem percent_division_unguarded :
  (forall memAvailable : Z,
      F32.of_Z 0 = S754_zero false
      /\ memPercent 0 memAvailable
         = F32.div (F32.mul F32.f100 (F32.of_Z (sub64 0 memAvailable)))
                   (S754_zero false)
      /\ nan_or_inf (memPercent 0 memAvailable) = true)
  /\ (forall st : statvfs_t,
         diskTotal st = 0 ->
         diskPercent st
         = F32.div (F32.mul F32.f100 (F32.of_Z (diskUsed st)))
                   (S754_zero false)
         /\ nan_or_inf (diskPercent st) = true)
  /\ (forall env : Env,
         open_file env "/proc/meminfo" = None ->
         showMemory env
         = Some (drawTitle "Memory"
                   ++ "Used: 0 MB / 0 MB" ++ NL
                   ++ drawProgressBar (memPercent 0 0) 40 false
                   ++ NL ++ NL)
         /\ memPercent 0 0 = S754_nan)
  /\ (forall env : Env,
         statvfs env "/proc" = Some statvfs_proc ->
         diskEntry env "proc /proc proc rw,nosuid,nodev,noexec 0 0"
         = Reported ("/proc: 0 MB / 0 MB ("
                       ++ show_fixed1 (diskPercent statvfs_proc) ++ "%)" ++ NL)
         /\ diskPercent statvfs_proc = S754_nan).
Proof.
  split; [| split; [| split]].
  - intros memAvailable.
    split; [reflexivity |]. split; [reflexivity |].
    unfold memPercent. apply div_by_zero.
  - intros st H0. unfold diskPercent. rewrite H0.
    split; [reflexivity | apply div_by_zero].
  - intros env Hopen. unfold showMemory. rewrite Hopen.
    split; reflexivity.
  - intros env Hstat. unfold diskEntry.
    change (mountpointOf _) with "/proc".
    change (skipMount "/proc") with false. cbv iota.
    rewrite Hstat. split; reflexivity.
Qed.
(** ** Disk sampler: the mount filter *)

Lemma prefix_iff (a b : string) :
  prefix a b = true <-> exists post : string, b = a ++ post.
Proof.
  revert b. induction a as [|x a IH]; intros b.
  - destruct b; simpl; split; intros _; eauto.
  - destruct b as [|y b]; simpl.
    + split; [discriminate | intros [post H]; discriminate].
    + destruct (ascii_dec x y) as [-> | Hne].
      * rewrite IH. split; intros [post H]; exists post.
        -- now rewrite H.
        -- now inversion H.
      * split; [discriminate |].
        intros [post H]. inversion H. congruence.
Qed.

Lemma find_contains (needle hay : string) :
  found (find needle hay) = true <-> contains hay needle.
Proof.
  split.
  - induction hay as [|c t IH]; cbn [find].
    + destruct (prefix needle "") eqn:Hp; [| discriminate].
      intros _. apply prefix_iff in Hp. destruct Hp as [post Hp].
      exists "", post. exact Hp.
    + destruct (prefix needle (String c t)) eqn:Hp.
      * intros _. apply prefix_iff in Hp. destruct Hp as [post Hp].
        exists "", post. exact Hp.
      * destruct (find needle t) as [n |]; [| discriminate].
        intros _. destruct (IH eq_refl) as (pre & post & H).
        exists (String c pre), post. simpl. now rewrite H.
  - intros (pre & post & H). subst hay.
    induction pre as [|c pre IH]; cbn [append find].
    + assert (Hp : prefix needle (needle ++ post) = true)
        by (apply prefix_iff; now exists post).
      destruct (needle ++ post); cbn [find]; now rewrite Hp.
    + destruct (prefix needle (String c (pre ++ needle ++ post)));
        [reflexivity |].
      destruct (find needle (pre ++ needle ++ post)); [reflexivity |].
      discriminate IH.
Qed.

Lemma skipMount_contains (mountpoint : string) :
  skipMount mountpoint = true
  <-> contains mountpoint "/dev" \/ contains mountpoint "/sys".
Proof.
  unfold skipMount. rewrite orb_true_iff, !find_contains. reflexivity.
Qed.

(** What [showDisk] prints when the loop reaches [line] after the lines
    [before] and goes on with the lines [after]. *)
Lemma showDisk_line (env : Env) (text : string) (before after : list string)
      (line : string) :
  open_file env "/proc/mounts" = Some text ->
  lines text = (before ++ line :: after)%list ->
  showDisk env
  = drawTitle "Disks"
      ++ mountReports env before
      ++ outcome_text (diskEntry env line)
      ++ mountReports env after
      ++ NL.
Proof.
  intros Hfile Hlines. unfold showDisk. rewrite Hfile, Hlines.
  unfold mountReports. rewrite map_app. cbn [map].
  rewrite concat_app, concat_cons, !append_assoc. reflexivity.
Qed.

(** C6.  The loop of [showDisk] passes over a line of [/proc/mounts]
    exactly when its mountpoint, the second field, contains ["/dev"] or
    ["/sys"] somewhere, whatever [statvfs] would say of it, and goes on
    with the next line: the section is the title, the reports of the
    lines before, the reports of the lines after, and the closing
    newline.  A line whose mountpoint contains neither is not passed
    over: [statvfs] is asked and its report, if any, stands between
    those of the lines before and after.  The match is on substrings,
    not on path prefixes: the mountpoint ["/home/dev-user"], where
    ["/dev"] starts at index 5, is passed over. *)
Theorem showDisk_skips_substring_matches :
  forall (env : Env) (text : string) (before after : list string)
         (line : string),
    open_file env "/proc/mounts" = Some text ->
    lines text = (before ++ line :: after)%list ->
    let matches :=
      contains (mountpointOf line) "/dev"
      \/ contains (mountpointOf line) "/sys" in
    (diskEntry env line = Skipped <-> matches)
    /\ (matches ->
        showDisk env
        = drawTitle "Disks"
            ++ mountReports env before ++ mountReports env after ++ NL)
    /\ (~ matches ->
        showDisk env
        = drawTitle "Disks"
            ++ mountReports env before
            ++ match statvfs env (mountpointOf line) with
               | Some st =>
                   mountpointOf line ++ ": "
                     ++ show_Z (diskUsed st / (1024 * 1024)) ++ " MB / "
                     ++ show_Z (diskTotal st / (1024 * 1024)) ++ " MB ("
                     ++ show_fixed1 (diskPercent st) ++ "%)" ++ NL
               | None => ""
               end
            ++ mountReports env after ++ NL)
    /\ mountpointOf "/dev/sda3 /home/dev-user ext4 rw,relatime 0 0"
       = "/home/dev-user"
    /\ find "/dev" "/home/dev-user" = Some 5%nat
    /\ prefix "/dev" "/home/dev-user" = false
    /\ diskEntry env "/dev/sda3 /home/dev-user ext4 rw,relatime 0 0" = Skipped.
Proof.
  intros env text before after line Hfile Hlines matches.
  assert (Hiff : diskEntry env line = Skipped <-> matches).
  { unfold matches. rewrite <- skipMount_contains. unfold diskEntry.
    destruct (skipMount (mountpointOf line)).
    - split; reflexivity.
    - destruct (statvfs env (mountpointOf line)); split; discriminate. }
  split; [exact Hiff | split; [| split; [| repeat split]]].
  - intros Hm. apply Hiff in Hm.
    rewrite (showDisk_line env text before after line Hfile Hlines), Hm.
    reflexivity.
  - intros Hm.
    rewrite (showDisk_line env text before after line Hfile Hlines).
    do 2 f_equal. unfold diskEntry.
    destruct (skipMount (mountpointOf line)) eqn:Hs.
    + exfalso. apply Hm. unfold matches. now apply skipMount_contains.
    + destruct (statvfs env (mountpointOf line)); reflexivity.
Qed.

(** On [dev_user_env], where [statvfs] succeeds on every path, the
    mounts on [/dev/shm] and on [/home/dev-user] are passed over and the
    root file system, the line after them, is reported. *)
Lemma showDisk_skips_substring_matches_witness :
  open_file dev_user_env "/proc/mounts" = Some dev_user_mounts
  /\ lines dev_user_mounts
     = (["tmpfs /dev/shm tmpfs rw 0 0"]
          ++ "/dev/sda3 /home/dev-user ext4 rw,relatime 0 0"
          :: ["/dev/sda1 / ext4 rw,relatime 0 0"])%list
  /\ contains "/home/dev-user" "/dev"
  /\ showDisk dev_user_env
     = drawTitle "Disks" ++ "/: 2929 MB / 3906 MB (75.0%)" ++ NL ++ NL.
Proof.
  assert (Hc : contains "/home/dev-user" "/dev")
    by (exists "/home", "-user"; reflexivity).
  split; [reflexivity | split; [reflexivity | split; [exact Hc |]]].
  destruct (showDisk_skips_substring_matches dev_user_env dev_user_mounts
              ["tmpfs /dev/shm tmpfs rw 0 0"]
              ["/dev/sda1 / ext4 rw,relatime 0 0"]
              "/dev/sda3 /home/dev-user ext4 rw,relatime 0 0"
              eq_refl eq_refl) as (_ & H & _).
  exact (H (or_introl Hc)).
Defined.

(** ** Battery sampler *)

(** C7.  [available] is true exactly when both the capacity file and the
    status file of [BAT0] open.  When it is false the record keeps its
    initial values and the display is the title followed by the
    placeholder message, with no status line and no bar; when it is true
    the display is the status line and the bar. *)
Theorem readBattery_available_iff :
  forall env : Env,
    let bat := readBattery env in
    (available bat = true
     <-> open_file env "/sys/class/power_supply/BAT0/capacity" <> None
         /\ open_file env "/sys/class/power_supply/BAT0/status" <> None)
    /\ (available bat = false ->
        capacity bat = -1 /\ status bat = "Unknown"
        /\ showBattery env
           = drawTitle "Battery" ++ "Battery info not available" ++ NL ++ NL)
    /\ (available bat = true ->
        showBattery env
        = drawTitle "Battery" ++ status bat ++ NL
            ++ drawProgressBar (F32.of_Z (capacity bat)) 40 true ++ NL ++ NL).
Proof.
  intros env bat. subst bat. unfold showBattery, readBattery.
  change (batteryPath ++ "capacity")
    with "/sys/class/power_supply/BAT0/capacity".
  change (batteryPath ++ "status")
    with "/sys/class/power_supply/BAT0/status".
  destruct (open_file env "/sys/class/power_supply/BAT0/capacity")
    as [capText |];
    destruct (open_file env "/sys/class/power_supply/BAT0/status")
      as [statusText |];
    cbn [available capacity status];
    (split; [split; [intros H; try discriminate H; split; discriminate
                    | intros [H1 H2]; try reflexivity; congruence]
            | split; intros H; try discriminate H; auto]).
Qed.
(** ** Fan-speed scan *)

Section FanScan.

Variable indet : Z.
Variable env : Env.

Lemma fanLoop_first_positive (dir : string) (indices : list Z) :
  fanLoop indet env dir indices
  = List.find (fun rpm => 0 <? rpm)
      (flat_map (fun i =>
                   match open_file env (fanPath dir i) with
                   | Some text => [fanReading indet text]
                   | None => []
                   end)
                indices).
Proof.
  induction indices as [|i rest IH]; cbn [fanLoop flat_map].
  - reflexivity.
  - destruct (open_file env (fanPath dir i)) as [text |]; cbn [app].
    + cbn [List.find]. destruct (0 <? fanReading indet text); [reflexivity | exact IH].
    + exact IH.
Qed.

Lemma find_app {A : Type} (f : A -> bool) (l1 l2 : list A) :
  List.find f (l1 ++ l2)%list
  = match List.find f l1 with
    | Some x => Some x
    | None => List.find f l2
    end.
Proof.
  induction l1 as [|x l1 IH]; cbn [app List.find]; [reflexivity |].
  destruct (f x); [reflexivity | exact IH].
Qed.

Lemma hwmonLoop_first_positive (entries : list string) :
  hwmonLoop indet env entries
  = firstPositive (candidateReadings indet env entries).
Proof.
  unfold firstPositive, candidateReadings.
  induction entries as [|entry rest IH]; cbn [hwmonLoop filter flat_map].
  - reflexivity.
  - unfold nameReadable at 1.
    destruct (open_file env (entry ++ "/name")) as [chipName |].
    + cbn [flat_map]. rewrite find_app.
      rewrite fanLoop_first_positive. fold (fanReadings indet env entry).
      destruct (List.find (fun rpm => 0 <? rpm) (fanReadings indet env entry));
        [reflexivity | exact IH].
    + exact IH.
Qed.

End FanScan.

(** C9.  The scan returns the first strictly positive reading, in scan
    order, among the fan files of the directories whose [name] file opens,
    and [-1] when there is none.  A directory whose [name] file does not
    open is passed over without its fan files being read: the scan gives
    what it gives without that directory, whatever its fan files hold. *)
Theorem readFanRPM_skips_unnamed_directories :
  forall (indet : Z) (env : Env) (entries : list string),
    list_dir env "/sys/class/hwmon/" = Some entries ->
    readFanRPM indet env
    = Some (firstPositive (candidateReadings indet env entries))
    /\ (forall (before after : list string) (dir : string),
           entries = (before ++ dir :: after)%list ->
           open_file env (dir ++ "/name") = None ->
           readFanRPM indet env
           = Some (hwmonLoop indet env (before ++ after)))
    /\ (firstPositive (candidateReadings indet env entries) = -1
        \/ 0 < firstPositive (candidateReadings indet env entries)).
Proof.
  intros indet env entries Hdir.
  unfold readFanRPM. rewrite Hdir. cbn [option_map].
  split; [| split].
  - now rewrite hwmonLoop_first_positive.
  - intros before after dir -> Hname.
    rewrite !hwmonLoop_first_positive. do 2 f_equal.
    unfold candidateReadings. rewrite !filter_app. cbn [filter].
    unfold nameReadable at 2. now rewrite Hname.
  - unfold firstPositive.
    destruct (List.find (fun rpm => 0 <? rpm)
                (candidateReadings indet env entries)) as [rpm |] eqn:Hf.
    + right. apply find_some in Hf. destruct Hf as [_ Hf].
      now apply Z.ltb_lt in Hf.
    + left. reflexivity.
Qed.

(** On [hwmon_env] the 1200 RPM of the unnamed [hwmon0] is never read:
    the scan returns the 900 RPM of [hwmon1]. *)
Lemma readFanRPM_skips_unnamed_directories_witness :
  list_dir hwmon_env "/sys/class/hwmon/"
  = Some ["/sys/class/hwmon/hwmon0"; "/sys/class/hwmon/hwmon1"]
  /\ readFanRPM 0 hwmon_env = Some 900.
Proof.
  split; [reflexivity |].
  destruct (readFanRPM_skips_unnamed_directories 0 hwmon_env
              ["/sys/class/hwmon/hwmon0"; "/sys/class/hwmon/hwmon1"] eq_refl)
    as [H _].
  exact H.
Defined.
(** ** Input controller *)

Lemma land_lor_lnot (f o : Z) :
  Z.land (Z.lor f o) (Z.lnot o) = Z.land f (Z.lnot o).
Proof.
  apply Z.bits_inj'. intros n Hn.
  rewrite !Z.land_spec, Z.lor_spec, Z.lnot_spec by assumption.
  destruct (Z.testbit f n), (Z.testbit o n); reflexivity.
Qed.

Lemma lor_land_lnot (f o : Z) : Z.lor (Z.land f (Z.lnot o)) o = Z.lor f o.
Proof.
  apply Z.bits_inj'. intros n Hn.
  rewrite !Z.lor_spec, Z.land_spec, Z.lnot_spec by assumption.
  destruct (Z.testbit f n), (Z.testbit o n); reflexivity.
Qed.

Lemma lor_idem (f o : Z) : Z.lor (Z.lor f o) o = Z.lor f o.
Proof. now rewrite <- Z.lor_assoc, Z.lor_diag. Qed.

Lemma land_idem (f o : Z) : Z.land (Z.land f o) o = Z.land f o.
Proof. now rewrite <- Z.land_assoc, Z.land_diag. Qed.

(** Clearing a bit that is not set changes nothing. *)
Lemma land_lnot_clear (f o : Z) : Z.land f o = 0 -> Z.land f (Z.lnot o) = f.
Proof.
  intros H. apply Z.bits_inj'. intros n Hn.
  rewrite Z.land_spec, Z.lnot_spec by assumption.
  assert (Hb : Z.testbit (Z.land f o) n = false) by (rewrite H; apply Z.bits_0).
  rewrite Z.land_spec in Hb.
  destruct (Z.testbit f n), (Z.testbit o n); try reflexivity; discriminate Hb.
Qed.

(** Once the attributes are saved, the terminal after a call depends on
    the call alone, not on the calls before it. *)
Lemma terminalAfter_absorbs (st : nb_static) (b1 b2 : bool) (t : Terminal) :
  terminalAfter st b2 (terminalAfter st b1 t) = terminalAfter st b2 t.
Proof.
  unfold terminalAfter.
  destruct b1, b2; cbn [term_flags]; f_equal.
  - apply lor_idem.
  - apply land_lor_lnot.
  - apply lor_land_lnot.
  - apply land_idem.
Qed.

Lemma setNonBlocking_saved (st : nb_static) (enable : bool) (t : Terminal) :
  saved st = true ->
  exists tr : list syscall,
    setNonBlocking enable st t = (st, terminalAfter st enable t, tr)
    /\ saves tr = O.
Proof.
  intros Hs. unfold setNonBlocking, terminalAfter. rewrite Hs. cbn [negb].
  destruct enable; eexists; split; reflexivity.
Qed.

Lemma saves_app (tr1 tr2 : list syscall) :
  saves (tr1 ++ tr2) = (saves tr1 + saves tr2)%nat.
Proof. unfold saves. now rewrite filter_app, length_app. Qed.

(** A run that starts with the attributes saved never saves again, keeps
    the saved copy, and ends in the terminal its last call sets. *)
Lemma runCalls_saved (st : nb_static) (calls : list bool) :
  saved st = true ->
  forall t : Terminal,
    finalStatic (runCalls calls st t) = st
    /\ saves (callTrace (runCalls calls st t)) = O
    /\ finalTerminal (runCalls calls st t)
       = match calls with
         | [] => t
         | _ => terminalAfter st (last calls false) t
         end.
Proof.
  intros Hs. induction calls as [|b rest IH]; intros t.
  - repeat split; reflexivity.
  - cbn [runCalls].
    destruct (setNonBlocking_saved st b t Hs) as (tr & -> & Htr).
    specialize (IH (terminalAfter st b t)).
    destruct (runCalls rest st (terminalAfter st b t)) as [[st2 t2] tr2].
    unfold finalStatic, finalTerminal, callTrace in *. cbn [fst snd] in *.
    destruct IH as (IH1 & IH2 & IH3).
    split; [exact IH1 | split].
    + now rewrite saves_app, Htr, IH2.
    + rewrite IH3. destruct rest as [|b' rest']; [reflexivity |].
      rewrite terminalAfter_absorbs. reflexivity.
Qed.

(** The outcome of any run from the initial statics. *)
Lemma runCalls_from_init (calls : list bool) :
  forall t0 : Terminal,
    let r := runCalls calls nb_init t0 in
    if existsb id calls
    then finalStatic r = {| oldt := term_attr t0; saved := true |}
         /\ saves (callTrace r) = 1%nat
         /\ finalTerminal r
            = terminalAfter {| oldt := term_attr t0; saved := true |}
                (last calls false) t0
    else finalStatic r = nb_init /\ saves (callTrace r) = O
         /\ finalTerminal r = t0.
Proof.
  induction calls as [|b rest IH]; intros t0 r; subst r.
  - repeat split; reflexivity.
  - destruct b; cbn [existsb id orb].
    + cbn [runCalls setNonBlocking nb_init saved negb oldt app].
      set (st1 := {| oldt := term_attr t0; saved := true |}).
      set (t1 := {| term_attr := rawAttr (term_attr t0);
                    term_flags := Z.lor (term_flags t0) O_NONBLOCK |}).
      destruct (runCalls_saved st1 rest eq_refl t1) as (H1 & H2 & H3).
      destruct (runCalls rest st1 t1) as [[st2 t2] tr2].
      unfold finalStatic, finalTerminal, callTrace in *. cbn [fst snd] in *.
      split; [exact H1 | split].
      * unfold saves in *. cbn [filter is_tcgetattr List.length].
        now rewrite H2.
      * rewrite H3. destruct rest as [|b' rest']; [reflexivity |].
        change t1 with (terminalAfter st1 true t0).
        rewrite terminalAfter_absorbs. reflexivity.
    + cbn [runCalls setNonBlocking nb_init saved].
      specialize (IH t0). cbn zeta in IH.
      destruct (runCalls rest nb_init t0) as [[st2 t2] tr2].
      unfold finalStatic, finalTerminal, callTrace in *. cbn [fst snd app] in *.
      destruct (existsb id rest) eqn:He.
      * destruct IH as (H1 & H2 & H3). repeat split; try assumption.
        rewrite H3. destruct rest as [|b' rest']; [discriminate He |].
        reflexivity.
      * exact IH.
Qed.

(** C8, counterexample.  A terminal opened non-blocking is not restored:
    after [enable(true)] and [enable(false)] its attributes are back but
    [O_NONBLOCK] is cleared, flags 2 instead of 2050. *)
Lemma setNonBlocking_does_not_restore_flags :
  let r := runCalls [true; false] nb_init nonblocking_tty in
  term_attr (finalTerminal r) = term_attr nonblocking_tty
  /\ term_flags nonblocking_tty = 2050
  /\ term_flags (finalTerminal r) = 2
  /\ finalTerminal r <> nonblocking_tty.
Proof.
  cbv zeta. repeat split. intros H.
  apply (f_equal term_flags) in H. vm_compute in H. discriminate H.
Qed.

(** C8, amended.  For every sequence of calls from start-up: the terminal
    attributes are read exactly once, by the first [enable(true)], and the
    saved copy stays what the terminal had then; before that
    [enable(false)] does nothing; after it [enable(false)] puts the saved
    attributes back and clears [O_NONBLOCK], leaving the other status flags
    as they were, so that the terminal is exactly as before when
    [O_NONBLOCK] was clear at the start; [enable(true)] installs the saved
    attributes without [ICANON] and [ECHO] and sets [O_NONBLOCK]. *)
Theorem setNonBlocking_saves_once :
  forall (calls : list bool) (t0 : Terminal),
    let r := runCalls calls nb_init t0 in
    saves (callTrace r) = (if existsb id calls then 1 else 0)%nat
    /\ (existsb id calls = true ->
        saved (finalStatic r) = true /\ oldt (finalStatic r) = term_attr t0)
    /\ (existsb id calls = false ->
        finalStatic r = nb_init /\ finalTerminal r = t0)
    /\ (forall pre : list bool,
           calls = (pre ++ [false])%list -> existsb id pre = true ->
           term_attr (finalTerminal r) = term_attr t0
           /\ term_flags (finalTerminal r)
              = Z.land (term_flags t0) (Z.lnot O_NONBLOCK)
           /\ (Z.land (term_flags t0) O_NONBLOCK = 0 -> finalTerminal r = t0))
    /\ (forall pre : list bool,
           calls = (pre ++ [true])%list ->
           term_attr (finalTerminal r) = rawAttr (term_attr t0)
           /\ term_flags (finalTerminal r)
              = Z.lor (term_flags t0) O_NONBLOCK).
Proof.
  intros calls t0 r.
  pose proof (runCalls_from_init calls t0) as H. cbv zeta in H. fold r in H.
  split; [| split; [| split; [| split]]].
  - destruct (existsb id calls); tauto.
  - intros He. rewrite He in H. destruct H as (-> & _). split; reflexivity.
  - intros He. rewrite He in H. tauto.
  - intros pre Hc Hp.
    assert (He : existsb id calls = true)
      by (rewrite Hc, existsb_app, Hp; reflexivity).
    rewrite He in H. destruct H as (_ & _ & ->).
    rewrite Hc, last_last. cbn [terminalAfter term_attr term_flags oldt].
    repeat split.
    intros Hclear. rewrite (land_lnot_clear _ _ Hclear).
    destruct t0; reflexivity.
  - intros pre Hc.
    assert (He : existsb id calls = true)
      by (rewrite Hc, existsb_app; cbn; apply orb_true_r).
    rewrite He in H. destruct H as (_ & _ & ->).
    rewrite Hc, last_last. cbn [terminalAfter term_attr term_flags oldt].
    split; reflexivity.
Qed.
(** ** Reading back decimal numbers *)

Lemma of_uint_acc_val (d : Decimal.uint) :
  forall acc : positive,
    Zpos (Pos.of_uint_acc d acc) = uint_val d (Zpos acc).
Proof.
  induction d; intros acc; cbn [Pos.of_uint_acc uint_val];
    try reflexivity; rewrite IHd; f_equal; lia.
Qed.

Lemma of_uint_val (d : Decimal.uint) : Z.of_uint d = uint_val d 0.
Proof.
  unfold Z.of_uint.
  induction d; cbn [Pos.of_uint uint_val]; try reflexivity;
    try (rewrite IHd; reflexivity);
    cbn [Z.of_N]; rewrite of_uint_acc_val; reflexivity.
Qed.

Lemma to_uint_val (p : positive) : uint_val (Pos.to_uint p) 0 = Zpos p.
Proof.
  rewrite <- of_uint_val. unfold Z.of_uint.
  now rewrite DecimalPos.Unsigned.of_to.
Qed.

Lemma read_digits_stop (s : string) (acc : option Z) :
  no_digit_ahead s = true -> read_digits s acc = acc.
Proof.
  destruct s as [|c t]; cbn; [reflexivity |].
  destruct (isdigit c); [discriminate | reflexivity].
Qed.

Lemma skip_digits_stop (s : string) :
  no_digit_ahead s = true -> skip_digits s = s.
Proof.
  destruct s as [|c t]; cbn; [reflexivity |].
  destruct (isdigit c); [discriminate | reflexivity].
Qed.

Ltac eval_digit :=
  repeat match goal with
         | |- context [isdigit ?c] =>
             let v := eval vm_compute in (isdigit c) in
             change (isdigit c) with v
         | |- context [digit_value ?c] =>
             let v := eval vm_compute in (digit_value c) in
             change (digit_value c) with v
         end.

Lemma read_digits_uint (d : Decimal.uint) (rest : string) :
  no_digit_ahead rest = true ->
  forall acc : option Z,
    read_digits (NilEmpty.string_of_uint d ++ rest) acc
    = match d with
      | Decimal.Nil => acc
      | _ => Some (uint_val d (match acc with Some a => a | None => 0 end))
      end.
Proof.
  intros Hrest. induction d; intros acc;
    cbn [NilEmpty.string_of_uint append read_digits uint_val];
    try (now apply read_digits_stop);
    eval_digit; cbv iota; rewrite IHd;
    destruct d; cbn [uint_val]; rewrite ?Z.add_0_r; reflexivity.
Qed.

Lemma skip_digits_uint (d : Decimal.uint) (rest : string) :
  no_digit_ahead rest = true ->
  skip_digits (NilEmpty.string_of_uint d ++ rest) = rest.
Proof.
  intros Hrest. induction d;
    cbn [NilEmpty.string_of_uint append skip_digits];
    try (now apply skip_digits_stop);
    eval_digit; cbv iota; exact IHd.
Qed.

(** The digits of a positive number: never empty, and no sign. *)
Lemma string_of_pos_head (p : positive) :
  exists (c : ascii) (t : string),
    NilEmpty.string_of_uint (Pos.to_uint p) = String c t
    /\ isdigit c = true.
Proof.
  pose proof (DecimalPos.Unsigned.to_uint_nonnil p) as Hn.
  destruct (Pos.to_uint p); try congruence;
    cbn [NilEmpty.string_of_uint]; eexists; eexists; split; reflexivity.
Qed.

Lemma isdigit_not_space (c : ascii) : isdigit c = true -> isspace c = false.
Proof.
  unfold isdigit, isspace. intros H.
  apply andb_true_iff in H. destruct H as [H1 H2].
  apply Nat.leb_le in H1. apply Nat.leb_le in H2.
  apply orb_false_iff. split.
  - apply Nat.eqb_neq. lia.
  - apply andb_false_iff. right. apply Nat.leb_gt. lia.
Qed.

Lemma read_digits_pos (p : positive) (rest : string) :
  no_digit_ahead rest = true ->
  read_digits (NilEmpty.string_of_uint (Pos.to_uint p) ++ rest) None
  = Some (Zpos p).
Proof.
  intros Hrest. rewrite read_digits_uint by assumption.
  pose proof (DecimalPos.Unsigned.to_uint_nonnil p) as Hn.
  rewrite <- (to_uint_val p).
  destruct (Pos.to_uint p); try congruence; reflexivity.
Qed.

(** What [show_Z] prints is read back as the same number, and the reading
    stops where the digits stop. *)
Lemma read_number_show_Z (z : Z) (rest : string) :
  no_digit_ahead rest = true ->
  read_number (show_Z z ++ rest) = Some z
  /\ after_number (show_Z z ++ rest) = rest
  /\ skip_ws (show_Z z ++ rest) = show_Z z ++ rest
  /\ at_end (show_Z z ++ rest) = false.
Proof.
  intros Hrest. unfold show_Z.
  destruct z as [|p|p]; cbn [Z.to_int NilZero.string_of_int].
  - cbn [NilZero.string_of_uint NilEmpty.string_of_uint append].
    unfold read_number, after_number.
    cbn [read_digits skip_digits skip_ws at_end].
    eval_digit. change (isspace "0") with false. cbv iota.
    rewrite read_digits_stop, skip_digits_stop by assumption.
    repeat split.
  - unfold NilZero.string_of_uint.
    pose proof (DecimalPos.Unsigned.to_uint_nonnil p) as Hn.
    pose proof (read_digits_pos p rest Hrest) as Hr.
    pose proof (skip_digits_uint (Pos.to_uint p) rest Hrest) as Hs.
    destruct (string_of_pos_head p) as (c & t & Hc & Hd).
    replace (match Pos.to_uint p with
             | Decimal.Nil => "0"
             | _ => NilEmpty.string_of_uint (Pos.to_uint p)
             end) with (NilEmpty.string_of_uint (Pos.to_uint p))
      by (destruct (Pos.to_uint p); congruence).
    rewrite Hc in *. cbn [append] in *.
    assert (Hm : c <> "-"%char /\ c <> "+"%char)
      by (split; intros ->; discriminate Hd).
    destruct Hm as [Hm Hp].
    repeat split.
    + unfold read_number.
      destruct c as [[] [] [] [] [] [] [] []]; try exact Hr; congruence.
    + unfold after_number.
      destruct c as [[] [] [] [] [] [] [] []]; try exact Hs; congruence.
    + cbn [skip_ws]. now rewrite (isdigit_not_space c Hd).
  - unfold NilZero.string_of_uint.
    pose proof (DecimalPos.Unsigned.to_uint_nonnil p) as Hn.
    pose proof (read_digits_pos p rest Hrest) as Hr.
    pose proof (skip_digits_uint (Pos.to_uint p) rest Hrest) as Hs.
    replace (match Pos.to_uint p with
             | Decimal.Nil => "0"
             | _ => NilEmpty.string_of_uint (Pos.to_uint p)
             end) with (NilEmpty.string_of_uint (Pos.to_uint p))
      by (destruct (Pos.to_uint p); congruence).
    cbn [append]. unfold read_number, after_number.
    rewrite Hr, Hs. repeat split.
Qed.

(** ** Extractions on a well-formed line *)

Lemma skip_ws_blank (ws s : string) :
  blank ws = true -> skip_ws (ws ++ s) = skip_ws s.
Proof.
  induction ws as [|c t IH]; cbn [blank append skip_ws]; [reflexivity |].
  intros H. apply andb_true_iff in H. destruct H as [-> H]. now apply IH.
Qed.

Lemma at_end_append (a b : string) :
  at_end (a ++ b) = at_end a && at_end b.
Proof. destruct a; reflexivity. Qed.

Lemma behind_good (rest : string) :
  at_end rest = false -> behind rest = istringstream rest.
Proof. unfold behind, istringstream. now intros ->. Qed.

Lemma fits_long_leb (v : Z) :
  fits_long v -> (LONG_MIN <=? v) && (v <=? LONG_MAX) = true.
Proof.
  intros [H1 H2]. apply andb_true_iff. split; now apply Z.leb_le.
Qed.

Lemma clamp_id (lo hi v : Z) : lo <= v <= hi -> clamp lo hi v = v.
Proof. unfold clamp. lia. Qed.

(** Extracting a [long] from white space, the digits of [v] and a rest
    that does not go on with a digit gives [v] and leaves the rest. *)
Lemma get_long_show_Z (ws rest : string) (v old : Z) :
  blank ws = true -> fits_long v -> no_digit_ahead rest = true ->
  get_long (istringstream (ws ++ show_Z v ++ rest)) old = (behind rest, v).
Proof.
  intros Hws Hv Hrest.
  destruct (read_number_show_Z v rest Hrest) as (Hn & Ha & Hs & He).
  unfold get_long, sentry, istringstream, good. cbn [is_buf is_eof is_fail negb andb].
  rewrite skip_ws_blank, Hs by assumption.
  destruct (show_Z v ++ rest) as [|c t] eqn:Hshow; [discriminate He |].
  cbn [is_buf]. rewrite Hn, Ha, (fits_long_leb v Hv). cbn [negb].
  now rewrite (clamp_id _ _ _ Hv).
Qed.

Lemma separator_inv (s : string) :
  separator s = true ->
  blank s = true
  /\ exists (c : ascii) (t : string), s = String c t /\ isspace c = true.
Proof.
  unfold separator. intros H. apply andb_true_iff in H. destruct H as [Hb He].
  split; [exact Hb |].
  destruct s as [|c t]; [discriminate He |].
  cbn [blank] in Hb. apply andb_true_iff in Hb. destruct Hb as [Hc _].
  now exists c, t.
Qed.

Lemma separator_no_digit (s rest : string) :
  separator s = true -> no_digit_ahead (s ++ rest) = true.
Proof.
  intros H. destruct (separator_inv s H) as (_ & c & t & -> & Hc).
  cbn [append no_digit_ahead].
  destruct (isdigit c) eqn:Hd; [| reflexivity].
  now rewrite (isdigit_not_space c Hd) in Hc.
Qed.

Lemma separator_not_end (s rest : string) :
  separator s = true -> at_end (s ++ rest) = false.
Proof.
  intros H. destruct (separator_inv s H) as (_ & c & t & -> & _). reflexivity.
Qed.

(** A field followed by a separator is read as one word. *)
Lemma read_word_field (w rest : string) :
  solid w = true ->
  (exists (c : ascii) (t : string), rest = String c t /\ isspace c = true) ->
  read_word (w ++ rest) = (w, rest).
Proof.
  intros Hw (c & t & -> & Hc).
  induction w as [|a w IH]; cbn [append read_word].
  - now rewrite Hc.
  - cbn [solid] in Hw. apply andb_true_iff in Hw. destruct Hw as [Ha Hw].
    apply negb_true_iff in Ha. rewrite Ha, (IH Hw). reflexivity.
Qed.

Lemma field_inv (w : string) :
  field w = true ->
  solid w = true
  /\ exists (c : ascii) (t : string), w = String c t /\ isspace c = false.
Proof.
  unfold field. intros H. apply andb_true_iff in H. destruct H as [Hs He].
  split; [exact Hs |].
  destruct w as [|c t]; [discriminate He |].
  cbn [solid] in Hs. apply andb_true_iff in Hs. destruct Hs as [Hc _].
  apply negb_true_iff in Hc. now exists c, t.
Qed.

Lemma get_word_field (w sep rest old : string) :
  field w = true -> separator sep = true ->
  get_word (istringstream (w ++ sep ++ rest)) old
  = (istringstream (sep ++ rest), w).
Proof.
  intros Hw Hsep.
  destruct (field_inv w Hw) as (Hsolid & c & t & Hct & Hc).
  destruct (separator_inv sep Hsep) as (_ & c' & t' & Hsep' & Hc').
  unfold get_word, sentry, istringstream, good. cbn [is_buf is_eof is_fail negb andb].
  assert (Hskip : skip_ws (w ++ sep ++ rest) = w ++ sep ++ rest)
    by (rewrite Hct; cbn [append skip_ws]; now rewrite Hc).
  rewrite Hskip.
  destruct (w ++ sep ++ rest) as [|a b] eqn:Hall;
    [rewrite Hct in Hall; discriminate Hall |].
  cbn [is_buf]. rewrite <- Hall.
  rewrite read_word_field; [| exact Hsolid |].
  - rewrite Hsep'. reflexivity.
  - exists c', (t' ++ rest). rewrite Hsep'. split; [reflexivity | exact Hc'].
Qed.

(** X1.  On a [/proc/stat] whose first line is a label and seven or more
    numbers that fit a [long], separated by white space, the extraction
    of lines 197-200 leaves exactly the first seven numbers in [user],
    [nice], [system], [idle], [iowait], [irq] and [softirq]: none of the
    uninitialised locals is left as it was, and the label is not looked
    at.  [showCPU] then reports on these seven counters. *)
Theorem readProcStat_reads_counters :
  forall (label s1 s2 s3 s4 s5 s6 s7 rest : string) (c u : cpu_sample),
    field label = true ->
    forallb separator [s1; s2; s3; s4; s5; s6; s7] = true ->
    Forall fits_long (counters c) ->
    no_digit_ahead rest = true ->
    let text :=
      label ++ s1 ++ show_Z (user c) ++ s2 ++ show_Z (nice c)
        ++ s3 ++ show_Z (system c) ++ s4 ++ show_Z (idle c)
        ++ s5 ++ show_Z (iowait c) ++ s6 ++ show_Z (irq c)
        ++ s7 ++ show_Z (softirq c) ++ rest in
    readProcStat (Some text) u = c
    /\ (forall (indet : Z) (env : Env) (st : cpu_state),
           open_file env "/proc/stat" = Some text ->
           showCPU_env indet u env st = showCPU indet env st c).
Proof.
  intros label s1 s2 s3 s4 s5 s6 s7 rest c u Hlabel Hseps Hfit Hrest text.
  assert (Hread : readProcStat (Some text) u = c).
  { subst text. cbn [forallb] in Hseps.
    repeat (apply andb_true_iff in Hseps;
            let H := fresh "Hs" in destruct Hseps as [H Hseps]).
    unfold counters in Hfit.
    repeat match goal with
           | H : Forall _ (_ :: _) |- _ => inversion_clear H
           end.
    unfold readProcStat.
    change (ifstream (Some ?t)) with (istringstream t).
    rewrite (get_word_field label s1 _ "" Hlabel Hs).
    repeat
      (rewrite get_long_show_Z;
       [ rewrite ?behind_good by now apply separator_not_end
       | now apply separator_inv
       | assumption
       | first [now apply separator_no_digit | assumption] ]).
    destruct c; reflexivity. }
  split; [exact Hread |].
  intros indet env st Hfile. unfold showCPU_env. now rewrite Hfile, Hread.
Qed.

(** The aggregate line of [laptop_stat], read over locals that held the
    counters of [sampleA]. *)
Lemma readProcStat_reads_counters_witness :
  field "cpu" = true
  /\ Forall fits_long (counters sampleB)
  /\ readProcStat (open_file laptop_env "/proc/stat") sampleA = sampleB.
Proof.
  assert (H : Forall fits_long (counters sampleB))
    by (unfold counters, sampleB, fits_long, LONG_MIN, LONG_MAX; cbn;
        repeat constructor; lia).
  split; [reflexivity | split; [exact H |]].
  destruct (readProcStat_reads_counters
              "cpu" "  " " " " " " " " " " " " "
              (" 0 0 0" ++ NL ++ "cpu0 250 0 0 150 0 0 0 0 0 0" ++ NL)
              sampleB sampleA eq_refl eq_refl H eq_refl) as [Hr _].
  exact Hr.
Defined.


Lemma failed_not_good (st : istream) : is_fail st = true -> good st = false.
Proof. unfold good. intros ->. apply andb_false_r. Qed.

(** Once [failbit] is set an extraction stores nothing. *)
Lemma get_long_failed (st : istream) (old : Z) :
  is_fail st = true ->
  get_long st old
  = ({| is_buf := is_buf st; is_eof := is_eof st; is_fail := true |}, old).
Proof.
  intros H. unfold get_long, sentry. now rewrite (failed_not_good st H).
Qed.

Lemma read_word_solid (w ws : string) :
  solid w = true -> blank ws = true -> read_word (w ++ ws) = (w, ws).
Proof.
  intros Hw Hws. induction w as [|a w IH]; cbn [append read_word].
  - destruct ws as [|c t]; [reflexivity |].
    cbn [blank] in Hws. apply andb_true_iff in Hws. destruct Hws as [Hc _].
    cbn [read_word]. now rewrite Hc.
  - cbn [solid] in Hw. apply andb_true_iff in Hw. destruct Hw as [Ha Hw].
    apply negb_true_iff in Ha. rewrite Ha, (IH Hw). reflexivity.
Qed.

Lemma skip_ws_all (ws : string) : blank ws = true -> skip_ws ws = "".
Proof.
  induction ws as [|c t IH]; cbn [blank skip_ws]; [reflexivity |].
  intros H. apply andb_true_iff in H. destruct H as [-> H]. now apply IH.
Qed.

(** X13.  The extraction of lines 197-200 never throws and never stops
    the program; what it cannot read it leaves alone.  When [/proc/stat]
    does not open, or holds a label and nothing but white space after it,
    none of the seven locals is assigned: they keep what they held,
    uninitialised.  When the first field after the label begins with a
    character that is neither a digit nor a sign, [user] is set to 0 and
    the six other locals are not assigned. *)
Theorem readProcStat_leaves_unread_counters :
  forall u : cpu_sample,
    readProcStat None u = u
    /\ (forall label ws : string,
           field label = true -> blank ws = true ->
           readProcStat (Some (label ++ ws)) u = u)
    /\ (forall (label sep : string) (c : ascii) (t : string),
           field label = true -> separator sep = true ->
           isspace c = false -> isdigit c = false ->
           c <> "+"%char -> c <> "-"%char ->
           readProcStat (Some (label ++ sep ++ String c t)) u
           = {| user := 0; nice := nice u; system := system u;
                idle := idle u; iowait := iowait u; irq := irq u;
                softirq := softirq u |}).
Proof.
  intros u. split; [| split].
  - destruct u; reflexivity.
  - intros label ws Hlabel Hws.
    destruct (field_inv label Hlabel) as (Hsolid & c & t & Hct & Hc).
    unfold readProcStat, ifstream, get_word, sentry, good.
    cbn [is_buf is_eof is_fail negb andb].
    assert (Hskip : skip_ws (label ++ ws) = label ++ ws)
      by (rewrite Hct; cbn [append skip_ws]; now rewrite Hc).
    rewrite Hskip.
    destruct (label ++ ws) as [|a b] eqn:Hall;
      [rewrite Hct in Hall; discriminate Hall |].
    cbn [is_buf]. rewrite <- Hall, read_word_solid by assumption.
    unfold get_long at 1. unfold sentry, good.
    cbn [is_buf is_eof is_fail negb andb].
    destruct (at_end ws) eqn:He.
    + cbn [negb andb]. rewrite !get_long_failed by reflexivity.
      destruct u; reflexivity.
    + cbn [negb andb]. rewrite (skip_ws_all ws Hws).
      rewrite !get_long_failed by reflexivity. destruct u; reflexivity.
  - intros label sep c t Hlabel Hsep Hc Hd Hplus Hminus.
    unfold readProcStat.
    change (ifstream (Some ?x)) with (istringstream x).
    rewrite (get_word_field label sep _ "" Hlabel Hsep).
    destruct (separator_inv sep Hsep) as (Hblank & _).
    unfold get_long at 1. unfold sentry, istringstream, good.
    cbn [is_buf is_eof is_fail negb andb].
    rewrite skip_ws_blank by assumption. cbn [skip_ws]. rewrite Hc.
    cbn [is_buf].
    assert (Hnum : read_number (String c t) = None).
    { unfold read_number.
      destruct c as [[] [] [] [] [] [] [] []];
        try congruence; cbn [read_digits]; try rewrite Hd; try reflexivity;
        discriminate Hd. }
    rewrite Hnum. rewrite !get_long_failed by reflexivity.
    destruct u; reflexivity.
Qed.

(** A [/proc/stat] cut off after the label, and one whose first field is
    not a number, read over locals that held the counters of [sampleA]. *)
Lemma readProcStat_leaves_unread_counters_witness :
  readProcStat (Some ("cpu" ++ NL)) sampleA = sampleA
  /\ readProcStat (Some "cpu  n/a 7 7 7 7 7 7") sampleA
     = {| user := 0; nice := 0; system := 0; idle := 100; iowait := 0;
          irq := 0; softirq := 0 |}.
Proof.
  destruct (readProcStat_leaves_unread_counters sampleA) as (_ & H2 & H3).
  split.
  - exact (H2 "cpu" NL eq_refl eq_refl).
  - exact (H3 "cpu" "  " "n"%char "/a 7 7 7 7 7 7" eq_refl eq_refl eq_refl
             eq_refl ltac:(discriminate) ltac:(discriminate)).
Defined.
(** ** Battery report *)

Lemma lines_from_line (l rest : string) :
  one_line l = true ->
  forall acc : string,
    lines_from acc (l ++ NL ++ rest) = (acc ++ l) :: lines_from "" rest.
Proof.
  unfold one_line. induction l as [|c t IH]; intros Hl acc.
  - cbn [append lines_from NL is_newline].
    change (is_newline (ascii_of_nat 10)) with true. cbv iota.
    f_equal. induction acc as [|a acc IHa]; cbn [append]; congruence.
  - cbn [lacks] in Hl. apply andb_true_iff in Hl. destruct Hl as [Hc Hl].
    cbn [append lines_from].
    replace (is_newline c) with false.
    + rewrite (IH Hl). f_equal. now rewrite append_assoc.
    + apply negb_true_iff in Hc. unfold is_newline.
      destruct (Nat.eqb_spec (nat_of_ascii c) 10) as [He | Hne];
        [| reflexivity].
      apply (f_equal ascii_of_nat) in He. rewrite ascii_nat_embedding in He.
      subst c. discriminate Hc.
Qed.

Lemma first_line_line (l rest : string) :
  one_line l = true -> first_line (l ++ NL ++ rest) = l.
Proof.
  intros Hl. unfold first_line, lines. now rewrite lines_from_line.
Qed.

(** Extracting an [int] from the digits of a number that fits. *)
Lemma extract_int_show_Z (v old : Z) (rest : string) :
  INT_MIN <= v <= INT_MAX -> no_digit_ahead rest = true ->
  extract_int (show_Z v ++ rest) old = v.
Proof.
  intros Hv Hrest.
  destruct (read_number_show_Z v rest Hrest) as (Hn & _ & Hs & He).
  unfold extract_int. rewrite Hs.
  destruct (show_Z v ++ rest) as [|c t] eqn:Hshow; [discriminate He |].
  rewrite Hn. now apply clamp_id.
Qed.

(** On every whole percentage the inverted bar of 40 cells is exact. *)
Lemma batteryBar_checked :
  forallb (fun c => String.eqb (drawProgressBar (F32.of_Z c) 40 true)
                               (batteryBar c))
          percentages = true.
Proof. vm_compute. reflexivity. Qed.

Lemma percentages_complete (c : Z) : 0 <= c <= 100 -> In c percentages.
Proof.
  intros Hc. unfold percentages. apply in_map_iff.
  exists (Z.to_nat c). split; [lia |]. apply in_seq. lia.
Qed.

Lemma drawProgressBar_battery (c : Z) :
  0 <= c <= 100 -> drawProgressBar (F32.of_Z c) 40 true = batteryBar c.
Proof.
  intros Hc. pose proof batteryBar_checked as H.
  rewrite forallb_forall in H.
  apply String.eqb_eq. apply H. now apply percentages_complete.
Qed.

(** X3.  When both files of [BAT0] open, [capacity] holding a whole
    percentage [c] between 0 and 100 and [status] a first line [state],
    the battery section is the title, the state, and a bar of 40 cells of
    which exactly [floor (40 * c / 100)] are filled, red below 30, yellow
    from 30 to 74 and green from 75, followed by [c] printed as [c.0%]:
    on whole percentages the single-precision arithmetic of the bar loses
    nothing. *)
Theorem showBattery_whole_percentage :
  forall (env : Env) (c : Z) (state capRest statusRest : string),
    0 <= c <= 100 ->
    no_digit_ahead capRest = true ->
    one_line state = true ->
    open_file env (batteryPath ++ "capacity") = Some (show_Z c ++ capRest) ->
    open_file env (batteryPath ++ "status")
    = Some (state ++ NL ++ statusRest) ->
    readBattery env
    = {| capacity := c; status := state; available := true |}
    /\ showBattery env
       = drawTitle "Battery" ++ state ++ NL
           ++ "[" ++ cells (filled_cell (batteryColor c))
                       (Z.to_nat (40 * c / 100))
           ++ cells empty_cell (Z.to_nat (40 - 40 * c / 100))
           ++ "] " ++ show_Z c ++ ".0%" ++ NL ++ NL.
Proof.
  intros env c state capRest statusRest Hc Hcap Hstate Hfc Hfs.
  assert (Hb : readBattery env
               = {| capacity := c; status := state; available := true |}).
  { unfold readBattery. rewrite Hfc, Hfs.
    rewrite extract_int_show_Z, first_line_line; try assumption;
      [reflexivity | unfold INT_MIN, INT_MAX; lia]. }
  split; [exact Hb |].
  unfold showBattery. rewrite Hb. cbn [available status capacity].
  rewrite (drawProgressBar_battery c Hc). unfold batteryBar.
  rewrite !append_assoc. reflexivity.
Qed.

(** The battery of [laptop_env] at 87 percent: 34 green cells of 40. *)
Lemma showBattery_whole_percentage_witness :
  0 <= 87 <= 100
  /\ open_file laptop_env (batteryPath ++ "capacity") = Some ("87" ++ NL)
  /\ open_file laptop_env (batteryPath ++ "status")
     = Some ("Discharging" ++ NL)
  /\ showBattery laptop_env
     = drawTitle "Battery" ++ "Discharging" ++ NL
         ++ "[" ++ cells (filled_cell GREEN) 34 ++ cells empty_cell 6
         ++ "] " ++ "87.0%" ++ NL ++ NL.
Proof.
  split; [lia | split; [reflexivity | split; [reflexivity |]]].
  destruct (showBattery_whole_percentage laptop_env 87 "Discharging" NL ""
              ltac:(lia) eq_refl eq_refl eq_refl eq_refl) as [_ H].
  exact H.
Defined.

(** ** Memory report *)

Lemma lacks_append (c : ascii) (a b : string) :
  lacks c (a ++ b) = lacks c a && lacks c b.
Proof.
  induction a as [|x a IH]; cbn [append lacks]; [reflexivity |].
  now rewrite IH, andb_assoc.
Qed.

Lemma string_of_uint_one_line (d : Decimal.uint) :
  one_line (NilEmpty.string_of_uint d) = true.
Proof.
  unfold one_line.
  induction d; cbn [NilEmpty.string_of_uint lacks]; try reflexivity;
    rewrite IHd; reflexivity.
Qed.

Lemma show_Z_one_line (z : Z) : one_line (show_Z z) = true.
Proof.
  unfold show_Z.
  destruct z as [|p|p]; cbn [Z.to_int NilZero.string_of_int];
    try reflexivity; unfold NilZero.string_of_uint;
    pose proof (string_of_uint_one_line (Pos.to_uint p)) as H;
    destruct (Pos.to_uint p); try reflexivity;
    try exact H; unfold one_line in *; cbn [lacks]; rewrite H; reflexivity.
Qed.

Lemma lines_unlines (ls : list string) :
  forallb one_line ls = true -> lines (unlines ls) = ls.
Proof.
  unfold lines, unlines.
  induction ls as [|l ls IH]; cbn [forallb map]; [reflexivity |].
  intros H. apply andb_true_iff in H. destruct H as [Hl Hls].
  destruct ls as [|l' ls'].
  - cbn [map String.concat].
    replace (l ++ NL) with (l ++ NL ++ "") by reflexivity.
    rewrite lines_from_line by assumption. reflexivity.
  - change (String.concat "" ((l ++ NL) :: map (fun l0 => l0 ++ NL) (l' :: ls')))
      with ((l ++ NL) ++ "" ++ String.concat "" (map (fun l0 => l0 ++ NL) (l' :: ls'))).
    cbn [append]. rewrite append_assoc.
    rewrite lines_from_line by assumption.
    cbn [append]. now rewrite (IH Hls).
Qed.

Lemma prefix_append (p s : string) : prefix p (p ++ s) = true.
Proof.
  induction p as [|c p IH]; cbn [append].
  - destruct s; reflexivity.
  - cbn [prefix].
    destruct (ascii_dec c c) as [_ | Hne]; [exact IH | congruence].
Qed.

Lemma find_prefix (p s : string) : prefix p s = true -> find p s = Some O.
Proof. intros H. destruct s; cbn [find]; now rewrite H. Qed.

(** Without the needle at its head, [find] does not answer position 0. *)
Lemma find_no_prefix {A : Type} (p s : string) (a b : A) :
  prefix p s = false ->
  match find p s with
  | Some O => a
  | _ => b
  end = b.
Proof.
  intros H. destruct s as [|c t]; cbn [find]; rewrite H; [reflexivity |].
  destruct (find p t); reflexivity.
Qed.

Lemma substr_from_append (p s : string) :
  substr_from (String.length p) (p ++ s) = s.
Proof.
  induction p as [|c p IH]; cbn [String.length append substr_from].
  - destruct s; reflexivity.
  - exact IH.
Qed.

Lemma stol_show_Z (ws rest : string) (v : Z) :
  blank ws = true -> fits_long v -> no_digit_ahead rest = true ->
  stol (ws ++ show_Z v ++ rest) = Some v.
Proof.
  intros Hws Hv Hrest.
  destruct (read_number_show_Z v rest Hrest) as (Hn & _ & Hs & _).
  unfold stol. rewrite skip_ws_blank, Hs, Hn by assumption.
  now rewrite (fits_long_leb v Hv).
Qed.

Lemma meminfoLine_other (l : string) (st : Z * Z) :
  otherLine l = true -> meminfoLine (Some st) l = Some st.
Proof.
  unfold otherLine. intros H.
  apply andb_true_iff in H. destruct H as [H Ha].
  apply andb_true_iff in H. destruct H as [_ Ht].
  apply negb_true_iff in Ha. apply negb_true_iff in Ht.
  destruct st as [t a]. unfold meminfoLine.
  rewrite (find_no_prefix _ _ _ _ Ht), (find_no_prefix _ _ _ _ Ha).
  reflexivity.
Qed.

Lemma meminfo_others (ls : list string) (st : Z * Z) :
  forallb otherLine ls = true ->
  fold_left meminfoLine ls (Some st) = Some st.
Proof.
  induction ls as [|l ls IH]; cbn [forallb fold_left]; [reflexivity |].
  intros H. apply andb_true_iff in H. destruct H as [Hl Hls].
  rewrite meminfoLine_other by assumption. now apply IH.
Qed.

Lemma meminfoLine_total (ws unit : string) (v t a : Z) :
  blank ws = true -> fits_long v -> no_digit_ahead unit = true ->
  meminfoLine (Some (t, a)) (meminfoEntry "MemTotal:" ws v unit)
  = Some (v, a).
Proof.
  intros Hws Hv Hunit. unfold meminfoLine, meminfoEntry.
  rewrite (find_prefix _ _ (prefix_append "MemTotal:" _)).
  change 9%nat with (String.length "MemTotal:").
  rewrite substr_from_append, stol_show_Z by assumption.
  rewrite find_no_prefix by reflexivity. reflexivity.
Qed.

Lemma meminfoLine_available (ws unit : string) (v t a : Z) :
  blank ws = true -> fits_long v -> no_digit_ahead unit = true ->
  meminfoLine (Some (t, a)) (meminfoEntry "MemAvailable:" ws v unit)
  = Some (t, v).
Proof.
  intros Hws Hv Hunit. unfold meminfoLine, meminfoEntry.
  rewrite (find_prefix _ _ (prefix_append "MemAvailable:" _)).
  change 13%nat with (String.length "MemAvailable:").
  rewrite substr_from_append, stol_show_Z by assumption.
  rewrite find_no_prefix by reflexivity. reflexivity.
Qed.

Lemma meminfoEntry_one_line (key ws unit : string) (v : Z) :
  one_line key = true -> one_line ws = true -> one_line unit = true ->
  one_line (meminfoEntry key ws v unit) = true.
Proof.
  intros Hk Hw Hu. unfold meminfoEntry, one_line in *.
  rewrite !lacks_append, Hk, Hw, Hu.
  pose proof (show_Z_one_line v) as Hv. unfold one_line in Hv.
  now rewrite Hv.
Qed.

Lemma otherLine_one_line (ls : list string) :
  forallb otherLine ls = true -> forallb one_line ls = true.
Proof.
  induction ls as [|l ls IH]; cbn [forallb]; [reflexivity |].
  intros H. apply andb_true_iff in H. destruct H as [Hl Hls].
  unfold otherLine in Hl.
  apply andb_true_iff in Hl. destruct Hl as [Hl _].
  apply andb_true_iff in Hl. destruct Hl as [Hl _].
  now rewrite Hl, IH.
Qed.

Lemma wrap64_small (z : Z) : LONG_MIN <= z <= LONG_MAX -> wrap64 z = z.
Proof.
  unfold wrap64, LONG_MIN, LONG_MAX. intros H.
  rewrite Z.mod_small by lia. lia.
Qed.

(** X4.  On a [/proc/meminfo] in the kernel's layout, a [MemTotal:] line
    and after it a [MemAvailable:] line among lines with other keys, the
    memory section reports [(total - available) / 1024] and
    [total / 1024] as megabytes and draws the bar of
    [100 * (total - available) / total], for a total above zero; the
    other lines do not matter. *)
Theorem showMemory_reads_meminfo :
  forall (env : Env) (before middle after : list string)
         (ws1 unit1 ws2 unit2 : string) (total available : Z),
    forallb otherLine (before ++ middle ++ after) = true ->
    blank ws1 && one_line ws1 && blank ws2 && one_line ws2 = true ->
    no_digit_ahead unit1 && one_line unit1
      && no_digit_ahead unit2 && one_line unit2 = true ->
    0 <= available <= total -> 0 < total <= LONG_MAX ->
    open_file env "/proc/meminfo"
    = Some (unlines (before
                       ++ meminfoEntry "MemTotal:" ws1 total unit1
                       :: middle
                       ++ meminfoEntry "MemAvailable:" ws2 available unit2
                       :: after)) ->
    readMeminfo (open_file env "/proc/meminfo") = Some (total, available)
    /\ showMemory env
       = Some (drawTitle "Memory"
                 ++ "Used: " ++ show_Z ((total - available) / 1024)
                 ++ " MB / " ++ show_Z (total / 1024) ++ " MB" ++ NL
                 ++ drawProgressBar
                      (F32.div (F32.mul F32.f100 (F32.of_Z (total - available)))
                               (F32.of_Z total)) 40 false
                 ++ NL ++ NL).
Proof.
  intros env before middle after ws1 unit1 ws2 unit2 total available
         Hother Hws Hunit Hav Htot Hfile.
  repeat (apply andb_true_iff in Hws; destruct Hws as [Hws ?]).
  repeat (apply andb_true_iff in Hunit; destruct Hunit as [Hunit ?]).
  rewrite !forallb_app in Hother.
  apply andb_true_iff in Hother. destruct Hother as [Hb Hother].
  apply andb_true_iff in Hother. destruct Hother as [Hm Ha].
  assert (Hft : fits_long total) by (unfold fits_long, LONG_MIN, LONG_MAX in *; lia).
  assert (Hfa : fits_long available)
    by (unfold fits_long, LONG_MIN, LONG_MAX in *; lia).
  assert (Hread : readMeminfo (open_file env "/proc/meminfo")
                  = Some (total, available)).
  { rewrite Hfile. unfold readMeminfo.
    rewrite lines_unlines.
    - rewrite fold_left_app, (meminfo_others before) by assumption.
      cbn [fold_left]. rewrite meminfoLine_total by assumption.
      rewrite fold_left_app, (meminfo_others middle) by assumption.
      cbn [fold_left]. rewrite meminfoLine_available by assumption.
      now apply meminfo_others.
    - rewrite forallb_app. cbn [forallb]. rewrite forallb_app. cbn [forallb].
      rewrite !otherLine_one_line by assumption.
      rewrite !meminfoEntry_one_line by (assumption || reflexivity).
      reflexivity. }
  split; [exact Hread |].
  unfold showMemory. rewrite Hread. unfold memPercent, sub64.
  rewrite wrap64_small by (unfold LONG_MIN, LONG_MAX in *; lia).
  rewrite !Z.quot_div_nonneg by lia. reflexivity.
Qed.

(** The memory of [laptop_env]: 8192000 kB available of 16384000 kB. *)
Lemma showMemory_reads_meminfo_witness :
  0 <= 8192000 <= 16384000 /\ 0 < 16384000 <= LONG_MAX
  /\ open_file laptop_env "/proc/meminfo" = Some laptop_meminfo
  /\ readMeminfo (open_file laptop_env "/proc/meminfo")
     = Some (16384000, 8192000).
Proof.
  split; [lia | split; [unfold LONG_MAX; lia | split; [reflexivity |]]].
  destruct (showMemory_reads_meminfo laptop_env
              [] ["MemFree:         1000000 kB"]
              ["Buffers:          300000 kB"]
              "       " " kB" "    " " kB" 16384000 8192000
              eq_refl eq_refl eq_refl ltac:(lia) ltac:(unfold LONG_MAX; lia)
              eq_refl) as [H _].
  exact H.
Defined.

Lemma meminfo_thrown (ls : list string) :
  fold_left meminfoLine ls None = None.
Proof. induction ls as [|l ls IH]; cbn [fold_left meminfoLine]; auto. Qed.

Lemma find_at_head (p s : string) :
  find p s = Some O <-> prefix p s = true.
Proof.
  split; [| apply find_prefix].
  destruct (prefix p s) eqn:Hp; [reflexivity |].
  destruct s as [|c t]; cbn [find]; rewrite Hp; [discriminate |].
  destruct (find p t); discriminate.
Qed.

(** X5.  [std::stol] throws when no number follows the key or when the
    number does not fit a [long], and nothing in [showMemory] catches it:
    one [MemTotal:] or [MemAvailable:] line like that, anywhere in
    [/proc/meminfo], and the section prints nothing and the exception
    leaves the function, whatever the other lines hold. *)
Theorem showMemory_throws_on_malformed_line :
  forall (env : Env) (text l : string),
    open_file env "/proc/meminfo" = Some text ->
    In l (lines text) ->
    (prefix "MemTotal:" l = true /\ stol (substr_from 9 l) = None)
    \/ (prefix "MemAvailable:" l = true /\ stol (substr_from 13 l) = None) ->
    showMemory env = None.
Proof.
  intros env text l Hfile Hin Hbad.
  unfold showMemory, readMeminfo. rewrite Hfile.
  apply in_split in Hin. destruct Hin as (l1 & l2 & ->).
  rewrite fold_left_app. cbn [fold_left].
  assert (Hl : meminfoLine (fold_left meminfoLine l1 (Some (0, 0))) l = None).
  { destruct (fold_left meminfoLine l1 (Some (0, 0))) as [[t a] |];
      [| reflexivity].
    unfold meminfoLine.
    destruct Hbad as [[Hp Hs] | [Hp Hs]];
      rewrite (find_prefix _ _ Hp), Hs.
    - reflexivity.
    - destruct (match find "MemTotal:" l with
                | Some O => stol (substr_from 9 l)
                | _ => Some t
                end); reflexivity. }
  rewrite Hl, meminfo_thrown. reflexivity.
Qed.

(** A [MemTotal:] line without a number, after a well-formed line. *)
Lemma showMemory_throws_on_malformed_line_witness :
  open_file garbled_env "/proc/meminfo" = Some garbled_meminfo
  /\ In "MemTotal: unknown" (lines garbled_meminfo)
  /\ stol (substr_from 9 "MemTotal: unknown") = None
  /\ showMemory garbled_env = None.
Proof.
  assert (Hin : In "MemTotal: unknown" (lines garbled_meminfo))
    by (right; left; reflexivity).
  split; [reflexivity | split; [exact Hin | split; [reflexivity |]]].
  exact (showMemory_throws_on_malformed_line garbled_env garbled_meminfo
           "MemTotal: unknown" eq_refl Hin (or_introl (conj eq_refl eq_refl))).
Defined.

(** ** Disk report *)

Lemma skip_ws_field (w rest : string) :
  field w = true -> skip_ws (w ++ rest) = w ++ rest.
Proof.
  intros Hw. destruct (field_inv w Hw) as (_ & c & t & -> & Hc).
  cbn [append skip_ws]. now rewrite Hc.
Qed.

Lemma separator_space_ahead (sep rest : string) :
  separator sep = true ->
  exists (c : ascii) (t : string), sep ++ rest = String c t /\ isspace c = true.
Proof.
  intros H. destruct (separator_inv sep H) as (_ & c & t & -> & Hc).
  now exists c, (t ++ rest).
Qed.

(** The second field of a line is its mount point. *)
Lemma mountpointOf_second_field (device s1 mountpoint s2 rest : string) :
  field device = true -> separator s1 = true ->
  field mountpoint = true -> separator s2 = true ->
  mountpointOf (device ++ s1 ++ mountpoint ++ s2 ++ rest) = mountpoint.
Proof.
  intros Hd Hs1 Hm Hs2. unfold mountpointOf, extract_word.
  rewrite skip_ws_field by assumption.
  rewrite read_word_field;
    [| now apply field_inv | now apply separator_space_ahead].
  destruct (separator_inv s1 Hs1) as (Hb1 & _).
  rewrite skip_ws_blank, skip_ws_field by assumption.
  rewrite read_word_field;
    [reflexivity | now apply field_inv | now apply separator_space_ahead].
Qed.

(** The report of a line whose second field is a mount point that is not
    skipped and whose [statvfs] succeeds with block counts that make
    sense. *)
Lemma diskEntry_report (env : Env) (device s1 mountpoint s2 rest : string)
      (st : statvfs_t) :
  field device && separator s1 && field mountpoint && separator s2 = true ->
  skipMount mountpoint = false ->
  statvfs env mountpoint = Some st ->
  0 <= f_bfree st <= f_blocks st ->
  0 < f_blocks st * f_frsize st < 2 ^ 64 ->
  diskEntry env (device ++ s1 ++ mountpoint ++ s2 ++ rest)
  = Reported
      (mountpoint ++ ": "
         ++ show_Z ((f_blocks st - f_bfree st) * f_frsize st / 1048576)
         ++ " MB / "
         ++ show_Z (f_blocks st * f_frsize st / 1048576)
         ++ " MB ("
         ++ show_fixed1
              (F32.div
                 (F32.mul F32.f100
                    (F32.of_Z ((f_blocks st - f_bfree st) * f_frsize st)))
                 (F32.of_Z (f_blocks st * f_frsize st)))
         ++ "%)" ++ NL).
Proof.
  intros Hline Hskip Hstat Hfree Hfit.
  assert (Hsize : 0 <= f_frsize st) by nia.
  do 3 (apply andb_true_iff in Hline; destruct Hline as [Hline ?]).
  unfold diskEntry.
  rewrite mountpointOf_second_field by assumption.
  rewrite Hskip, Hstat.
  assert (Ht : diskTotal st = f_blocks st * f_frsize st).
  { unfold diskTotal, wrapU64. apply Z.mod_small. nia. }
  assert (Hf : diskFree st = f_bfree st * f_frsize st).
  { unfold diskFree, wrapU64. apply Z.mod_small. nia. }
  assert (Hu : diskUsed st = (f_blocks st - f_bfree st) * f_frsize st).
  { unfold diskUsed, wrapU64. rewrite Ht, Hf.
    rewrite <- Z.mul_sub_distr_r. apply Z.mod_small. nia. }
  unfold diskPercent. rewrite Hu, Ht. reflexivity.
Qed.

(** X6.  When the loop of [showDisk] reaches a line of [/proc/mounts]
    whose second field is a mount point that is not skipped and whose
    [statvfs] succeeds with block counts that make sense (free blocks no
    more than blocks, a size above zero and below [2^64]), the disk
    section holds, between the reports of the lines before and those of
    the lines after, one line with the mount point, the used space
    [(f_blocks - f_bfree) * f_frsize] and the total space
    [f_blocks * f_frsize], each in whole mebibytes, and the percentage
    [100 * used / total] with one decimal.  The device, the file system
    type and the options of the line are not looked at. *)
Theorem showDisk_reports_usage :
  forall (env : Env) (text : string) (before after : list string)
         (device s1 mountpoint s2 rest : string) (st : statvfs_t),
    open_file env "/proc/mounts" = Some text ->
    lines text
    = (before
         ++ (device ++ s1 ++ mountpoint ++ s2 ++ rest)%string :: after)%list ->
    field device && separator s1 && field mountpoint && separator s2 = true ->
    skipMount mountpoint = false ->
    statvfs env mountpoint = Some st ->
    0 <= f_bfree st <= f_blocks st ->
    0 < f_blocks st * f_frsize st < 2 ^ 64 ->
    showDisk env
    = drawTitle "Disks"
        ++ mountReports env before
        ++ (mountpoint ++ ": "
              ++ show_Z ((f_blocks st - f_bfree st) * f_frsize st / 1048576)
              ++ " MB / "
              ++ show_Z (f_blocks st * f_frsize st / 1048576)
              ++ " MB ("
              ++ show_fixed1
                   (F32.div
                      (F32.mul F32.f100
                         (F32.of_Z ((f_blocks st - f_bfree st) * f_frsize st)))
                      (F32.of_Z (f_blocks st * f_frsize st)))
              ++ "%)" ++ NL)
        ++ mountReports env after
        ++ NL.
Proof.
  intros env text before after device s1 mountpoint s2 rest st
         Hfile Hlines Hline Hskip Hstat Hfree Hfit.
  rewrite (showDisk_line env text before after _ Hfile Hlines).
  rewrite (diskEntry_report env device s1 mountpoint s2 rest st)
    by assumption.
  reflexivity.
Qed.

(** The mounts of [laptop_env]: the root file system, 750000 blocks of
    4096 bytes used of 1000000, is reported; [/proc], on which [statvfs]
    fails, and [/dev/shm], which is skipped, are not. *)
Lemma showDisk_reports_usage_witness :
  open_file laptop_env "/proc/mounts" = Some laptop_mounts
  /\ skipMount "/" = false
  /\ statvfs laptop_env "/" = Some laptop_root
  /\ showDisk laptop_env
     = drawTitle "Disks" ++ "/: 2929 MB / 3906 MB (75.0%)" ++ NL ++ NL.
Proof.
  split; [reflexivity | split; [reflexivity | split; [reflexivity |]]].
  exact (showDisk_reports_usage laptop_env laptop_mounts []
           ["proc /proc proc rw 0 0"; "tmpfs /dev/shm tmpfs rw 0 0"]
           "/dev/sda1" " " "/" " " "ext4 rw,relatime 0 0" laptop_root
           eq_refl eq_refl eq_refl eq_refl eq_refl
           ltac:(cbn; lia) ltac:(cbn; lia)).
Defined.
(** ** Network report *)

Lemma read_until_delim (d : ascii) (name rest : string) :
  lacks d name = true ->
  read_until d (name ++ String d rest) = (name, rest, true).
Proof.
  induction name as [|c t IH]; cbn [lacks append read_until]; intros H.
  - now rewrite Ascii.eqb_refl.
  - apply andb_true_iff in H. destruct H as [Hc Ht].
    apply negb_true_iff in Hc. rewrite Hc, (IH Ht). reflexivity.
Qed.

Lemma getline_delim (d : ascii) (name rest old : string) :
  lacks d name = true ->
  getline (istringstream (name ++ String d rest)) d old
  = (istringstream rest, name).
Proof.
  intros H. unfold getline, istringstream, good.
  cbn [is_buf is_eof is_fail negb andb].
  destruct (name ++ String d rest) as [|c t] eqn:Hs.
  - destruct name; discriminate Hs.
  - rewrite <- Hs, read_until_delim by assumption. reflexivity.
Qed.

(** The report of a line with a name before the first colon and eight or
    more numbers after it. *)
Lemma netLine_report (name s1 s2 s3 s4 s5 s6 s7 s8 rest : string)
      (f1 f2 f3 f4 f5 f6 f7 f8 rx0 tx0 : Z) :
  lacks ":" name = true ->
  blank s1 = true ->
  forallb separator [s2; s3; s4; s5; s6; s7; s8] = true ->
  Forall fits_long [f1; f2; f3; f4; f5; f6; f7; f8] ->
  no_digit_ahead rest = true ->
  netLine (name ++ ":" ++ s1 ++ show_Z f1 ++ s2 ++ show_Z f2
             ++ s3 ++ show_Z f3 ++ s4 ++ show_Z f4 ++ s5 ++ show_Z f5
             ++ s6 ++ show_Z f6 ++ s7 ++ show_Z f7 ++ s8 ++ show_Z f8
             ++ rest) rx0 tx0
  = remove_spaces name ++ " " ++ ARROW
      ++ " RX: " ++ show_Z (Z.quot f1 1024)
      ++ " KB, TX: " ++ show_Z (Z.quot f8 1024) ++ " KB" ++ NL.
Proof.
  intros Hname Hs1 Hseps Hfit Hrest.
  cbn [forallb] in Hseps.
  repeat (apply andb_true_iff in Hseps;
          let H := fresh "Hs" in destruct Hseps as [H Hseps]).
  repeat match goal with
         | H : Forall _ (_ :: _) |- _ => inversion_clear H
         end.
  unfold netLine.
  change (":" ++ ?x) with (String ":" x).
  rewrite getline_delim by assumption.
  cbn [skipFields].
  repeat
    (rewrite get_long_show_Z;
     [ rewrite ?behind_good by now apply separator_not_end
     | first [assumption | now apply separator_inv]
     | assumption
     | first [now apply separator_no_digit | assumption] ]).
  reflexivity.
Qed.

Lemma netLines_app (indet : nat -> Z * Z) (l1 l2 : list string) :
  forall i : nat,
    netLines indet i (l1 ++ l2)
    = netLines indet i l1 ++ netLines indet (i + List.length l1) l2.
Proof.
  induction l1 as [|l l1 IH]; intros i; cbn [app netLines List.length].
  - now rewrite Nat.add_0_r.
  - rewrite IH, append_assoc. do 3 f_equal. lia.
Qed.

(** X7.  [showNetwork] never reports on the first two lines of
    [/proc/net/dev], whatever they hold, and reports on every line after
    them in turn.  When the loop reaches a line with a name before the
    first colon and eight or more numbers after it, the section holds,
    between the reports of the lines before and those of the lines
    after, the name with its spaces removed, the first number divided by
    1024 as RX and the eighth number divided by 1024 as TX: the seven
    extractions of the loop of line 327 end on the eighth number of the
    line.  The WiFi part and the closing newline follow. *)
Theorem showNetwork_reports_first_and_eighth :
  forall (indet : nat -> Z * Z) (env : Env) (iwconfig : option string)
         (text h1 h2 : string) (before after : list string)
         (name s1 s2 s3 s4 s5 s6 s7 s8 rest : string)
         (f1 f2 f3 f4 f5 f6 f7 f8 : Z),
    open_file env "/proc/net/dev" = Some text ->
    lines text
    = (h1 :: h2 :: before
         ++ (name ++ ":" ++ s1 ++ show_Z f1 ++ s2 ++ show_Z f2
               ++ s3 ++ show_Z f3 ++ s4 ++ show_Z f4 ++ s5 ++ show_Z f5
               ++ s6 ++ show_Z f6 ++ s7 ++ show_Z f7 ++ s8 ++ show_Z f8
               ++ rest)%string
         :: after)%list ->
    lacks ":" name = true ->
    blank s1 = true ->
    forallb separator [s2; s3; s4; s5; s6; s7; s8] = true ->
    Forall fits_long [f1; f2; f3; f4; f5; f6; f7; f8] ->
    no_digit_ahead rest = true ->
    showNetwork indet env iwconfig
    = drawTitle "Network"
        ++ netLines indet 0 before
        ++ (remove_spaces name ++ " " ++ ARROW
              ++ " RX: " ++ show_Z (Z.quot f1 1024)
              ++ " KB, TX: " ++ show_Z (Z.quot f8 1024) ++ " KB" ++ NL)
        ++ netLines indet (S (List.length before)) after
        ++ showWifi iwconfig
        ++ NL.
Proof.
  intros indet env iwconfig text h1 h2 before after
         name s1 s2 s3 s4 s5 s6 s7 s8 rest f1 f2 f3 f4 f5 f6 f7 f8
         Hfile Hlines Hname Hs1 Hseps Hfit Hrest.
  unfold showNetwork. rewrite Hfile, Hlines. cbn [skipn].
  rewrite netLines_app. cbn [netLines Nat.add].
  rewrite netLine_report by assumption.
  rewrite !append_assoc. reflexivity.
Qed.

(** The interfaces of [laptop_env]: the two header lines are passed over
    and [eth0] is reported; its eighth number is 7, the ninth, 2097152,
    is not reached. *)
Lemma showNetwork_reports_first_and_eighth_witness :
  open_file laptop_env "/proc/net/dev" = Some laptop_netdev
  /\ Forall fits_long [1048576; 100; 0; 0; 0; 0; 0; 7]
  /\ showNetwork (fun _ => (0, 0)) laptop_env (Some laptop_iwconfig)
     = drawTitle "Network"
         ++ "eth0 " ++ ARROW ++ " RX: 1024 KB, TX: 0 KB" ++ NL
         ++ NL ++ "WiFi Signal: Signal level=-40 dBm" ++ NL
         ++ NL.
Proof.
  assert (H : Forall fits_long [1048576; 100; 0; 0; 0; 0; 0; 7])
    by (unfold fits_long, LONG_MIN, LONG_MAX; repeat constructor; lia).
  split; [reflexivity | split; [exact H |]].
  exact (showNetwork_reports_first_and_eighth
           (fun _ => (0, 0)) laptop_env (Some laptop_iwconfig) laptop_netdev
           "Inter-|   Receive                |  Transmit"
           " face |bytes    packets errs drop|bytes    packets errs drop"
           [] []
           "  eth0" " " " " " " " " " " " " " " " " " 2097152 50 0 0 0 0 0 0"
           1048576 100 0 0 0 0 0 7 eq_refl eq_refl eq_refl eq_refl eq_refl H
           eq_refl).
Defined.

Lemma fgets_from_line (l rest : string) :
  one_line l = true ->
  forall (room : nat) (acc : string),
    (String.length l < room)%nat ->
    fgets_from room acc (l ++ NL ++ rest)
    = (acc ++ l ++ NL) :: fgets_from 255 "" rest.
Proof.
  unfold one_line. induction l as [|c t IH]; intros Hl room acc Hroom.
  - cbn [append fgets_from NL].
    change (is_newline (ascii_of_nat 10)) with true. reflexivity.
  - cbn [lacks] in Hl. apply andb_true_iff in Hl. destruct Hl as [Hc Hl].
    cbn [String.length] in Hroom. cbn [append fgets_from].
    replace (is_newline c) with false.
    + replace (room =? 1)%nat with false by (symmetry; apply Nat.eqb_neq; lia).
      cbn [orb]. rewrite (IH Hl) by lia.
      now rewrite append_assoc.
    + apply negb_true_iff in Hc. unfold is_newline.
      destruct (Nat.eqb_spec (nat_of_ascii c) 10) as [He | Hne];
        [| reflexivity].
      apply (f_equal ascii_of_nat) in He. rewrite ascii_nat_embedding in He.
      subst c. discriminate Hc.
Qed.

Lemma c_string_id (s : string) : lacks zero s = true -> c_string s = s.
Proof.
  induction s as [|c t IH]; cbn [lacks c_string]; [reflexivity |].
  intros H. apply andb_true_iff in H. destruct H as [Hc Ht].
  apply negb_true_iff in Hc. now rewrite Hc, IH.
Qed.

(** The marker cannot begin on the newline that ends a line. *)
Lemma prefix_marker_newline (p l : string) :
  one_line p = true -> p <> "" ->
  prefix p (l ++ NL) = prefix p l.
Proof.
  unfold one_line. revert l.
  induction p as [|a p IH]; intros l Hp Hne; [congruence |].
  cbn [lacks] in Hp. apply andb_true_iff in Hp. destruct Hp as [Ha Hp].
  destruct l as [|c t]; cbn [append prefix NL].
  - destruct (ascii_dec a (ascii_of_nat 10)) as [-> | _];
      [discriminate Ha | reflexivity].
  - destruct (ascii_dec a c) as [_ | _]; [| reflexivity].
    destruct p as [|b p'].
    + destruct (t ++ NL); destruct t; reflexivity.
    + apply IH; [exact Hp | discriminate].
Qed.

Lemma find_marker_newline (p l : string) :
  one_line p = true -> p <> "" ->
  find p (l ++ NL) = find p l.
Proof.
  intros Hp Hne. induction l as [|c t IH].
  - pose proof (prefix_marker_newline p "" Hp Hne) as H0.
    cbn [append] in *. change NL with (String (ascii_of_nat 10) "") in *.
    cbn [find]. rewrite H0.
    destruct p as [|a p']; [congruence |]. reflexivity.
  - cbn [append find].
    change (String c (t ++ NL)) with (String c t ++ NL).
    rewrite (prefix_marker_newline p (String c t) Hp Hne), IH. reflexivity.
Qed.

Lemma find_within (p l : string) (n : nat) :
  find p l = Some n -> (n <= String.length l)%nat.
Proof.
  revert n. induction l as [|c t IH]; intros n; cbn [find String.length].
  - destruct (prefix p ""); [intros [= <-]; lia | discriminate].
  - destruct (prefix p (String c t)); [intros [= <-]; lia |].
    destruct (find p t) as [m |]; [| discriminate].
    cbn [option_map]. intros [= <-]. specialize (IH m eq_refl). lia.
Qed.

Lemma substr_from_app (n : nat) (l rest : string) :
  (n <= String.length l)%nat ->
  substr_from n (l ++ rest) = substr_from n l ++ rest.
Proof.
  revert n. induction l as [|c t IH]; intros n Hn; cbn [String.length] in Hn.
  - assert (n = O) by lia. subst n. destruct rest; reflexivity.
  - destruct n as [|n]; [reflexivity |].
    cbn [append substr_from]. apply IH. lia.
Qed.

Lemma wifiLine_short (l : string) :
  shortLine l = true -> wifiLine (l ++ NL) = wifiReport l.
Proof.
  unfold shortLine. intros H.
  apply andb_true_iff in H. destruct H as [H _].
  apply andb_true_iff in H. destruct H as [_ Hz].
  unfold wifiLine, wifiReport.
  rewrite c_string_id by (rewrite lacks_append, Hz; reflexivity).
  rewrite find_marker_newline by (reflexivity || discriminate).
  destruct (find SIGNAL_LEVEL l) as [pos |] eqn:Hf; [| reflexivity].
  now rewrite (substr_from_app pos l NL (find_within _ _ _ Hf)).
Qed.

Lemma find_marker_head (p l : string) (n : nat) :
  find p l = Some n -> prefix p (substr_from n l) = true.
Proof.
  revert n. induction l as [|c t IH]; intros n; cbn [find].
  - destruct (prefix p "") eqn:Hp; [intros [= <-]; exact Hp | discriminate].
  - destruct (prefix p (String c t)) eqn:Hp; [intros [= <-]; exact Hp |].
    destruct (find p t) as [m |]; [| discriminate].
    cbn [option_map]. intros [= <-]. cbn [substr_from]. now apply IH.
Qed.

(** X8.  When the output of [iwconfig] is made of lines that fit the
    buffer of 256 characters, the WiFi part of the report has one entry
    for every line that holds [Signal level=], in the order of the
    lines: a newline, [WiFi Signal: ] and the line from its first
    [Signal level=] to its end.  Lines without the marker print nothing,
    and when [popen] fails nothing is printed at all. *)
Theorem showWifi_reports_every_match :
  forall ls : list string,
    forallb shortLine ls = true ->
    showWifi (Some (unlines ls)) = String.concat "" (map wifiReport ls)
    /\ (forall (l : string) (pos : nat),
           find SIGNAL_LEVEL l = Some pos ->
           prefix SIGNAL_LEVEL (substr_from pos l) = true
           /\ wifiReport l = NL ++ "WiFi Signal: " ++ substr_from pos l ++ NL)
    /\ (forall l : string, find SIGNAL_LEVEL l = None -> wifiReport l = "")
    /\ showWifi None = "".
Proof.
  intros ls Hls. split; [| split; [| split]].
  - unfold showWifi, unlines. f_equal.
    induction ls as [|l ls IH]; [reflexivity |].
    cbn [forallb] in Hls. apply andb_true_iff in Hls.
    destruct Hls as [Hl Hls].
    assert (Hshort := Hl). unfold shortLine in Hl.
    apply andb_true_iff in Hl. destruct Hl as [Hl Hlen].
    apply andb_true_iff in Hl. destruct Hl as [Hone _].
    apply Nat.ltb_lt in Hlen.
    assert (Hcat : String.concat "" (map (fun l0 => l0 ++ NL) (l :: ls))
                   = l ++ NL ++ String.concat "" (map (fun l0 => l0 ++ NL) ls)).
    { cbn [map]. destruct ls as [|l' ls'].
      - cbn [map String.concat]. reflexivity.
      - change (String.concat "" ((l ++ NL) :: map (fun l0 => l0 ++ NL) (l' :: ls')))
          with ((l ++ NL) ++ "" ++ String.concat "" (map (fun l0 => l0 ++ NL) (l' :: ls'))).
        cbn [append]. now rewrite append_assoc. }
    rewrite Hcat, fgets_from_line by (assumption || lia).
    cbn [append map]. rewrite wifiLine_short by assumption.
    now rewrite (IH Hls).
  - intros l pos Hf. split; [now apply find_marker_head |].
    unfold wifiReport. now rewrite Hf.
  - intros l Hf. unfold wifiReport. now rewrite Hf.
  - reflexivity.
Qed.

(** The output of [iwconfig] on the laptop: one line holds the marker. *)
Lemma showWifi_reports_every_match_witness :
  forallb shortLine
    ["wlan0     IEEE 802.11  ESSID:off/any";
     "          Link Quality=70/70  Signal level=-40 dBm"] = true
  /\ showWifi (Some laptop_iwconfig)
     = NL ++ "WiFi Signal: Signal level=-40 dBm" ++ NL.
Proof.
  split; [reflexivity |].
  destruct (showWifi_reports_every_match
              ["wlan0     IEEE 802.11  ESSID:off/any";
               "          Link Quality=70/70  Signal level=-40 dBm"]
              eq_refl) as [H _].
  exact H.
Defined.

(** ** Main loop *)

Lemma waitLoop_enter (n : nat) :
  forall (before : list (option ascii)) (c : ascii) (after : list (option ascii)),
    forallb no_enter before = true -> is_enter c = true ->
    (List.length before < n)%nat ->
    waitLoop n (before ++ Some c :: after) = Enter after.
Proof.
  induction n as [|n IH]; intros before c after Hb Hc Hn; [lia |].
  destruct before as [|r before]; cbn [app waitLoop].
  - now rewrite Hc.
  - cbn [forallb List.length] in Hb, Hn.
    apply andb_true_iff in Hb. destruct Hb as [Hr Hb].
    destruct r as [k |]; cbn [no_enter] in Hr.
    + apply negb_true_iff in Hr. rewrite Hr. apply IH; [assumption .. | lia].
    + apply IH; [assumption .. | lia].
Qed.

Lemma waitLoop_elapsed (n : nat) :
  forall before rest : list (option ascii),
    forallb no_enter before = true -> List.length before = n ->
    waitLoop n (before ++ rest) = Elapsed rest.
Proof.
  induction n as [|n IH]; intros before rest Hb Hn.
  - destruct before; [reflexivity | discriminate Hn].
  - destruct before as [|r before]; [discriminate Hn |].
    cbn [forallb List.length] in Hb, Hn. cbn [app waitLoop].
    apply andb_true_iff in Hb. destruct Hb as [Hr Hb].
    destruct r as [k |]; cbn [no_enter] in Hr.
    + apply negb_true_iff in Hr. rewrite Hr. apply IH; [assumption | lia].
    + apply IH; [assumption | lia].
Qed.

(** What a wait that ends has read. *)
Lemma waitLoop_inv (n : nat) :
  forall reads : list (option ascii),
    match waitLoop n reads with
    | Enter unread =>
        exists (before : list (option ascii)) (c : ascii),
          reads = (before ++ Some c :: unread)%list
          /\ forallb no_enter before = true /\ is_enter c = true
          /\ (List.length before < n)%nat
    | Elapsed unread =>
        exists before : list (option ascii),
          reads = (before ++ unread)%list
          /\ forallb no_enter before = true /\ List.length before = n
    | Pending => forallb no_enter reads = true /\ (List.length reads < n)%nat
    end.
Proof.
  induction n as [|n IH]; intros reads; cbn [waitLoop].
  - exists []. repeat split.
  - destruct reads as [|r rest]; [split; [reflexivity | cbn; lia] |].
    assert (Hgo : no_enter r = true ->
                  match waitLoop n rest with
                  | Enter unread =>
                      exists (before : list (option ascii)) (c : ascii),
                        r :: rest = (before ++ Some c :: unread)%list
                        /\ forallb no_enter before = true /\ is_enter c = true
                        /\ (List.length before < S n)%nat
                  | Elapsed unread =>
                      exists before : list (option ascii),
                        r :: rest = (before ++ unread)%list
                        /\ forallb no_enter before = true
                        /\ List.length before = S n
                  | Pending =>
                      forallb no_enter (r :: rest) = true
                      /\ (List.length (r :: rest) < S n)%nat
                  end).
    { intros Hr. specialize (IH rest).
      destruct (waitLoop n rest) as [unread | unread |].
      - destruct IH as (before & c & -> & Hb & Hc & Hl).
        exists (r :: before), c. cbn [app forallb List.length].
        rewrite Hr, Hb. repeat split; [assumption | lia].
      - destruct IH as (before & -> & Hb & Hl).
        exists (r :: before). cbn [app forallb List.length].
        rewrite Hr, Hb, Hl. repeat split.
      - destruct IH as [Hb Hl]. cbn [forallb List.length].
        rewrite Hr, Hb. split; [reflexivity | lia]. }
    destruct r as [c |]; [| now apply Hgo].
    destruct (is_enter c) eqn:Hc.
    + exists [], c. repeat split; [assumption | cbn; lia].
    + apply Hgo. cbn [no_enter]. now rewrite Hc.
Qed.

Lemma mainLoop_enter (worlds : list World) :
  forall (before : list (option ascii)) (c : ascii)
         (after : list (option ascii)) (cpu : cpu_state) (nb : nb_static)
         (t : Terminal) (out : string) (tr : list syscall) (text : string),
    forallb no_enter before = true -> is_enter c = true ->
    (List.length before / 10 < List.length worlds)%nat ->
    screens (firstn (S (List.length before / 10)) worlds) cpu = Some text ->
    mainLoop worlds (before ++ Some c :: after) cpu nb t out tr
    = returned nb t (out ++ text) tr after.
Proof.
  induction worlds as [|w later IH];
    intros before c after cpu nb t out tr text Hb Hc Hlen Hscr;
    [cbn [List.length] in Hlen; lia |].
  cbn [firstn screens] in Hscr. cbn [mainLoop].
  destruct (refresh w cpu) as [[cpu1 text1] |]; [| discriminate Hscr].
  destruct (Nat.lt_ge_cases (List.length before) 10) as [Hlt | Hge].
  - rewrite waitLoop_enter by assumption.
    rewrite (Nat.div_small _ _ Hlt) in Hscr. cbn [firstn screens] in Hscr.
    cbn [option_map] in Hscr. injection Hscr as <-.
    now rewrite append_nil_r.
  - rewrite <- (firstn_skipn 10 before) in Hb |- *.
    rewrite forallb_app in Hb. apply andb_true_iff in Hb.
    destruct Hb as [Hb1 Hb2].
    rewrite <- app_assoc.
    rewrite waitLoop_elapsed
      by first [assumption | now rewrite firstn_length_le].
    assert (Hdiv : (List.length before / 10
                    = S (List.length (skipn 10 before) / 10))%nat).
    { rewrite length_skipn.
      replace (List.length before)
        with (1 * 10 + (List.length before - 10))%nat at 1 by lia.
      rewrite Nat.div_add_l by lia. reflexivity. }
    rewrite Hdiv in Hscr, Hlen.
    cbn [List.length] in Hlen.
    destruct (screens (firstn (S (List.length (skipn 10 before) / 10)) later)
                cpu1) as [text2 |] eqn:Hs2; [| discriminate Hscr].
    cbn [option_map] in Hscr. injection Hscr as <-.
    rewrite (IH (skipn 10 before) c after cpu1 nb t (out ++ text1) tr text2);
      try assumption; [| lia].
    now rewrite append_assoc.
Qed.

(** X9.  [main] returns, with exit code 0, at the first [read] that
    delivers a newline or a carriage return, provided no sampler throws
    before: with [k] reads before it, none of them Enter, it has drawn
    [k / 10 + 1] screens after the prompt, and it has put the terminal
    attributes of start-up back, cleared [O_NONBLOCK], and read the
    attributes once and nothing after Enter.  Any other byte and any
    [read] that delivers nothing only lets the wait go on. *)
Theorem main_returns_on_enter :
  forall (worlds : list World) (before : list (option ascii)) (c : ascii)
         (after : list (option ascii)) (t0 : Terminal) (text : string),
    forallb no_enter before = true ->
    is_enter c = true ->
    (List.length before / 10 < List.length worlds)%nat ->
    screens (firstn (S (List.length before / 10)) worlds) cpu_init
    = Some text ->
    let r := main worlds (before ++ Some c :: after) t0 in
    r_outcome r = Returned 0
    /\ r_output r = PROMPT ++ text
    /\ r_unread r = after
    /\ term_attr (r_terminal r) = term_attr t0
    /\ term_flags (r_terminal r) = Z.land (term_flags t0) (Z.lnot O_NONBLOCK)
    /\ saves (r_trace r) = 1%nat.
Proof.
  intros worlds before c after t0 text Hb Hc Hlen Hscr r. subst r.
  unfold main. cbn [setNonBlocking nb_init saved negb oldt app].
  rewrite (mainLoop_enter worlds before c after _ _ _ _ _ text)
    by assumption.
  unfold returned. cbn [setNonBlocking saved oldt term_flags term_attr].
  cbn [r_outcome r_output r_unread r_terminal r_trace term_attr term_flags].
  repeat split. apply land_lor_lnot.
Qed.

(** Twelve reads on the laptop, the last one a carriage return: two
    screens are drawn, and the terminal is cooked again. *)
Lemma main_returns_on_enter_witness :
  is_enter (ascii_of_nat 13) = true
  /\ screens [laptop; laptop] cpu_init <> None
  /\ (let r := main [laptop; laptop; laptop]
                 (repeat None 10 ++ [Some "q"%char]
                    ++ Some (ascii_of_nat 13) :: [Some "x"%char])
                 cooked_tty in
      r_outcome r = Returned 0
      /\ r_unread r = [Some "x"%char]
      /\ r_terminal r = cooked_tty).
Proof.
  split; [reflexivity |].
  destruct (screens [laptop; laptop] cpu_init) as [text |] eqn:Hs;
    [| vm_compute in Hs; discriminate Hs].
  split; [discriminate |].
  destruct (main_returns_on_enter [laptop; laptop; laptop]
              (repeat None 10 ++ [Some "q"%char]) (ascii_of_nat 13)
              [Some "x"%char] cooked_tty text eq_refl eq_refl
              ltac:(cbn; lia) Hs)
    as (H1 & _ & H3 & H4 & H5 & _).
  rewrite <- app_assoc in H1, H3, H4, H5.
  cbv zeta. split; [exact H1 | split; [exact H3 |]].
  destruct (r_terminal _) as [a f]. cbn [term_attr term_flags] in H4, H5.
  now rewrite H4, H5.
Defined.

(** While the loop has not returned it has not touched the terminal; when
    it returns it has read Enter and called [setNonBlocking(false)]. *)
Lemma mainLoop_inv (worlds : list World) :
  forall (reads : list (option ascii)) (cpu : cpu_state) (nb : nb_static)
         (t : Terminal) (out : string) (tr : list syscall),
    let r := mainLoop worlds reads cpu nb t out tr in
    match r_outcome r with
    | Returned code =>
        code = 0
        /\ (exists (before : list (option ascii)) (c : ascii),
               reads = (before ++ Some c :: r_unread r)%list
               /\ forallb no_enter before = true /\ is_enter c = true)
        /\ (r_static r, r_terminal r, r_trace r)
           = (let '(nb1, t1, tr1) := setNonBlocking false nb t in
              (nb1, t1, (tr ++ tr1)%list))
    | _ => r_static r = nb /\ r_terminal r = t /\ r_trace r = tr
    end.
Proof.
  induction worlds as [|w later IH]; intros reads cpu nb t out tr;
    cbn [mainLoop].
  - cbn. repeat split.
  - destruct (refresh w cpu) as [[cpu1 text] |]; [| cbn; repeat split].
    pose proof (waitLoop_inv 10 reads) as Hw.
    destruct (waitLoop 10 reads) as [unread | unread |].
    + destruct Hw as (before & c & -> & Hb & Hc & _).
      destruct (setNonBlocking false nb t) as [[nb1 t1] tr1].
      cbn [r_outcome r_unread r_static r_terminal r_trace].
      repeat split. now exists before, c.
    + destruct Hw as (before & -> & Hb & _).
      specialize (IH unread cpu1 nb t (out ++ text) tr). cbv zeta in IH.
      destruct (r_outcome (mainLoop later unread cpu1 nb t (out ++ text) tr));
        try exact IH.
      destruct IH as (Hcode & (before2 & c & Hreads & Hb2 & Hc) & Hterm).
      repeat split; try assumption.
      exists (before ++ before2)%list, c.
      rewrite forallb_app, Hb, Hb2, <- app_assoc, <- Hreads.
      repeat split. assumption.
    + cbn. repeat split.
Qed.

(** X10.  [main] returns only after a [read] has delivered a newline or a
    carriage return, and then with exit code 0 and the terminal
    attributes of start-up.  In every other case, terminated by an
    exception or still running, it has made no system call on the
    terminal since start-up and the terminal is as [setNonBlocking(true)]
    left it: without canonical mode and echo, and non-blocking. *)
Theorem main_restores_terminal_only_on_return :
  forall (worlds : list World) (reads : list (option ascii)) (t0 : Terminal),
    let r := main worlds reads t0 in
    match r_outcome r with
    | Returned code =>
        code = 0
        /\ (exists (before : list (option ascii)) (c : ascii),
               reads = (before ++ Some c :: r_unread r)%list
               /\ forallb no_enter before = true /\ is_enter c = true)
        /\ term_attr (r_terminal r) = term_attr t0
        /\ term_flags (r_terminal r)
           = Z.land (term_flags t0) (Z.lnot O_NONBLOCK)
    | _ => r_terminal r = rawTerminal t0 /\ r_trace r = rawTrace t0
    end.
Proof.
  intros worlds reads t0 r. subst r. unfold main.
  cbn [setNonBlocking nb_init saved negb oldt app].
  match goal with
  | |- context [mainLoop worlds reads ?cpu ?nb ?t ?out ?tr] =>
      pose proof (mainLoop_inv worlds reads cpu nb t out tr) as H;
      cbv zeta in H;
      destruct (mainLoop worlds reads cpu nb t out tr)
        as [o output nb1 t1 tr1 unread]
  end.
  cbn [r_outcome r_static r_terminal r_trace r_unread] in *.
  destruct o as [code | |].
  - destruct H as (Hcode & Hread & Hterm).
    cbn [setNonBlocking saved oldt term_flags term_attr] in Hterm.
    injection Hterm as _ -> _.
    cbn [term_attr term_flags].
    repeat split; try assumption. apply land_lor_lnot.
  - destruct H as (_ & -> & ->). split; reflexivity.
  - destruct H as (_ & -> & ->). split; reflexivity.
Qed.

Lemma mainLoop_thrown (ok : list World) :
  forall (w : World) (later : list World)
         (before rest : list (option ascii)) (cpu : cpu_state)
         (nb : nb_static) (t : Terminal) (out : string) (tr : list syscall)
         (text : string),
    screens ok cpu = Some text ->
    screens (ok ++ [w]) cpu = None ->
    forallb no_enter before = true ->
    List.length before = (10 * List.length ok)%nat ->
    mainLoop (ok ++ w :: later) (before ++ rest) cpu nb t out tr
    = {| r_outcome := Terminated; r_output := out ++ text; r_static := nb;
         r_terminal := t; r_trace := tr; r_unread := rest |}.
Proof.
  induction ok as [|w0 ok IH];
    intros w later before rest cpu nb t out tr text Hok Hbad Hb Hlen.
  - cbn [app screens] in *. injection Hok as <-.
    destruct before; [| discriminate Hlen].
    cbn [app mainLoop].
    destruct (refresh w cpu) as [[cpu1 text1] |]; [discriminate Hbad |].
    now rewrite append_nil_r.
  - cbn [app screens mainLoop] in *.
    destruct (refresh w0 cpu) as [[cpu1 text1] |]; [| discriminate Hok].
    destruct (screens ok cpu1) as [text2 |] eqn:Hs2; [| discriminate Hok].
    cbn [option_map] in Hok. injection Hok as <-.
    destruct (screens (ok ++ [w]) cpu1) as [text3 |] eqn:Hs3;
      [discriminate Hbad |].
    cbn [List.length] in Hlen.
    rewrite <- (firstn_skipn 10 before) in Hb |- *.
    rewrite forallb_app in Hb. apply andb_true_iff in Hb.
    destruct Hb as [Hb1 Hb2].
    rewrite <- app_assoc.
    rewrite waitLoop_elapsed
      by first [assumption | rewrite firstn_length_le; [reflexivity | lia]].
    rewrite (IH w later (skipn 10 before) rest cpu1 nb t (out ++ text1) tr
               text2); try assumption.
    + now rewrite append_assoc.
    + rewrite length_skipn. lia.
Qed.

Lemma refresh_throws (w : World) (cpu : cpu_state) :
  showMemory (w_env w) = None
  \/ list_dir (w_env w) "/sys/class/hwmon/" = None ->
  refresh w cpu = None.
Proof.
  intros H. unfold refresh.
  destruct (showMemory (w_env w)) as [memory |]; [| reflexivity].
  destruct H as [H | H]; [discriminate H |].
  unfold showCPU_env, showCPU, readFanRPM. rewrite H. reflexivity.
Qed.

(** X11.  No exception is caught anywhere.  When the refreshes before
    have gone through without Enter being read, a refresh in which
    [std::stol] throws in the memory section, or in which the directory
    [/sys/class/hwmon/] cannot be listed, ends the program there: the
    ten reads of each earlier refresh are used up, no later one is made,
    [setNonBlocking(false)] is never called, and the terminal is left
    without canonical mode and echo, and non-blocking. *)
Theorem main_terminated_by_exception :
  forall (ok : list World) (w : World) (later : list World)
         (before rest : list (option ascii)) (t0 : Terminal),
    screens ok cpu_init <> None ->
    showMemory (w_env w) = None
    \/ list_dir (w_env w) "/sys/class/hwmon/" = None ->
    forallb no_enter before = true ->
    List.length before = (10 * List.length ok)%nat ->
    let r := main (ok ++ w :: later) (before ++ rest) t0 in
    r_outcome r = Terminated
    /\ r_unread r = rest
    /\ r_terminal r = rawTerminal t0
    /\ r_trace r = rawTrace t0.
Proof.
  intros ok w later before rest t0 Hok Hthrow Hb Hlen r. subst r.
  destruct (screens ok cpu_init) as [text |] eqn:Hs; [clear Hok | congruence].
  assert (Hbad : screens (ok ++ [w]) cpu_init = None).
  { clear Hlen Hb. revert text Hs. generalize cpu_init.
    induction ok as [|w0 ok IH]; intros cpu text Hok; cbn [app screens] in *.
    - now rewrite refresh_throws.
    - destruct (refresh w0 cpu) as [[cpu1 text1] |]; [| reflexivity].
      destruct (screens ok cpu1) as [text2 |] eqn:Hs2; [| discriminate Hok].
      now rewrite (IH cpu1 text2 Hs2). }
  unfold main. cbn [setNonBlocking nb_init saved negb oldt app].
  rewrite (mainLoop_thrown ok w later before rest _ _ _ _ _ text)
    by assumption.
  repeat split.
Qed.

(** On the bare machine [/sys/class/hwmon/] cannot be listed: the first
    refresh ends the program and the terminal stays raw. *)
Lemma main_terminated_by_exception_witness :
  list_dir (w_env bare) "/sys/class/hwmon/" = None
  /\ (let r := main [bare; laptop] [Some (ascii_of_nat 10)] cooked_tty in
      r_outcome r = Terminated
      /\ r_terminal r = rawTerminal cooked_tty
      /\ term_flags (r_terminal r) = 2050).
Proof.
  split; [reflexivity |].
  destruct (main_terminated_by_exception [] bare [laptop] []
              [Some (ascii_of_nat 10)] cooked_tty ltac:(discriminate)
              (or_intror eq_refl) eq_refl eq_refl)
    as (H1 & _ & H3 & _).
  cbv zeta. cbn [app] in H1, H3.
  split; [exact H1 | split; [exact H3 |]].
  now rewrite H3.
Defined.

(** ** Temperature line *)














(** ** Raw mode, bit by bit *)

Lemma testbit_pow2 (k n : nat) :
  Z.testbit (2 ^ Z.of_nat k) (Z.of_nat n) = (n =? k)%nat.
Proof.
  rewrite Z.pow2_bits_eqb by lia.
  destruct (Nat.eqb_spec n k) as [-> | Hne].
  - apply Z.eqb_refl.
  - apply Z.eqb_neq. lia.
Qed.

(** X12.  [setNonBlocking(true)] installs the saved attributes (those of
    the terminal itself at the first call) with exactly two bits of the
    local flags cleared, [ICANON] (bit 1) and [ECHO] (bit 3): every other
    local flag, [ISIG] among them, and every other attribute is kept.
    Among the file status flags it sets exactly [O_NONBLOCK] (bit 11). *)
Theorem setNonBlocking_raw_mode_bits :
  forall (st : nb_static) (t : Terminal) (n : nat),
    let base := if saved st then oldt st else term_attr t in
    let t1 := finalTerminal (setNonBlocking true st t) in
    Z.testbit (c_lflag (term_attr t1)) (Z.of_nat n)
    = Z.testbit (c_lflag base) (Z.of_nat n)
        && negb (n =? 1)%nat && negb (n =? 3)%nat
    /\ set_lflag (term_attr t1) (c_lflag base) = base
    /\ Z.testbit (term_flags t1) (Z.of_nat n)
       = Z.testbit (term_flags t) (Z.of_nat n) || (n =? 11)%nat.
Proof.
  intros st t n base t1.
  assert (Ht1 : t1 = {| term_attr := rawAttr base;
                        term_flags := Z.lor (term_flags t) O_NONBLOCK |}).
  { subst t1 base. unfold setNonBlocking, finalTerminal.
    destruct (saved st); reflexivity. }
  rewrite Ht1. cbn [term_attr term_flags]. split; [| split].
  - unfold rawAttr, set_lflag. cbn [c_lflag].
    rewrite Z.land_spec, Z.lnot_spec, Z.lor_spec by lia.
    change ICANON with (2 ^ Z.of_nat 1). change ECHO with (2 ^ Z.of_nat 3).
    rewrite !testbit_pow2, negb_orb, andb_assoc. reflexivity.
  - unfold rawAttr, set_lflag. destruct base; reflexivity.
  - rewrite Z.lor_spec. change O_NONBLOCK with (2 ^ Z.of_nat 11).
    now rewrite testbit_pow2.
Qed.

